(** * PDF parser workbench: a shallow embedding and its verified properties

    The development follows the layout of the repository:
    - [src/parsers.py]    the five extraction back ends,
    - [src/evaluation.py] the metrics engine and the chunking previewer,
    - [src/utils.py]      the export helpers,
    - [app.py]            the orchestration loop and the selection of the
                          primary text of a result.

    Python values are embedded as the inductive [PyVal]; a Python [dict]
    with string keys whose order is irrelevant (an extraction result, a
    keyword-argument bag) is a [gmap string PyVal]; a [dict] whose insertion
    order is observable (the result set, a dict that is serialised) is an
    association list updated in place.  In the results of the back ends
    Python [str] is [string]: the characters are the code points below 256.
    The export helpers take arbitrary data, so their embedding is over
    [PyObj], whose strings are sequences of Unicode code points and which
    has floats.  Integers are [Z].  Everything a back end learns from the
    outside (the opened document and its pages, the external process, the
    HTTP service, the clock) is read from a [World]; what the export
    helpers take from the interpreter, from an [Interpreter]. *)

From Stdlib Require Import ZArith List String Ascii Bool Lia.
From Stdlib Require Import DecimalString.
From Stdlib Require DecimalPos DecimalZ.
From Stdlib Require Import SpecFloat.
From stdpp Require Import base option list strings gmap sorting.

Open Scope string_scope.
Open Scope list_scope.

(** ** Python values *)

#[local] Set Warnings "-register-all".

Inductive PyKey : Type :=
| KStr (s : string)
| KInt (z : Z).

Inductive PyVal : Type :=
| VNone
| VBool (b : bool)
| VInt (z : Z)
| VStr (s : string)
| VList (l : list PyVal)
| VTuple (l : list PyVal)
| VDict (d : list (PyKey * PyVal))
| VFunc (name : string).

(** The message of a raised exception, [str(e)]. *)
Definition Exception : Type := string.

(** Truth value of an object, as tested by [if x:]. *)
Definition py_truthy (v : PyVal) : bool :=
  match v with
  | VNone => false
  | VBool b => b
  | VInt z => negb (z =? 0)%Z
  | VStr s => negb (String.eqb s "")
  | VList l | VTuple l => match l with [] => false | _ => true end
  | VDict d => match d with [] => false | _ => true end
  | VFunc _ => true
  end.

(** [d.get(k, default)] on a dict with string keys. *)
Definition dict_get (d : gmap string PyVal) (k : string) (dflt : PyVal) : PyVal :=
  match d !! k with
  | Some v => v
  | None => dflt
  end.

(** [d.get(k)], tested for truth: a missing key gives [None]. *)
Definition get_truthy (d : gmap string PyVal) (k : string) : bool :=
  py_truthy (dict_get d k VNone).

(** ** Python strings and sequences *)

Definition nl : string := String "010" "".
Definition dquote : ascii := "034"%char.

(** [str(n)] for an [int]. *)
Definition str_of_Z (z : Z) : string := NilZero.string_of_int (Z.to_int z).

(** [str.isspace] on one character (code points below 256). *)
Definition is_space (c : ascii) : bool :=
  let n := nat_of_ascii c in
  ((9 <=? n) && (n <=? 13) || (28 <=? n) && (n <=? 32)
   || (n =? 133) || (n =? 160))%nat.

Definition to_list (s : string) : list ascii := list_ascii_of_string s.
Definition of_list (l : list ascii) : string := string_of_list_ascii l.

(** [sep.join(parts)]. *)
Fixpoint join (sep : string) (parts : list string) : string :=
  match parts with
  | [] => ""
  | [p] => p
  | p :: rest => p +:+ sep +:+ join sep rest
  end.

(** [s.split(c)] for a one-character separator: the pieces between the
    occurrences of [c]; the empty string gives one empty piece. *)
Fixpoint split_chars (c : ascii) (l : list ascii) (cur : list ascii) : list string :=
  match l with
  | [] => [of_list (rev cur)]
  | x :: l' =>
      if Ascii.eqb x c then of_list (rev cur) :: split_chars c l' []
      else split_chars c l' (x :: cur)
  end.

Definition py_split (c : ascii) (s : string) : list string :=
  split_chars c (to_list s) [].

(** [s.strip()]. *)
Fixpoint lstrip_chars (l : list ascii) : list ascii :=
  match l with
  | [] => []
  | c :: l' => if is_space c then lstrip_chars l' else l
  end.

Definition py_strip (s : string) : string :=
  of_list (rev (lstrip_chars (rev (lstrip_chars (to_list s))))).

(** [s.startswith(p)]. *)
Definition startswith (p s : string) : bool := String.prefix p s.

(** [sub in s]. *)
Fixpoint contains (sub s : string) : bool :=
  String.prefix sub s ||
  match s with
  | "" => false
  | String _ s' => contains sub s'
  end.

(** A slice bound [i] of a sequence of length [len]: a negative bound counts
    from the end, and every bound is clamped to the sequence. *)
Definition slice_bound (len i : Z) : Z :=
  if (i <? 0)%Z then Z.max 0 (len + i) else Z.min len i.

(** [l[start:stop]]; [None] is an omitted bound. *)
Definition py_slice {A} (l : list A) (start stop : option Z) : list A :=
  let len := Z.of_nat (length l) in
  let a := match start with Some i => slice_bound len i | None => 0%Z end in
  let b := match stop with Some i => slice_bound len i | None => len end in
  take (Z.to_nat (b - a)) (drop (Z.to_nat a) l).

Definition str_slice (s : string) (start stop : option Z) : string :=
  of_list (py_slice (to_list s) start stop).

(** [s.rfind(c)] for one character: the last index of [c], or -1. *)
Fixpoint rfind_from (c : ascii) (l : list ascii) (i : Z) (found : Z) : Z :=
  match l with
  | [] => found
  | x :: l' => rfind_from c l' (i + 1) (if Ascii.eqb x c then i else found)
  end.

Definition rfind (c : ascii) (s : string) : Z := rfind_from c (to_list s) 0 (-1).

(** [range(start, stop)]. *)
Definition py_range (start stop : Z) : list Z := seqZ start (stop - start).

(** [repr] of a pair of integers, as an f-string prints a page range. *)
Definition repr_pair (p : Z * Z) : string :=
  "(" +:+ str_of_Z (fst p) +:+ ", " +:+ str_of_Z (snd p) +:+ ")".

(** [os.path.basename] (POSIX): what follows the last slash. *)
Definition basename (p : string) : string :=
  str_slice p (Some (rfind "/" p + 1)%Z) None.

(** [os.path.splitext] (POSIX): the extension starts at the last dot of the
    last component, unless that component has only leading dots before it. *)
Fixpoint only_dots_between (l : list ascii) (n : nat) : bool :=
  match n, l with
  | O, _ => true
  | S n', c :: l' => Ascii.eqb c "." && only_dots_between l' n'
  | S _, [] => false
  end.

Definition splitext (p : string) : string * string :=
  let sepIndex := rfind "/" p in
  let dotIndex := rfind "." p in
  if (sepIndex <? dotIndex)%Z then
    let filenameIndex := (sepIndex + 1)%Z in
    if only_dots_between (drop (Z.to_nat filenameIndex) (to_list p))
                         (Z.to_nat (dotIndex - filenameIndex))
    then (p, "")
    else (str_slice p None (Some dotIndex), str_slice p (Some dotIndex) None)
  else (p, "").

(** ** The outside world of the back ends *)

(** What Tesseract answers for one rendered page. *)
Inductive OcrOutcome : Type :=
| OcrText (text : string)
| TesseractNotFound
| OcrFailure (e : Exception).

(** One page of a document, as each library reads it.  Every operation on
    a page can raise: it gives its value or the exception.  [get_pixmap]
    stands for rendering the page at a resolution and decoding the image
    (lines 112-114); it gives [None] when that succeeds. *)
Record PdfPage : Type := {
  get_text : Exception + string;
  extract_text : Exception + option string;
  extract_tables : Exception + list PyVal;
  get_pixmap : Z -> option Exception;
  image_to_string : string -> Z -> OcrOutcome
}.

(** An opened document.  [load_failure n] is the exception that loading the
    page with the 0-based number [n] raises (a locked file opens, but none
    of its pages loads), or [None]. *)
Record PdfDoc : Type := {
  metadata : PyVal;
  pages : list PdfPage;
  load_failure : Z -> option Exception
}.

(** How the external [nougat] process ends: it cannot be started, it runs
    past the timeout, or it exits with a return code, leaving files behind
    (path to content). *)
Inductive NougatProcess : Type :=
| CommandNotFound
| TimedOut
| Exited (returncode : Z) (files : string -> option string).

(** How the POST to the GROBID service ends. *)
Inductive HttpOutcome : Type :=
| ConnectionError
| HttpTimeout
| HttpFailure (e : Exception)
| Response (status_code : Z) (text : string).

(** The world of one run: what opening a path gives with PyMuPDF and with
    pdfplumber (for pdfplumber: opening the file and listing its pages),
    whether the file can be opened for the upload, the clock,
    whether a directory can be made, how the Nougat process started with a
    command line and a timeout ends, and how the POST of a file to a URL
    ends. *)
Record World : Type := {
  fitz_open : string -> Exception + PdfDoc;
  pdfplumber_open : string -> Exception + PdfDoc;
  open_rb : string -> option Exception;
  clock : Z;
  os_makedirs : string -> option Exception;
  popen : list string -> Z -> NougatProcess;
  requests_post : string -> string -> HttpOutcome
}.

Definition page_count (doc : PdfDoc) : Z := Z.of_nat (length (pages doc)).

(** [doc.load_page(n)] for [0 <= n]. *)
Definition load_page (doc : PdfDoc) (n : Z) : Exception + PdfPage :=
  if (n <? 0)%Z then inl "page not in document"
  else match pages doc !! Z.to_nat n with
       | Some p =>
           match load_failure doc n with
           | Some e => inl e
           | None => inr p
           end
       | None => inl "page not in document"
       end.

(** [pdf.pages]: the page objects with their 1-based [page_number]. *)
Definition plumber_pages (doc : PdfDoc) : list (Z * PdfPage) :=
  zip (seqZ 1 (page_count doc)) (pages doc).

(** ** src/parsers.py *)

(** *** parse_pymupdf *)

(** The 0-based page numbers [parse_pymupdf] loads (lines 31-36). *)
Definition pymupdf_pages_to_process (doc_page_count : Z) (page_range : option (Z * Z))
  : list Z :=
  match page_range with
  | None => py_range 0 doc_page_count
  | Some (s, e) =>
      let start := Z.max 0 (s - 1) in
      let end_ := Z.min doc_page_count e in
      py_range start end_
  end.

Fixpoint pymupdf_texts (doc : PdfDoc) (page_nums : list Z) : Exception + list string :=
  match page_nums with
  | [] => inr []
  | page_num :: rest =>
      match load_page doc page_num with
      | inl e => inl e
      | inr page =>
          match get_text page with
          | inl e => inl e
          | inr text =>
              match pymupdf_texts doc rest with
              | inl e => inl e
              | inr texts => inr (text :: texts)
              end
          end
      end
  end.

(** [parse_pymupdf] (lines 24-47).  The metadata is stored before the pages
    are read: it stays in the result when a page fails. *)
Definition parse_pymupdf (w : World) (pdf_path : string) (page_range : option (Z * Z))
  : gmap string PyVal :=
  let result : gmap string PyVal :=
    {[ "text" := VStr ""; "metadata" := VDict []; "error" := VNone ]} in
  match fitz_open w pdf_path with
  | inl e => <["error" := VStr ("PyMuPDF Error: " +:+ e)]> result
  | inr doc =>
      let result := <["metadata" := metadata doc]> result in
      let pages_to_process := pymupdf_pages_to_process (page_count doc) page_range in
      match pymupdf_texts doc pages_to_process with
      | inl e => <["error" := VStr ("PyMuPDF Error: " +:+ e)]> result
      | inr full_text => <["text" := VStr (join nl full_text)]> result
      end
  end.

(** *** parse_pdfplumber *)

Definition invalid_page_range (page_range : Z * Z) : string :=
  "Invalid page range: " +:+ repr_pair page_range
  +:+ ". Start page must be less than end page.".

(** The pages [parse_pdfplumber] walks (lines 55-63), or the range error. *)
Definition pdfplumber_pages_to_process (pdf_pages : list (Z * PdfPage))
    (page_range : option (Z * Z)) : string + list (Z * PdfPage) :=
  match page_range with
  | None => inr pdf_pages
  | Some (s, e) =>
      let start := Z.max 0 (s - 1) in
      let end_ := Z.min (Z.of_nat (length pdf_pages)) e in
      if (end_ <=? start)%Z then inl (invalid_page_range (s, e))
      else inr (py_slice pdf_pages (Some start) (Some end_))
  end.

Definition table_record (page_num_actual : Z) (t_idx : nat) (table : PyVal) : PyVal :=
  VDict [(KStr "page", VInt page_num_actual);
         (KStr "table_index", VInt (Z.of_nat t_idx));
         (KStr "data", table)].

(** The page loop (lines 67-78): the first exception of an extraction ends
    it. *)
Fixpoint pdfplumber_collect (pages_to_process : list (Z * PdfPage))
    (full_text : list string) (all_tables : list PyVal)
  : Exception + (list string * list PyVal) :=
  match pages_to_process with
  | [] => inr (full_text, all_tables)
  | (page_num_actual, page) :: rest =>
      match extract_text page with
      | inl e => inl e
      | inr text =>
          let full_text :=
            match text with
            | Some text => if String.eqb text "" then full_text else full_text ++ [text]
            | None => full_text
            end in
          match extract_tables page with
          | inl e => inl e
          | inr tables =>
              let all_tables :=
                all_tables ++ imap (table_record page_num_actual) tables in
              pdfplumber_collect rest full_text all_tables
          end
      end
  end.

Definition pdfplumber_error (e : Exception) : string :=
  if contains "pdfminer.six" e && contains "20250327" e then
    "pdfplumber Error: Potential incompatibility with installed pdfminer.six version. Details: " +:+ e
  else "pdfplumber Error: " +:+ e.

Definition parse_pdfplumber (w : World) (pdf_path : string) (page_range : option (Z * Z))
  : gmap string PyVal :=
  let result : gmap string PyVal :=
    {[ "text" := VStr ""; "tables" := VList []; "error" := VNone ]} in
  match pdfplumber_open w pdf_path with
  | inl e => <["error" := VStr (pdfplumber_error e)]> result
  | inr pdf =>
      match pdfplumber_pages_to_process (plumber_pages pdf) page_range with
      | inl msg => <["error" := VStr msg]> result
      | inr pages_to_process =>
          match pdfplumber_collect pages_to_process [] [] with
          | inl e => <["error" := VStr (pdfplumber_error e)]> result
          | inr (full_text, all_tables) =>
              <["tables" := VList all_tables]>
                (<["text" := VStr (join (nl +:+ "---" +:+ nl) full_text)]> result)
          end
      end
  end.

(** *** parse_ocr *)

(** The 0-based page numbers [parse_ocr] renders (lines 98-107), or the
    range error. *)
Definition ocr_pages_to_process (doc_page_count : Z) (page_range : option (Z * Z))
  : string + list Z :=
  match page_range with
  | None => inr (py_range 0 doc_page_count)
  | Some (s, e) =>
      let start := Z.max 0 (s - 1) in
      let end_ := Z.min doc_page_count e in
      if (end_ <=? start)%Z then inl (invalid_page_range (s, e))
      else inr (py_range start end_)
  end.

(** How the page loop of [parse_ocr] ends. *)
Inductive OcrLoop : Type :=
| OcrDone (full_text : list string)
| OcrNoTesseract
| OcrRaised (e : Exception).

Fixpoint ocr_loop (doc : PdfDoc) (lang : string) (dpi : Z)
    (page_nums : list Z) (full_text : list string) : OcrLoop :=
  match page_nums with
  | [] => OcrDone full_text
  | page_num :: rest =>
      match load_page doc page_num with
      | inl e => OcrRaised e
      | inr page =>
          match get_pixmap page dpi with
          | Some e => OcrRaised e
          | None =>
              match image_to_string page lang dpi with
              | OcrText page_text => ocr_loop doc lang dpi rest (full_text ++ [page_text])
              | TesseractNotFound => OcrNoTesseract
              | OcrFailure _ =>
                  ocr_loop doc lang dpi rest
                    (full_text
                     ++ ["[OCR Error on page " +:+ str_of_Z (page_num + 1) +:+ "]"])
              end
          end
      end
  end.

Definition tesseract_missing : string :=
  "Tesseract Error: Executable not found. Please ensure Tesseract is installed and in your PATH or configure the path in parsers.py.".

(** What reading [doc.is_open] raises: a PyMuPDF document has no such
    attribute. *)
Definition no_is_open : Exception :=
  "'Document' object has no attribute 'is_open'".

(** [parse_ocr] (lines 92-137).  The last handler (lines 132-136) stores
    its message and then, when the document had been opened, reads
    [doc.is_open]: that raises, so an exception after the opening leaves
    the function as an [AttributeError] and no result is returned.  When
    the opening itself fails there is no [doc], the test stops at its first
    half and the error result is returned. *)
Definition parse_ocr (w : World) (pdf_path : string) (lang : string)
    (page_range : option (Z * Z)) (dpi : Z) : Exception + gmap string PyVal :=
  let result : gmap string PyVal := {[ "text" := VStr ""; "error" := VNone ]} in
  match fitz_open w pdf_path with
  | inl e => inr (<["error" := VStr ("OCR Workflow Error: " +:+ e)]> result)
  | inr doc =>
      match ocr_pages_to_process (page_count doc) page_range with
      | inl msg => inr (<["error" := VStr msg]> result)
      | inr pages_to_process =>
          match ocr_loop doc lang dpi pages_to_process [] with
          | OcrDone full_text =>
              inr (<["text" := VStr (join (nl +:+ nl +:+ "--- Page Break ---" +:+ nl +:+ nl)
                                       full_text)]> result)
          | OcrNoTesseract => inr (<["error" := VStr tesseract_missing]> result)
          | OcrRaised e => inl no_is_open
          end
      end
  end.

(** *** parse_nougat *)

(** The page count [parse_nougat] shows in its progress messages (lines
    161-163).  The progress callback itself (wall-clock fractions) is not
    part of the model. *)
Definition nougat_total_pages (doc_page_count : Z) (page_range : option (Z * Z)) : Z :=
  match page_range with
  | None => doc_page_count
  | Some (s, e) => (Z.min e doc_page_count - Z.max 1 s + 1)%Z
  end.

Definition nougat_output_dir (w : World) : string :=
  "temp_nougat_output_" +:+ str_of_Z (clock w).

(** The command line of the external tool (lines 172-177). *)
Definition nougat_command (pdf_path output_dir : string) : list string :=
  ["nougat"; pdf_path; "-o"; output_dir; "--no-skipping"].

(** A line opens or closes a fenced math block. *)
Definition is_fence (line : string) : bool := startswith "$$" (py_strip line).

(** The scan for LaTeX blocks (lines 220-233), with the loop variables
    [in_latex], [current_block] and [latex_blocks] as accumulators. *)
Fixpoint scan_latex (lines : list string) (in_latex : bool)
    (current_block : list string) (latex_blocks : list string) : list string :=
  match lines with
  | [] => latex_blocks
  | line :: rest =>
      if is_fence line then
        if in_latex then scan_latex rest false [] (latex_blocks ++ [join nl current_block])
        else scan_latex rest true current_block latex_blocks
      else if in_latex then scan_latex rest in_latex (current_block ++ [line]) latex_blocks
      else scan_latex rest in_latex current_block latex_blocks
  end.

Definition extract_latex_blocks (markdown : string) : list string :=
  scan_latex (py_split "010" markdown) false [] [].

Definition nougat_unexpected (e : Exception) : string :=
  "Nougat Error: An unexpected error occurred: " +:+ e.

(** [parse_nougat] raises only when the temporary directory cannot be made
    (line 153, before the [try]).  Any exception of [fitz.open] is caught by
    the last handler.  When the output file is missing, line 241 slices the
    [stderr] pipe of the process, which raises a [TypeError] that the last
    handler reports. *)
Definition parse_nougat (w : World) (pdf_path : string) (page_range : option (Z * Z))
    (timeout : Z) : Exception + gmap string PyVal :=
  let result : gmap string PyVal :=
    {[ "markdown" := VStr ""; "latex" := VStr ""; "error" := VNone ]} in
  let output_dir := nougat_output_dir w in
  match os_makedirs w output_dir with
  | Some e => inl e
  | None =>
      inr
        match fitz_open w pdf_path with
        | inl e => <["error" := VStr (nougat_unexpected e)]> result
        | inr doc =>
            match popen w (nougat_command pdf_path output_dir) timeout with
            | CommandNotFound =>
                <["error" := VStr "Nougat Error: 'nougat' command not found. Is Nougat installed and in your PATH?"]>
                  result
            | TimedOut =>
                <["error" := VStr "Nougat Error: Processing timed out after 10 minutes"]> result
            | Exited returncode files =>
                if negb (returncode =? 0)%Z then
                  <["error" := VStr ("Nougat Error: Process failed with exit code "
                                     +:+ str_of_Z returncode +:+ "." +:+ nl
                                     +:+ "Stdout: None" +:+ nl +:+ "Stderr: None")]> result
                else
                  let output_filename_base := fst (splitext (basename pdf_path)) in
                  let output_mmd_path :=
                    output_dir +:+ "/" +:+ output_filename_base +:+ ".mmd" in
                  match files output_mmd_path with
                  | Some markdown =>
                      let latex_blocks := extract_latex_blocks markdown in
                      <["latex_equations_count" := VInt (Z.of_nat (length latex_blocks))]>
                        (<["latex_blocks" := VList (VStr <$> latex_blocks)]>
                           (<["markdown" := VStr markdown]> result))
                  | None =>
                      <["error" := VStr (nougat_unexpected
                           "'_io.TextIOWrapper' object is not subscriptable")]> result
                  end
            end
        end
  end.

(** *** parse_grobid *)

Definition parse_grobid (w : World) (pdf_path : string) (grobid_url : string)
  : gmap string PyVal :=
  let result : gmap string PyVal :=
    {[ "metadata" := VDict []; "structured_text" := VStr ""; "error" := VNone ]} in
  let grobid_api_url := grobid_url +:+ "/api/processFulltextDocument" in
  match open_rb w pdf_path with
  | Some e => <["error" := VStr ("GROBID Error: An unexpected error occurred: " +:+ e)]> result
  | None =>
      match requests_post w grobid_api_url pdf_path with
      | Response status_code text =>
          if (status_code =? 200)%Z then <["structured_text" := VStr text]> result
          else
            <["error" := VStr ("GROBID Error: API request failed with status "
                               +:+ str_of_Z status_code +:+ ". Response: "
                               +:+ str_slice text None (Some 500%Z) +:+ "...")]> result
      | ConnectionError =>
          <["error" := VStr ("GROBID Error: Could not connect to GROBID instance at "
                             +:+ grobid_api_url +:+ ". Is it running?")]> result
      | HttpTimeout =>
          <["error" := VStr "GROBID Error: Request timed out after 120 seconds."]> result
      | HttpFailure e =>
          <["error" := VStr ("GROBID Error: An unexpected error occurred: " +:+ e)]> result
      end
  end.

(** ** src/evaluation.py *)

(** *** The regular expressions of the metrics

    The four patterns of [calculate_metrics] are sequences of quantified
    character classes, negative one-character look-behinds and line
    anchors; [match_items] is the backtracking matcher for such sequences
    and [findall_count] is [len(re.findall(...))]. *)

Inductive CharClass : Type :=
| CChar (c : ascii)        (* a literal character *)
| CDot (dotall : bool)     (* [.]; with DOTALL it also matches a newline *)
| CSpace                   (* [\s] *)
| CDigit.                  (* [\d] *)

Definition is_digit (c : ascii) : bool :=
  let n := nat_of_ascii c in ((48 <=? n) && (n <=? 57))%nat.

Definition class_match (cls : CharClass) (c : ascii) : bool :=
  match cls with
  | CChar x => Ascii.eqb c x
  | CDot dotall => dotall || negb (Ascii.eqb c "010")
  | CSpace => is_space c
  | CDigit => is_digit c
  end.

Inductive Item : Type :=
| NotAfter (c : ascii)     (* [(?<!c)] *)
| BOL                      (* [^] with MULTILINE *)
| Rep (cls : CharClass) (lo : nat) (hi : option nat) (greedy : bool).

Definition One (cls : CharClass) : Item := Rep cls 1 (Some 1%nat) true.
Definition Star (cls : CharClass) : Item := Rep cls 0 None true.
Definition LazyStar (cls : CharClass) : Item := Rep cls 0 None false.
Definition Plus (cls : CharClass) : Item := Rep cls 1 None true.

Definition below (hi : option nat) (n : nat) : bool :=
  match hi with
  | Some h => (n <? h)%nat
  | None => true
  end.

Definition preceded_by (prev : option ascii) (c : ascii) : bool :=
  match prev with
  | Some p => Ascii.eqb p c
  | None => false
  end.

Definition at_line_start (prev : option ascii) : bool :=
  match prev with
  | Some p => Ascii.eqb p "010"
  | None => true
  end.

(** [match_items items prev s]: match [items] at the head of [s], where
    [prev] is the character before it; the answer is the input left after
    the first match the backtracking search finds. *)
Fixpoint match_items (items : list Item) (prev : option ascii) (s : list ascii)
    {struct items} : option (list ascii) :=
  match items with
  | [] => Some s
  | NotAfter c :: rest =>
      if preceded_by prev c then None else match_items rest prev s
  | BOL :: rest =>
      if at_line_start prev then match_items rest prev s else None
  | Rep cls lo hi greedy :: rest =>
      (fix rep (n : nat) (prev : option ascii) (s : list ascii) {struct s}
         : option (list ascii) :=
         if greedy then
           match
             match s with
             | c :: s' =>
                 if class_match cls c && below hi n then rep (S n) (Some c) s' else None
             | [] => None
             end
           with
           | Some r => Some r
           | None => if (lo <=? n)%nat then match_items rest prev s else None
           end
         else
           match (if (lo <=? n)%nat then match_items rest prev s else None) with
           | Some r => Some r
           | None =>
               match s with
               | c :: s' =>
                   if class_match cls c && below hi n then rep (S n) (Some c) s' else None
               | [] => None
               end
           end) 0%nat prev s
  end.

(** The scan of [re.findall]: matches are looked for from left to right and
    do not overlap; after a match of [len] characters the scan resumes
    behind it ([skip] counts the characters still to pass). *)
Fixpoint findall_go (items : list Item) (prev : option ascii) (s : list ascii)
    (skip : nat) : nat :=
  match skip with
  | S k =>
      match s with
      | c :: t => findall_go items (Some c) t k
      | [] => 0
      end
  | O =>
      match match_items items prev s with
      | Some s' =>
          S (match s with
             | c :: t => findall_go items (Some c) t (pred (length s - length s'))
             | [] => 0
             end)
      | None =>
          match s with
          | c :: t => findall_go items (Some c) t 0
          | [] => 0
          end
      end
  end%nat.

Definition findall_count (items : list Item) (text : string) : nat :=
  findall_go items None (to_list text) 0.

Definition dollar : CharClass := CChar "$".

(** [(?<!\\)\$.*?(?<!\\)\$] *)
Definition inline_eq_pattern : list Item :=
  [NotAfter "\"; One dollar; LazyStar (CDot false); NotAfter "\"; One dollar].

(** [(?<!\\)\$\$.*?(?<!\\)\$\$] with [re.DOTALL] *)
Definition display_eq_pattern : list Item :=
  [NotAfter "\"; One dollar; One dollar; LazyStar (CDot true);
   NotAfter "\"; One dollar; One dollar].

(** [^\s*#{1,6}\s+.*] with [re.MULTILINE] *)
Definition header_pattern : list Item :=
  [BOL; Star CSpace; Rep (CChar "#") 1 (Some 6%nat) true; Plus CSpace; Star (CDot false)].

(** [^\s*\d+\.\s+.*] with [re.MULTILINE] *)
Definition numbered_pattern : list Item :=
  [BOL; Star CSpace; Plus CDigit; One (CChar "."); Plus CSpace; Star (CDot false)].

(** [len(text.split())]: the number of maximal runs of non-space characters. *)
Fixpoint count_words (l : list ascii) (in_word : bool) : nat :=
  match l with
  | [] => 0
  | c :: l' =>
      if is_space c then count_words l' false
      else if in_word then count_words l' true
      else S (count_words l' true)
  end.

(** *** calculate_metrics *)

Definition calculate_metrics (text_content : PyVal) : gmap string PyVal :=
  match text_content with
  | VStr text =>
      let inline_eq_count := findall_count inline_eq_pattern text in
      let display_eq_count := findall_count display_eq_pattern text in
      let section_count :=
        (findall_count header_pattern text + findall_count numbered_pattern text)%nat in
      {[ "char_count" := VInt (Z.of_nat (String.length text));
         "word_count" := VInt (Z.of_nat (count_words (to_list text) false));
         "estimated_equation_count" :=
           VInt (Z.of_nat (inline_eq_count + display_eq_count));
         "estimated_section_count" := VInt (Z.of_nat section_count) ]}
  | _ => {[ "error" := VStr "Input must be a string" ]}
  end.

(** *** get_chunking_preview

    The splitter is LangChain's [RecursiveCharacterTextSplitter]; the model
    takes its [split_text] (for a chunk size, an overlap and a text) as a
    parameter.  It may raise. *)

Section ChunkingPreview.
Variable split_text : Z -> Z -> string -> Exception + list string.

Definition get_chunking_preview (text_content : PyVal) (strategy : string)
    (chunk_size chunk_overlap max_preview_chunks : Z) : gmap string PyVal :=
  let preview : gmap string PyVal :=
    {[ "chunks" := VList []; "total_chunks" := VInt 0; "error" := VNone ]} in
  match text_content with
  | VStr text =>
      if (chunk_size <=? 0)%Z then
        <["error" := VStr "Chunk size must be positive"]> preview
      else if (chunk_overlap <? 0)%Z then
        <["error" := VStr "Chunk overlap cannot be negative"]> preview
      else if (chunk_size <=? chunk_overlap)%Z then
        <["error" := VStr "Chunk overlap must be smaller than chunk size"]> preview
      else if String.eqb strategy "recursive" then
        match split_text chunk_size chunk_overlap text with
        | inr chunks =>
            <["total_chunks" := VInt (Z.of_nat (length chunks))]>
              (<["chunks" := VList (VStr <$> py_slice chunks None (Some max_preview_chunks))]>
                 preview)
        | inl e => <["error" := VStr ("Chunking Error: " +:+ e)]> preview
        end
      else
        <["error" := VStr ("Unknown or unimplemented chunking strategy: " +:+ strategy)]>
          preview
  | _ => <["error" := VStr "Input text must be a string"]> preview
  end.
End ChunkingPreview.

(** ** src/utils.py *)

(** *** get_safe_filename *)

(** The character class of the pattern on line 20: backslash, slash, star,
    question mark, colon, double quote, angle brackets and bar. *)
Definition invalid_filename_char (c : ascii) : bool :=
  Ascii.eqb c "\" || Ascii.eqb c "/" || Ascii.eqb c "*" || Ascii.eqb c "?"
  || Ascii.eqb c ":" || Ascii.eqb c dquote || Ascii.eqb c "<" || Ascii.eqb c ">"
  || Ascii.eqb c "|".

(** [re.sub] with that class and the empty replacement. *)
Definition remove_invalid (s : string) : string :=
  of_list (List.filter (fun c => negb (invalid_filename_char c)) (to_list s)).

(** [s.replace] of every space by an underscore. *)
Definition replace_spaces (s : string) : string :=
  of_list (List.map (fun c => if Ascii.eqb c " " then "_"%char else c) (to_list s)).

Definition py_len (s : string) : Z := Z.of_nat (String.length s).

Definition get_safe_filename (base_name : string) : string :=
  let base_name := basename base_name in
  let safe_name := remove_invalid base_name in
  let safe_name := replace_spaces safe_name in
  let max_len := 100%Z in
  if (max_len <? py_len safe_name)%Z then
    let '(name, ext) := splitext safe_name in
    str_slice name None (Some (max_len - py_len ext - 1)%Z) +:+ ext
  else safe_name.

(** ** app.py *)

(** *** Insertion-ordered dicts

    [current_results] is a dict whose key order is shown to the user; it is
    an association list: assigning to a present key replaces the value in
    place, assigning to a new key appends. *)

Section OrderedDict.
Context {K V : Type} `{EqDecision K}.

Fixpoint od_get (d : list (K * V)) (k : K) : option V :=
  match d with
  | [] => None
  | (k', v) :: d' => if decide (k' = k) then Some v else od_get d' k
  end.

Fixpoint od_set (d : list (K * V)) (k : K) (v : V) : list (K * V) :=
  match d with
  | [] => [(k, v)]
  | (k', v') :: d' =>
      if decide (k' = k) then (k, v) :: d' else (k', v') :: od_set d' k v
  end.
End OrderedDict.

(** *** The registry of back ends (lines 50-56) *)

Inductive Parser : Type := PyMuPDF | Pdfplumber | Ocr | Nougat | Grobid.

Definition PARSER_OPTIONS : list (string * Parser) :=
  [("PyMuPDF", PyMuPDF); ("pdfplumber", Pdfplumber); ("OCR (Tesseract)", Ocr);
   ("Nougat", Nougat); ("GROBID", Grobid)].

(** *** Calling a back end with keyword arguments

    A call that unpacks [params] binds the keys of [params] to the parameters of
    the function: a key that is no parameter, or a missing [pdf_path], is a
    [TypeError] raised by the call itself.  Arguments of another type than
    the user interface produces are outside the model and reported the same
    way. *)

Definition type_error : Exception := "TypeError".

Definition accepts (names : list string) (kwargs : gmap string PyVal) : bool :=
  bool_decide (dom kwargs ⊆ (list_to_set names : gset string)).

Definition arg_page_range (kwargs : gmap string PyVal) : option (option (Z * Z)) :=
  match kwargs !! "page_range" with
  | None | Some VNone => Some None
  | Some (VTuple [VInt s; VInt e]) => Some (Some (s, e))
  | Some _ => None
  end.

Definition arg_str (kwargs : gmap string PyVal) (k dflt : string) : option string :=
  match kwargs !! k with
  | None => Some dflt
  | Some (VStr s) => Some s
  | Some _ => None
  end.

Definition arg_int (kwargs : gmap string PyVal) (k : string) (dflt : Z) : option Z :=
  match kwargs !! k with
  | None => Some dflt
  | Some (VInt z) => Some z
  | Some _ => None
  end.

Definition invoke (w : World) (f : Parser) (kwargs : gmap string PyVal)
  : Exception + gmap string PyVal :=
  match kwargs !! "pdf_path" with
  | Some (VStr pdf_path) =>
      match f with
      | PyMuPDF =>
          if accepts ["pdf_path"; "page_range"] kwargs then
            match arg_page_range kwargs with
            | Some pr => inr (parse_pymupdf w pdf_path pr)
            | None => inl type_error
            end
          else inl type_error
      | Pdfplumber =>
          if accepts ["pdf_path"; "page_range"] kwargs then
            match arg_page_range kwargs with
            | Some pr => inr (parse_pdfplumber w pdf_path pr)
            | None => inl type_error
            end
          else inl type_error
      | Ocr =>
          if accepts ["pdf_path"; "lang"; "page_range"; "dpi"] kwargs then
            match arg_str kwargs "lang" "eng", arg_page_range kwargs,
                  arg_int kwargs "dpi" 300 with
            | Some lang, Some pr, Some dpi => parse_ocr w pdf_path lang pr dpi
            | _, _, _ => inl type_error
            end
          else inl type_error
      | Nougat =>
          if accepts ["pdf_path"; "page_range"; "timeout"; "_progress_callback"] kwargs then
            match arg_page_range kwargs, arg_int kwargs "timeout" 1800 with
            | Some pr, Some timeout => parse_nougat w pdf_path pr timeout
            | _, _ => inl type_error
            end
          else inl type_error
      | Grobid =>
          if accepts ["pdf_path"; "grobid_url"] kwargs then
            match arg_str kwargs "grobid_url" "http://localhost:8070" with
            | Some url => inr (parse_grobid w pdf_path url)
            | None => inl type_error
            end
          else inl type_error
      end
  | _ => inl type_error
  end.

(** *** The parsing loop (lines 178-221) *)

(** What the sidebar holds when the button is pressed. *)
Record Settings : Type := {
  selected_pdf_path : string;
  page_range : option (Z * Z);
  ocr_lang : string;
  ocr_dpi : Z;
  grobid_url : string;
  nougat_timeout : Z
}.

Definition page_range_value (pr : option (Z * Z)) : PyVal :=
  match pr with
  | None => VNone
  | Some (s, e) => VTuple [VInt s; VInt e]
  end.

Definition common_params (st : Settings) : gmap string PyVal :=
  {[ "pdf_path" := VStr (selected_pdf_path st);
     "page_range" := page_range_value (page_range st) ]}.

(** The keyword arguments built for one selected back end (lines 191-203). *)
Definition parser_params (st : Settings) (parser_name : string) : gmap string PyVal :=
  let params := common_params st in
  if String.eqb parser_name "OCR (Tesseract)" then
    <["dpi" := VInt (ocr_dpi st)]> (<["lang" := VStr (ocr_lang st)]> params)
  else if String.eqb parser_name "GROBID" then
    delete "page_range" (<["grobid_url" := VStr (grobid_url st)]> params)
  else if String.eqb parser_name "Nougat" then
    <["_progress_callback" := VFunc "update_progress"]>
      (<["timeout" := VInt (nougat_timeout st)]> params)
  else params.

(** The keyword arguments of the fallback call (lines 214-216). *)
Definition ocr_params (st : Settings) : gmap string PyVal :=
  <["dpi" := VInt (ocr_dpi st)]> (<["lang" := VStr (ocr_lang st)]> (common_params st)).

Definition failed_to_execute (parser_name : string) (e : Exception) : gmap string PyVal :=
  {[ "error" := VStr ("Failed to execute parser '" +:+ parser_name +:+ "': " +:+ e) ]}.

Section Orchestrator.
(** What calling each registered function does in the current world. *)
Variable call : Parser -> gmap string PyVal -> Exception + gmap string PyVal.

(** One turn of the loop.  The look-up in [PARSER_OPTIONS] (line 190) is
    outside the [try]: a name that is not registered ends the run with a
    [KeyError]. *)
Definition run_parser (st : Settings)
    (current_results : list (string * gmap string PyVal)) (parser_name : string)
  : Exception + list (string * gmap string PyVal) :=
  match od_get PARSER_OPTIONS parser_name with
  | None => inl ("KeyError: " +:+ parser_name)
  | Some parser_func =>
      let params := parser_params st parser_name in
      inr
        match call parser_func params with
        | inl e => od_set current_results parser_name (failed_to_execute parser_name e)
        | inr result =>
            let current_results := od_set current_results parser_name result in
            if String.eqb parser_name "Nougat"
               && get_truthy result "error"
               && bool_decide (is_Some (od_get PARSER_OPTIONS "OCR (Tesseract)"))
            then
              match call Ocr (ocr_params st) with
              | inl e =>
                  od_set current_results parser_name (failed_to_execute parser_name e)
              | inr fallback => od_set current_results "OCR Fallback" fallback
              end
            else current_results
        end
  end.

Fixpoint run_parsers (st : Settings) (selected_parser_names : list string)
    (current_results : list (string * gmap string PyVal))
  : Exception + list (string * gmap string PyVal) :=
  match selected_parser_names with
  | [] => inr current_results
  | parser_name :: rest =>
      match run_parser st current_results parser_name with
      | inl e => inl e
      | inr current_results => run_parsers st rest current_results
      end
  end.

(** The run behind the button: [current_results] starts empty. *)
Definition parse_button (st : Settings) (selected_parser_names : list string)
  : Exception + list (string * gmap string PyVal) :=
  run_parsers st selected_parser_names [].
End Orchestrator.

(** *** The primary text of a result *)

(** Line 273: the text the metrics are computed on. *)
Definition metrics_primary_text (data : gmap string PyVal) : PyVal :=
  dict_get data "markdown" (dict_get data "text" (dict_get data "structured_text" (VStr ""))).

(** Line 337: the text the chunking preview splits. *)
Definition chunking_source_text (source_data : gmap string PyVal) : PyVal :=
  dict_get source_data "markdown"
    (dict_get source_data "text" (dict_get source_data "structured_text" (VStr ""))).

(** Lines 307-308: the two texts of the difference view. *)
Definition diff_view_text (data : gmap string PyVal) : PyVal :=
  dict_get data "markdown" (dict_get data "text" (VStr "")).

(** Line 433: the text written to the DOCX export. *)
Definition primary_text_for_docx (data_to_export : gmap string PyVal) : PyVal :=
  dict_get data_to_export "markdown" (dict_get data_to_export "text" (VStr "")).

(** The selection the specification describes: the first present field in
    the order markdown, text, structured_text. *)
Definition primary_by_precedence (data : gmap string PyVal) : option PyVal :=
  match data !! "markdown" with
  | Some v => Some v
  | None =>
      match data !! "text" with
      | Some v => Some v
      | None => data !! "structured_text"
      end
  end.

(** ** src/utils.py: the export helpers *)

(** *** Python data and the interpreter

    The export helpers are applied to arbitrary data, so their embedding is
    over [PyObj], the Python values with their full range: a [str] is the
    sequence of its Unicode code points (integers from 0 to 0x10FFFF,
    surrogates included), a [float] is an IEEE 754 binary64 value, [bytes]
    are integers from 0 to 255. *)

Inductive ObjKey : Type :=
| KeyStr (s : list Z)
| KeyInt (z : Z).

Inductive PyObj : Type :=
| ONone
| OBool (b : bool)
| OInt (z : Z)
| OFloat (x : spec_float)
| OStr (s : list Z)
| OList (l : list PyObj)
| OTuple (l : list PyObj)
| ODict (d : list (ObjKey * PyObj))
| OOther (name : string).   (* a value the encoder does not serialise *)

Instance ObjKey_eq_dec : EqDecision ObjKey.
Proof. solve_decision. Defined.

(** What the export helpers take from the interpreter that runs them.
    [json.dumps] writes a finite float with [float.__repr__] and
    [json.loads] reads a number with a fraction or an exponent with
    [float]: both conversions are parameters.  Converting an integer to or
    from a decimal text of more than [int_max_str_digits] digits raises a
    [ValueError] (4300 by default, 0 for no limit).  The encoder and the
    decoder recurse over nested lists and dicts: beyond [dump_depth] and
    [load_depth] nested containers, they raise a [RecursionError]. *)
Record Interpreter : Type := {
  float_repr : spec_float -> list Z;
  float_of_literal : list Z -> spec_float;
  int_max_str_digits : nat;
  dump_depth : nat;
  load_depth : nat
}.

(** The code point of a character, and the code points of a text. *)
Definition chr (c : ascii) : Z := Z.of_nat (nat_of_ascii c).

Definition codes (s : string) : list Z := chr <$> to_list s.

(** The text of code points below 256. *)
Definition text_of (l : list Z) : string :=
  of_list ((fun c => ascii_of_nat (Z.to_nat c)) <$> l).

(** A Unicode scalar value: a code point that is no surrogate.  These are
    the code points that UTF-8 encodes. *)
Definition is_scalar_value (c : Z) : bool :=
  ((0 <=? c) && (c <? 55296) || (57343 <? c) && (c <=? 1114111))%Z.

(** *** UTF-8 *)

(** [str.encode('utf-8')] on one code point: one to four bytes; a
    surrogate raises a [UnicodeEncodeError] ([None]). *)
Definition encode_utf8_char (c : Z) : option (list Z) :=
  if negb (is_scalar_value c) then None
  else if (c <? 128)%Z then Some [c]
  else if (c <? 2048)%Z then Some [192 + c / 64; 128 + c mod 64]%Z
  else if (c <? 65536)%Z then
    Some [224 + c / 4096; 128 + (c / 64) mod 64; 128 + c mod 64]%Z
  else
    Some [240 + c / 262144; 128 + (c / 4096) mod 64; 128 + (c / 64) mod 64;
          128 + c mod 64]%Z.

Definition encode_utf8 (s : list Z) : option (list Z) :=
  (fun chunks => concat chunks) <$> mapM encode_utf8_char s.

(** A continuation byte. *)
Definition is_cont (b : Z) : bool := ((128 <=? b) && (b <? 192))%Z.

(** [bytes.decode('utf-8')]: strict, so an ill-formed sequence, an overlong
    form, an encoded surrogate and a code point above 0x10FFFF give
    [None]. *)
Fixpoint decode_utf8 (bs : list Z) : option (list Z) :=
  match bs with
  | [] => Some []
  | b0 :: bs1 =>
      if ((0 <=? b0) && (b0 <? 128))%Z then cons b0 <$> decode_utf8 bs1
      else if ((192 <=? b0) && (b0 <? 224))%Z then
        match bs1 with
        | b1 :: bs2 =>
            let c := ((b0 - 192) * 64 + (b1 - 128))%Z in
            if is_cont b1 && (128 <=? c)%Z then cons c <$> decode_utf8 bs2 else None
        | _ => None
        end
      else if ((224 <=? b0) && (b0 <? 240))%Z then
        match bs1 with
        | b1 :: b2 :: bs3 =>
            let c := ((b0 - 224) * 4096 + (b1 - 128) * 64 + (b2 - 128))%Z in
            if is_cont b1 && is_cont b2 && (2048 <=? c)%Z && is_scalar_value c
            then cons c <$> decode_utf8 bs3 else None
        | _ => None
        end
      else if ((240 <=? b0) && (b0 <? 248))%Z then
        match bs1 with
        | b1 :: b2 :: b3 :: bs4 =>
            let c := ((b0 - 240) * 262144 + (b1 - 128) * 4096 + (b2 - 128) * 64
                      + (b3 - 128))%Z in
            if is_cont b1 && is_cont b2 && is_cont b3 && (65536 <=? c)%Z
               && (c <=? 1114111)%Z
            then cons c <$> decode_utf8 bs4 else None
        | _ => None
        end
      else None
  end.

(** *** export_text *)

(** [export_text] (lines 30-40), which [export_markdown] and [export_xml]
    call: the UTF-8 bytes of a string; [None] for another value, and when
    the encoding raises. *)
Definition export_text (content : PyObj) : option (list Z) :=
  match content with
  | OStr s => encode_utf8 s
  | _ => None
  end.

Definition export_markdown (content : PyObj) : option (list Z) :=
  export_text content.

Definition export_xml (content : PyObj) : option (list Z) :=
  export_text content.

(** *** export_json and Python's json module

    [export_json] is [json.dumps(data, indent=4, ensure_ascii=False)]
    followed by the UTF-8 encoding of the text; every exception of the two
    is caught and gives [None].  The model of the encoder and of the
    decoder a reader applies to the bytes ([json.loads]) follows the module
    as CPython runs it. *)

(** **** Encoding *)

Definition hex_digit (n : Z) : Z := if (n <? 10)%Z then (48 + n)%Z else (87 + n)%Z.

(** The replacement of one code point of a string ([ESCAPE_DCT]): quote
    and backslash, the short escapes, and four hexadecimal digits for the
    other code points below the space. *)
Definition escape_char (c : Z) : list Z :=
  if (c =? chr dquote)%Z then [chr "\"; chr dquote]
  else if (c =? chr "\")%Z then [chr "\"; chr "\"]
  else if (c =? 10)%Z then codes "\n"
  else if (c =? 13)%Z then codes "\r"
  else if (c =? 9)%Z then codes "\t"
  else if (c =? 8)%Z then codes "\b"
  else if (c =? 12)%Z then codes "\f"
  else if (c <? 32)%Z then codes "\u00" ++ [hex_digit (c / 16); hex_digit (c mod 16)]
  else [c].

(** [encode_basestring]: the string between quotes, escaped. *)
Definition encode_basestring (s : list Z) : list Z :=
  chr dquote :: flat_map escape_char s ++ [chr dquote].

(** The number of decimal digits of an integer. *)
Definition decimal_digits (z : Z) : nat := String.length (str_of_Z (Z.abs z)).

(** A decimal text of [digits] digits is within the limit of the
    interpreter for the conversion between [int] and [str]. *)
Definition within_digit_limit (py : Interpreter) (digits : nat) : bool :=
  (int_max_str_digits py =? 0)%nat || (digits <=? int_max_str_digits py)%nat.

(** [int.__repr__]: [None] for the [ValueError] of the digit limit. *)
Definition int_repr (py : Interpreter) (z : Z) : option (list Z) :=
  if within_digit_limit py (decimal_digits z) then Some (codes (str_of_Z z)) else None.

(** [floatstr]: the three special values have names, every other float is
    written with [float.__repr__]. *)
Definition floatstr (py : Interpreter) (x : spec_float) : list Z :=
  match x with
  | S754_nan => codes "NaN"
  | S754_infinity false => codes "Infinity"
  | S754_infinity true => codes "-Infinity"
  | _ => float_repr py x
  end.

(** A dict key as the encoder writes it: a string as it is, an integer in
    decimal. *)
Definition key_string (py : Interpreter) (k : ObjKey) : option (list Z) :=
  match k with
  | KeyStr s => Some s
  | KeyInt z => int_repr py z
  end.

(** A newline and the indentation of a nesting level ([indent=4]). *)
Definition newline_indent (level : nat) : list Z :=
  10%Z :: repeat 32%Z (4 * level).

(** [sep.join(items)] on texts. *)
Fixpoint join_chars (sep : list Z) (items : list (list Z)) : list Z :=
  match items with
  | [] => []
  | [x] => x
  | x :: rest => x ++ sep ++ join_chars sep rest
  end.

(** A list or dict at nesting [level] whose items are already encoded. *)
Definition encode_container (opening closing : Z) (level : nat)
    (items : list (list Z)) : list Z :=
  match items with
  | [] => [opening; closing]
  | _ =>
      opening :: newline_indent (S level)
      ++ join_chars (chr "," :: newline_indent (S level)) items
      ++ newline_indent level ++ [closing]
  end.

(** [_iterencode]: the text of a value at a nesting level, or [None] when
    the encoder raises: a [TypeError] for a value that is not serialisable,
    a [ValueError] for an integer beyond the digit limit, a
    [RecursionError] for a container nested deeper than [dump_depth]. *)
Fixpoint json_encode (py : Interpreter) (level : nat) (v : PyObj) {struct v}
  : option (list Z) :=
  match v with
  | ONone => Some (codes "null")
  | OBool true => Some (codes "true")
  | OBool false => Some (codes "false")
  | OInt z => int_repr py z
  | OFloat x => Some (floatstr py x)
  | OStr s => Some (encode_basestring s)
  | OList l | OTuple l =>
      if (dump_depth py <=? level)%nat then None
      else
        items ← mapM (json_encode py (S level)) l;
        Some (encode_container (chr "[") (chr "]") level items)
  | ODict d =>
      if (dump_depth py <=? level)%nat then None
      else
        items ← mapM (fun kv =>
                        k ← key_string py (fst kv);
                        t ← json_encode py (S level) (snd kv);
                        Some (encode_basestring k ++ codes ": " ++ t)) d;
        Some (encode_container (chr "{") (chr "}") level items)
  | OOther _ => None
  end.

Definition json_dumps (py : Interpreter) (data : PyObj) : option (list Z) :=
  json_encode py 0 data.

(** [export_json] (lines 52-62): [None] when the data is no dict or list,
    when the encoder raises, and when the text cannot be encoded. *)
Definition export_json (py : Interpreter) (data : PyObj) : option (list Z) :=
  match data with
  | ODict _ | OList _ =>
      match json_dumps py data with
      | Some json_string => encode_utf8 json_string
      | None => None
      end
  | _ => None
  end.

(** **** Decoding *)

Definition is_ws (c : Z) : bool :=
  ((c =? 32) || (c =? 9) || (c =? 10) || (c =? 13))%Z.

Fixpoint skip_ws (s : list Z) : list Z :=
  match s with
  | c :: s' => if is_ws c then skip_ws s' else s
  | [] => []
  end.

Definition hex_value (c : Z) : option Z :=
  if ((48 <=? c) && (c <=? 57))%Z then Some (c - 48)%Z
  else if ((97 <=? c) && (c <=? 102))%Z then Some (c - 87)%Z
  else if ((65 <=? c) && (c <=? 70))%Z then Some (c - 55)%Z
  else None.

Definition hex4 (a b c d : Z) : option Z :=
  x ← hex_value a; y ← hex_value b; z ← hex_value c; t ← hex_value d;
  Some (((x * 16 + y) * 16 + z) * 16 + t)%Z.

(** The code point of a short escape ([BACKSLASH]). *)
Definition unescape (esc : Z) : option Z :=
  if (esc =? chr dquote)%Z then Some (chr dquote)
  else if (esc =? chr "\")%Z then Some (chr "\")
  else if (esc =? chr "/")%Z then Some (chr "/")
  else if (esc =? chr "b")%Z then Some 8%Z
  else if (esc =? chr "f")%Z then Some 12%Z
  else if (esc =? chr "n")%Z then Some 10%Z
  else if (esc =? chr "r")%Z then Some 13%Z
  else if (esc =? chr "t")%Z then Some 9%Z
  else None.

Definition prepend (c : Z) (r : option (list Z * list Z)) : option (list Z * list Z) :=
  match r with
  | Some (str, rest) => Some (c :: str, rest)
  | None => None
  end.

Definition is_high_surrogate (uni : Z) : bool :=
  ((55296 <=? uni) && (uni <=? 56319))%Z.

Definition is_low_surrogate (uni2 : Z) : bool :=
  ((56320 <=? uni2) && (uni2 <=? 57343))%Z.

Definition join_surrogates (uni uni2 : Z) : Z :=
  (65536 + ((uni - 55296) * 1024 + (uni2 - 56320)))%Z.

(** [scanstring] (strict): the string that ends at the next unescaped
    quote, and the input behind it.  An unescaped control character is an
    error.  An escaped high surrogate that is followed by an escaped low
    surrogate gives the code point of the pair. *)
Fixpoint scanstring (s : list Z) : option (list Z * list Z) :=
  match s with
  | [] => None
  | c :: s' =>
      if (c =? chr dquote)%Z then Some ([], s')
      else if (c =? chr "\")%Z then
        match s' with
        | [] => None
        | esc :: s'' =>
            if (esc =? chr "u")%Z then
              match s'' with
              | h1 :: h2 :: h3 :: h4 :: s3 =>
                  match hex4 h1 h2 h3 h4 with
                  | Some uni =>
                      if is_high_surrogate uni then
                        match s3 with
                        | b :: u :: g1 :: g2 :: g3 :: g4 :: s4 =>
                            if ((b =? chr "\") && (u =? chr "u"))%Z then
                              match hex4 g1 g2 g3 g4 with
                              | Some uni2 =>
                                  if is_low_surrogate uni2
                                  then prepend (join_surrogates uni uni2) (scanstring s4)
                                  else prepend uni (scanstring s3)
                              | None => None
                              end
                            else prepend uni (scanstring s3)
                        | _ => prepend uni (scanstring s3)
                        end
                      else prepend uni (scanstring s3)
                  | None => None
                  end
              | _ => None
              end
            else
              match unescape esc with
              | Some ch => prepend ch (scanstring s'')
              | None => None
              end
        end
      else if (c <? 32)%Z then None
      else prepend c (scanstring s')
  end.

Definition is_digit_code (c : Z) : bool := ((48 <=? c) && (c <=? 57))%Z.

(** The longest run of digits at the head of the input, and the input
    behind it. *)
Fixpoint span_digits (s : list Z) : list Z * list Z :=
  match s with
  | c :: s' =>
      if is_digit_code c then let '(ds, r) := span_digits s' in (c :: ds, r)
      else ([], s)
  | [] => ([], [])
  end.

(** The fraction of a number: a point and at least one digit. *)
Definition span_fraction (s : list Z) : list Z * list Z :=
  match s with
  | p :: s' =>
      if (p =? chr ".")%Z then
        match span_digits s' with
        | ([], _) => ([], s)
        | (ds, r) => (p :: ds, r)
        end
      else ([], s)
  | [] => ([], s)
  end.

(** The exponent of a number: the letter, an optional sign and at least
    one digit. *)
Definition span_exponent (s : list Z) : list Z * list Z :=
  match s with
  | e :: s' =>
      if ((e =? chr "e") || (e =? chr "E"))%Z then
        let '(sign, s'') :=
          match s' with
          | g :: t => if ((g =? chr "+") || (g =? chr "-"))%Z then ([g], t) else ([], s')
          | [] => ([], s')
          end in
        match span_digits s'' with
        | ([], _) => ([], s)
        | (ds, r) => (e :: sign ++ ds, r)
        end
      else ([], s)
  | [] => ([], s)
  end.

(** [NUMBER_RE]: the text of the number at the head of the input (an
    optional minus sign, a zero or a run of digits that starts with a
    non-zero digit, an optional fraction, an optional exponent), the number
    of digits of its integer part, whether it has a fraction or an exponent,
    and the input behind it. *)
Definition number_literal (s : list Z) : option (list Z * nat * bool * list Z) :=
  let '(sign, s1) :=
    match s with
    | c :: s' => if (c =? chr "-")%Z then ([c], s') else ([], s)
    | [] => ([], s)
    end in
  match s1 with
  | [] => None
  | c :: s2 =>
      if is_digit_code c then
        let '(integer, r) :=
          if (c =? chr "0")%Z then ([c], s2) else span_digits s1 in
        let '(frac, r) := span_fraction r in
        let '(exp, r) := span_exponent r in
        Some (sign ++ integer ++ frac ++ exp, length integer,
              negb (bool_decide (frac = [] /\ exp = [])), r)
      else None
  end.

(** [int(text)] on the text of a number without fraction and exponent. *)
Definition int_of_literal (text : list Z) : option Z :=
  Z.of_int <$> NilZero.int_of_string (text_of text).

(** The number at the head of the input: a [float] when its text has a
    fraction or an exponent, else an [int], whose conversion raises beyond
    the digit limit. *)
Definition scan_number (py : Interpreter) (s : list Z) : option (PyObj * list Z) :=
  '(text, digits, is_float, r) ← number_literal s;
  if is_float : bool then Some (OFloat (float_of_literal py text), r)
  else if within_digit_limit py digits then
    z ← int_of_literal text; Some (OInt z, r)
  else None.

Fixpoint expect (word s : list Z) : option (list Z) :=
  match word with
  | [] => Some s
  | w :: word' =>
      match s with
      | c :: s' => if (c =? w)%Z then expect word' s' else None
      | [] => None
      end
  end.

(** The input behind the code point [c], when the input starts with it. *)
Definition starts_with (c : Z) (s : list Z) : option (list Z) :=
  match s with
  | x :: r => if (x =? c)%Z then Some r else None
  | [] => None
  end.

(** The three constants the decoder reads besides the numbers. *)
Definition scan_constant (s : list Z) : option (PyObj * list Z) :=
  match expect (codes "NaN") s with
  | Some r => Some (OFloat S754_nan, r)
  | None =>
      match expect (codes "Infinity") s with
      | Some r => Some (OFloat (S754_infinity false), r)
      | None =>
          match expect (codes "-Infinity") s with
          | Some r => Some (OFloat (S754_infinity true), r)
          | None => None
          end
      end
  end.

(** [dict(pairs)]: a repeated key keeps its first position and takes the
    last value. *)
Definition dict_of_pairs (pairs : list (ObjKey * PyObj)) : list (ObjKey * PyObj) :=
  foldl (fun d kv => od_set d (fst kv) (snd kv)) [] pairs.

(** [JSONArray]: the values of a non-empty array, up to the closing
    bracket; [scan] reads one value and [n] bounds the number of values
    (the loop of the source has no bound; the length of the input is
    enough). *)
Fixpoint JSONArray (scan : list Z -> option (PyObj * list Z))
    (n : nat) (s : list Z) {struct n} : option (list PyObj * list Z) :=
  match n with
  | O => None
  | S n =>
      '(value, s) ← scan s;
      match skip_ws s with
      | c :: r =>
          if (c =? chr "]")%Z then Some ([value], r)
          else if (c =? chr ",")%Z then
            '(values, r) ← JSONArray scan n (skip_ws r);
            Some (value :: values, r)
          else None
      | [] => None
      end
  end.

(** [JSONObject]: the pairs of a non-empty object, up to the closing
    brace. *)
Fixpoint JSONObject (scan : list Z -> option (PyObj * list Z))
    (n : nat) (s : list Z) {struct n}
  : option (list (ObjKey * PyObj) * list Z) :=
  match n with
  | O => None
  | S n =>
      s ← expect [chr dquote] s;
      '(key, s) ← scanstring s;
      s ← expect [chr ":"] (skip_ws s);
      '(value, s) ← scan (skip_ws s);
      match skip_ws s with
      | c :: r =>
          if (c =? chr "}")%Z then Some ([(KeyStr key, value)], r)
          else if (c =? chr ",")%Z then
            '(pairs, r) ← JSONObject scan n (skip_ws r);
            Some ((KeyStr key, value) :: pairs, r)
          else None
      | [] => None
      end
  end.

(** [scan_once].  [depth] is the number of nested containers the decoder
    may still enter: at [0], a list or a dict raises a
    [RecursionError]. *)
Fixpoint scan_once (py : Interpreter) (depth : nat) (s : list Z) {struct depth}
  : option (PyObj * list Z) :=
  match s with
  | [] => None
  | c :: s' =>
      if (c =? chr dquote)%Z then
        '(str, r) ← scanstring s'; Some (OStr str, r)
      else if (c =? chr "{")%Z then
        match depth with
        | O => None
        | S depth =>
            match starts_with (chr "}") (skip_ws s') with
            | Some r => Some (ODict [], r)
            | None =>
                '(pairs, r) ← JSONObject (scan_once py depth) (length s') (skip_ws s');
                Some (ODict (dict_of_pairs pairs), r)
            end
        end
      else if (c =? chr "[")%Z then
        match depth with
        | O => None
        | S depth =>
            match starts_with (chr "]") (skip_ws s') with
            | Some r => Some (OList [], r)
            | None =>
                '(values, r) ← JSONArray (scan_once py depth) (length s') (skip_ws s');
                Some (OList values, r)
            end
        end
      else if (c =? chr "n")%Z then
        r ← expect (codes "ull") s'; Some (ONone, r)
      else if (c =? chr "t")%Z then
        r ← expect (codes "rue") s'; Some (OBool true, r)
      else if (c =? chr "f")%Z then
        r ← expect (codes "alse") s'; Some (OBool false, r)
      else
        match scan_number py s with
        | Some r => Some r
        | None => scan_constant s
        end
  end.

(** [json.loads] of a text: one value between optional white space. *)
Definition json_loads (py : Interpreter) (s : list Z) : option PyObj :=
  '(obj, r) ← scan_once py (load_depth py) (skip_ws s);
  match skip_ws r with
  | [] => Some obj
  | _ => None
  end.

(** [json.loads] of the bytes of an export, read as UTF-8. *)
Definition json_loads_bytes (py : Interpreter) (b : list Z) : option PyObj :=
  s ← decode_utf8 b; json_loads py s.

(** *** The data that round-trips *)

(** The conversions of the interpreter agree on the float [x]: the text
    [float.__repr__] writes for it is a number with a fraction or an
    exponent, and [float] reads that text as [x].  Python promises both for
    every finite float.  NaN is excluded: it is not equal to itself. *)
Definition float_reads_back (py : Interpreter) (x : spec_float) : Prop :=
  match x with
  | S754_nan => False
  | S754_infinity _ => True
  | _ =>
      (exists digits,
          number_literal (float_repr py x) = Some (float_repr py x, digits, true, []))
      /\ float_of_literal py (float_repr py x) = x
  end.

(** Every code point of the text is a Unicode scalar value. *)
Definition well_formed_text (s : list Z) : Prop :=
  Forall (fun c => is_scalar_value c = true) s.

(** The values at nesting [level] that the JSON export gives back: [None],
    booleans, integers within the digit limit, floats other than NaN,
    strings without surrogates, lists and dicts whose keys are such
    strings (distinct, as the keys of a dict are), nested within what the
    encoder and the decoder allow. *)
Inductive round_trips (py : Interpreter) : nat -> PyObj -> Prop :=
| round_trips_none level : round_trips py level ONone
| round_trips_bool level (b : bool) : round_trips py level (OBool b)
| round_trips_int level (z : Z) :
    within_digit_limit py (decimal_digits z) = true ->
    round_trips py level (OInt z)
| round_trips_float level (x : spec_float) :
    float_reads_back py x -> round_trips py level (OFloat x)
| round_trips_str level (s : list Z) :
    well_formed_text s -> round_trips py level (OStr s)
| round_trips_list level (l : list PyObj) :
    (level < dump_depth py)%nat -> (level < load_depth py)%nat ->
    Forall (round_trips py (S level)) l ->
    round_trips py level (OList l)
| round_trips_dict level (d : list (ObjKey * PyObj)) :
    (level < dump_depth py)%nat -> (level < load_depth py)%nat ->
    NoDup (fst <$> d) ->
    Forall (fun kv => (exists s, fst kv = KeyStr s /\ well_formed_text s)
                      /\ round_trips py (S level) (snd kv)) d ->
    round_trips py level (ODict d).

(** A dict or a list: what [export_json] accepts. *)
Definition is_container (v : PyObj) : Prop :=
  match v with
  | ODict _ | OList _ => True
  | _ => False
  end.

(** **** Notions for the proof of the round trip *)

(** What follows the text of a value inside an indented document: nothing,
    a comma or a newline. *)
Definition value_end (rest : list Z) : Prop :=
  match rest with
  | [] => True
  | c :: _ => c = chr "," \/ c = 10%Z
  end.

(** The text of a value starts with a code point that is no white space and
    closes no container. *)
Definition starts_value (t : list Z) : Prop :=
  match t with
  | [] => False
  | c :: _ => is_ws c = false /\ c <> chr "]" /\ c <> chr "}"
  end.

(** [t] is a text of [v] that [scan] reads back, whatever follows the
    value in a document. *)
Definition item_ok (scan : list Z -> option (PyObj * list Z)) (v : PyObj)
    (t : list Z) : Prop :=
  starts_value t
  /\ forall rest, value_end rest -> scan (t ++ rest) = Some (v, rest).

(** [item] is the text of the pair [kv] of a dict: the key between quotes,
    a colon and a text of the value that [scan] reads back. *)
Definition pair_ok (scan : list Z -> option (PyObj * list Z))
    (kv : ObjKey * PyObj) (item : list Z) : Prop :=
  exists s t,
    fst kv = KeyStr s
    /\ item = encode_basestring s ++ codes ": " ++ t
    /\ item_ok scan (snd kv) t.

(** [t] is a text of [v] at nesting [level]: it starts like a value, holds
    no surrogate, and the decoder that has entered [level] containers reads
    [v] back from it. *)
Definition reads_back (py : Interpreter) (level : nat) (v : PyObj) (t : list Z) : Prop :=
  starts_value t
  /\ well_formed_text t
  /\ forall depth rest,
       (level + depth = load_depth py)%nat -> value_end rest ->
       scan_once py depth (t ++ rest) = Some (v, rest).

(** The text of a pair of a dict at nesting [level]. *)
Definition pair_reads_back (py : Interpreter) (level : nat) (kv : ObjKey * PyObj)
    (item : list Z) : Prop :=
  exists s t, fst kv = KeyStr s /\ well_formed_text s
              /\ item = encode_basestring s ++ codes ": " ++ t
              /\ reads_back py level (snd kv) t.

(** A code point of the text of a number. *)
Definition is_number_code (c : Z) : bool := ((43 <=? c) && (c <=? 101))%Z.


(** ** app.py: the file list and the layout of the results *)

(** [str.lower] on one character (code points below 256): the capital
    letters A to Z, and the capital Latin-1 letters except the
    multiplication sign. *)
Definition lower_char (c : ascii) : ascii :=
  let n := nat_of_ascii c in
  if ((65 <=? n) && (n <=? 90) || (192 <=? n) && (n <=? 222) && negb (n =? 215))%nat
  then ascii_of_nat (n + 32)
  else c.

Definition py_lower (s : string) : string :=
  of_list (lower_char <$> to_list s).

(** [s.endswith(suffix)]. *)
Definition endswith (suffix s : string) : bool :=
  let ls := to_list s in
  let lsuf := to_list suffix in
  bool_decide (drop (length ls - length lsuf) ls = lsuf).

(** [get_pdf_files] (lines 59-66).  [listing] is what [os.listdir] gives
    for the directory, or [None] when the directory does not exist;
    [sorted] orders strings by their code points. *)
Definition get_pdf_files (listing : option (list string)) : list string :=
  let pdf_files :=
    match listing with
    | Some filenames =>
        List.filter (fun filename => endswith ".pdf" (py_lower filename)) filenames
    | None => []
    end in
  merge_sort String.le pdf_files.

(** How the results are laid out (lines 237-300): nothing without results,
    one panel for one entry, two columns for two entries; no other number
    of entries has a branch. *)
Inductive Layout : Type :=
| OnePanel (parser_name : string)
| TwoColumns (left_name right_name : string)
| NoPanel.

Definition results_layout (results_data : list (string * gmap string PyVal)) : Layout :=
  let parser_names := fst <$> results_data in
  match parser_names with
  | [parser_name] => OnePanel parser_name
  | [left_name; right_name] => TwoColumns left_name right_name
  | _ => NoPanel
  end.

(** ** src/utils.py: the paragraphs of the DOCX export *)

(** [content.split('\n')] on a string of code points. *)
Fixpoint split_codes (c : Z) (l : list Z) (cur : list Z) : list (list Z) :=
  match l with
  | [] => [rev cur]
  | x :: l' =>
      if (x =? c)%Z then rev cur :: split_codes c l' []
      else split_codes c l' (x :: cur)
  end.

(** [export_docx] (lines 64-87).  The work of python-docx inside the [try]
    (a new document, one [add_paragraph] per piece of [content.split('\n')],
    [save] into a buffer) is the function [docx_bytes] from the paragraphs
    to the bytes saved; it gives [None] when one of these calls raises, as
    [add_paragraph] does for a text that XML cannot hold (a control
    character, say).  The handler of lines 85-87 turns this into [None]. *)
Definition export_docx (docx_available : bool)
    (docx_bytes : list (list Z) -> option (list Z)) (content : PyObj)
  : option (list Z) :=
  if docx_available then
    match content with
    | OStr s => docx_bytes (split_codes 10 s [])
    | _ => None
    end
  else None.

(** ** Notions for the further properties *)

(** [sep.join(pieces)] on strings of code points. *)
Fixpoint join_codes (sep : Z) (pieces : list (list Z)) : list Z :=
  match pieces with
  | [] => []
  | [piece] => piece
  | piece :: rest => piece ++ sep :: join_codes sep rest
  end.

(** Every dollar sign of the text stands behind a backslash ([prev] is the
    character before the text). *)
Fixpoint dollars_escaped (prev : option ascii) (s : list ascii) : Prop :=
  match s with
  | [] => True
  | c :: s' =>
      (c = "$"%char -> prev = Some "\"%char) /\ dollars_escaped (Some c) s'
  end.



(** The pages of [doc] with the 0-based numbers [start] up to [stop]
    (exclusive). *)
Definition doc_pages_between (doc : PdfDoc) (start stop : Z) : list PdfPage :=
  take (Z.to_nat (stop - start)) (drop (Z.to_nat start) (pages doc)).

(** [page] loads from [doc] under the number [n] and renders at [dpi]. *)
Definition renders (doc : PdfDoc) (dpi : Z) (n : Z) (page : PdfPage) : Prop :=
  load_page doc n = inr page /\ get_pixmap page dpi = None.

(** What the layout back end extracts from one page: the text and the
    tables, or the first exception. *)
Definition extracted (page : PdfPage) : Exception + (option string * list PyVal) :=
  match extract_text page with
  | inl e => inl e
  | inr text =>
      match extract_tables page with
      | inl e => inl e
      | inr tables => inr (text, tables)
      end
  end.

(** An extracted text as the layout back end keeps it: [None] and the
    empty string are dropped. *)
Definition kept_text (text : option string) : option string :=
  match text with
  | Some text => if String.eqb text "" then None else Some text
  | None => None
  end.

(** The table records of one page with the 1-based number [page_num_actual]. *)
Definition page_table_records (page_num_actual : Z) (tables : list PyVal) : list PyVal :=
  imap (table_record page_num_actual) tables.

(** The markup file [parse_nougat] expects from the external tool (lines
    212-213). *)
Definition nougat_mmd_path (w : World) (pdf_path : string) : string :=
  nougat_output_dir w +:+ "/" +:+ fst (splitext (basename pdf_path)) +:+ ".mmd".

(** ** Notions for the parsing loop *)

(** The loop stores a fallback entry: the Nougat call returns a result with
    a set error and the OCR call on the fallback arguments returns. *)
Definition fallback_made
    (call : Parser -> gmap string PyVal -> Exception + gmap string PyVal)
    (st : Settings) : bool :=
  match call Nougat (parser_params st "Nougat"), call Ocr (ocr_params st) with
  | inr nougat_result, inr _ => get_truthy nougat_result "error"
  | _, _ => false
  end.

(** The selected names, with the fallback key behind [Nougat] when
    [fallback] holds. *)
Definition keys_with_fallback (fallback : bool) (selected_parser_names : list string)
  : list string :=
  selected_parser_names ≫=
    (fun parser_name =>
       if fallback && String.eqb parser_name "Nougat"
       then [parser_name; "OCR Fallback"]
       else [parser_name]).

(** What one turn of the loop stores under the name of its back end (lines
    206-221): the result of the call, or the failure entry when the call,
    or the fallback call behind a failed Nougat result, raises. *)
Definition loop_entry
    (call : Parser -> gmap string PyVal -> Exception + gmap string PyVal)
    (st : Settings) (parser_name : string) (parser_func : Parser) : gmap string PyVal :=
  match call parser_func (parser_params st parser_name) with
  | inl e => failed_to_execute parser_name e
  | inr result =>
      if String.eqb parser_name "Nougat" && get_truthy result "error" then
        match call Ocr (ocr_params st) with
        | inl e => failed_to_execute parser_name e
        | inr _ => result
        end
      else result
  end.

(** ** Observations on results *)

(** The content fields of an extraction result. *)
Definition content_fields : list string :=
  ["text"; "markdown"; "structured_text"; "tables"; "metadata"].

(** The [error] field is set: [data.get('error')] is true, as every
    consumer in [app.py] tests it. *)
Definition error_set (r : gmap string PyVal) : bool := get_truthy r "error".

(** No content field is populated: each is absent or empty, which is how
    [app.py] decides whether to show or export a field. *)
Definition no_content (r : gmap string PyVal) : bool :=
  forallb (fun k => negb (get_truthy r k)) content_fields.

(** The 1-based numbers of the pages a back end selects from [doc] when it
    is given [page_range]: what the normalisation of the three in-process
    back ends leaves.  Nougat and GROBID select no pages themselves ([None]):
    they hand the file to an external tool and to a service. *)
Definition pages_processed (f : Parser) (doc : PdfDoc) (page_range : option (Z * Z))
  : option (list Z) :=
  match f with
  | PyMuPDF => Some (Z.succ <$> pymupdf_pages_to_process (page_count doc) page_range)
  | Pdfplumber =>
      match pdfplumber_pages_to_process (plumber_pages doc) page_range with
      | inr pages_to_process => Some (fst <$> pages_to_process)
      | inl _ => Some []
      end
  | Ocr =>
      match ocr_pages_to_process (page_count doc) page_range with
      | inr pages_to_process => Some (Z.succ <$> pages_to_process)
      | inl _ => Some []
      end
  | Nougat | Grobid => None
  end.

(** ** Notions for the scan of fenced blocks, file names and the registry *)

(** The number of fence lines among [lines]. *)
Definition count_fences (lines : list string) : nat :=
  length (List.filter is_fence lines).

(** The blocks collected from the lines of a markup, from the initial state
    of the scan. *)
Definition latex_blocks_of (lines : list string) : list string :=
  scan_latex lines false [] [].

(** None of [lines] is a fence line. *)
Definition no_fence (lines : list string) : Prop :=
  Forall (fun line => is_fence line = false) lines.

(** A character a safe file name may hold: no space and none of the
    characters of the invalid class. *)
Definition filename_char_ok (c : ascii) : Prop :=
  c <> " "%char /\ invalid_filename_char c = false.

(** [parser_name] is a key of [PARSER_OPTIONS]. *)
Definition registered (parser_name : string) : Prop :=
  is_Some (od_get PARSER_OPTIONS parser_name).

(** ** A sample world

    A three-page document that every library opens, an OCR engine that
    reads each page, a Nougat run that times out and a GROBID service that
    answers.  It instantiates the statements below on concrete inputs. *)

Definition sample_page (t : string) : PdfPage :=
  {| get_text := inr t;
     extract_text := inr (Some t);
     extract_tables := inr [];
     get_pixmap := fun _ => None;
     image_to_string := fun _ _ => OcrText t |}.

Definition sample_doc : PdfDoc :=
  {| metadata := VDict [(KStr "title", VStr "Sample")];
     pages := [sample_page "one"; sample_page "two"; sample_page "three"];
     load_failure := fun _ => None |}.

Definition sample_world : World :=
  {| fitz_open := fun _ => inr sample_doc;
     pdfplumber_open := fun _ => inr sample_doc;
     open_rb := fun _ => None;
     clock := 1700000000;
     os_makedirs := fun _ => None;
     popen := fun _ _ => TimedOut;
     requests_post := fun _ _ => Response 200 "<TEI/>" |}.

Definition sample_settings : Settings :=
  {| selected_pdf_path := "PDF/sample.pdf";
     page_range := Some (1, 2)%Z;
     ocr_lang := "eng";
     ocr_dpi := 300;
     grobid_url := "http://localhost:8070";
     nougat_timeout := 1800 |}.

(** A markup with one closed block and one fence left open. *)
Definition sample_markup : string :=
  join nl ["Intro"; "$$"; "a = b"; "c = d"; "$$"; "Text"; "$$"; "dangling"].

(** The same world with a Nougat run that succeeds and leaves its output
    file in the temporary directory. *)
Definition nougat_world : World :=
  {| fitz_open := fitz_open sample_world;
     pdfplumber_open := pdfplumber_open sample_world;
     open_rb := open_rb sample_world;
     clock := clock sample_world;
     os_makedirs := os_makedirs sample_world;
     popen := fun _ _ =>
       Exited 0 (fun path =>
         if String.eqb path "temp_nougat_output_1700000000/sample.mmd"
         then Some sample_markup else None);
     requests_post := requests_post sample_world |}.

Definition nougat_sample_result : gmap string PyVal :=
  match parse_nougat nougat_world "PDF/sample.pdf" None 1800 with
  | inr result => result
  | inl _ => ∅
  end.

(** A stand-in for the text splitter: like LangChain's, it returns no
    chunk for the empty text; any other text is kept as one chunk. *)
Definition sample_splitter (chunk_size chunk_overlap : Z) (text : string)
  : Exception + list string :=
  inr (if String.eqb text "" then [] else [text]).

(** A world in which the temporary directory of Nougat cannot be made, so
    that calling [parse_nougat] raises. *)
Definition readonly_world : World :=
  {| fitz_open := fitz_open sample_world;
     pdfplumber_open := pdfplumber_open sample_world;
     open_rb := open_rb sample_world;
     clock := clock sample_world;
     os_makedirs := fun _ => Some "[Errno 13] Permission denied";
     popen := popen sample_world;
     requests_post := requests_post sample_world |}.

(** The result of the timed-out Nougat run of the sample world, and of the
    OCR run that stands in for it. *)
Definition sample_nougat_failure : gmap string PyVal :=
  {[ "markdown" := VStr ""; "latex" := VStr "";
     "error" := VStr "Nougat Error: Processing timed out after 10 minutes" ]}.

Definition sample_fallback : gmap string PyVal :=
  match parse_ocr sample_world "PDF/sample.pdf" "eng" (Some (1, 2)%Z) 300 with
  | inr result => result
  | inl _ => ∅
  end.

(** The float 1.5. *)
Definition one_and_a_half : spec_float := S754_finite false 6755399441055744 (-52).

Definition is_one_and_a_half (x : spec_float) : bool :=
  match x with
  | S754_finite false 6755399441055744 (-52) => true
  | _ => false
  end.

(** An interpreter with the limits of CPython 3.11 (4300 digits for the
    conversion between integers and strings, nesting as far as the default
    recursion limit allows), whose conversions between floats and text are
    those of CPython on the float 1.5 and on the zeros. *)
Definition sample_python : Interpreter :=
  {| float_repr := fun x =>
       if is_one_and_a_half x then codes "1.5"
       else match x with
            | S754_zero true => codes "-0.0"
            | _ => codes "0.0"
            end;
     float_of_literal := fun text =>
       if bool_decide (text = codes "1.5") then one_and_a_half
       else if bool_decide (text = codes "-0.0") then S754_zero true
       else S754_zero false;
     int_max_str_digits := 4300;
     dump_depth := 300;
     load_depth := 300 |}.

(** The tables of a layout extraction, as [export_json] receives them: a
    list of table records.  The cells hold strings (here with a quote, a
    newline, e acute, a Chinese character and an emoji) or [None]; a float
    stands for the numbers a caller may put into such data. *)
Definition sample_tables : PyObj :=
  OList [ODict [(KeyStr (codes "page"), OInt 1);
                (KeyStr (codes "table_index"), OInt 0);
                (KeyStr (codes "data"),
                 OList [OList [OStr (codes "name"); OStr (codes "value")];
                        OList [OStr [233; 34; 10; 20013; 128512]%Z; ONone];
                        OList [OFloat one_and_a_half; OBool true]])];
         ODict [(KeyStr (codes "page"), OInt 2);
                (KeyStr (codes "table_index"), OInt 0);
                (KeyStr (codes "data"), OList [])]].



(** ** Further sample worlds *)

(** A scanned two-page document: the first page has no text layer but a
    table, the OCR of the second page fails. *)
Definition scanned_doc : PdfDoc :=
  {| metadata := VDict [];
     pages :=
       [ {| get_text := inr "";
            extract_text := inr None;
            extract_tables := inr [VList [VList [VStr "a"; VNone]]; VList []];
            get_pixmap := fun _ => None;
            image_to_string := fun _ _ => OcrText "first" |};
         {| get_text := inr "second";
            extract_text := inr (Some "second");
            extract_tables := inr [];
            get_pixmap := fun _ => None;
            image_to_string := fun _ _ => OcrFailure "bad image" |} ];
     load_failure := fun _ => None |}.

Definition scanned_world : World :=
  {| fitz_open := fun _ => inr scanned_doc;
     pdfplumber_open := fun _ => inr scanned_doc;
     open_rb := open_rb sample_world;
     clock := clock sample_world;
     os_makedirs := os_makedirs sample_world;
     popen := popen sample_world;
     requests_post := fun _ _ => Response 503 "Service Unavailable" |}.

(** A document whose second page cannot be read because Tesseract is not
    installed. *)
Definition no_tesseract_doc : PdfDoc :=
  {| metadata := VDict [];
     pages :=
       [ sample_page "one";
         {| get_text := inr "two";
            extract_text := inr (Some "two");
            extract_tables := inr [];
            get_pixmap := fun _ => None;
            image_to_string := fun _ _ => TesseractNotFound |} ];
     load_failure := fun _ => None |}.

Definition no_tesseract_world : World :=
  {| fitz_open := fun _ => inr no_tesseract_doc;
     pdfplumber_open := fun _ => inr no_tesseract_doc;
     open_rb := open_rb sample_world;
     clock := clock sample_world;
     os_makedirs := os_makedirs sample_world;
     popen := popen sample_world;
     requests_post := requests_post sample_world |}.

(** A locked file: PyMuPDF opens it and counts its pages, but no page
    loads; the Nougat run on it times out. *)
Definition locked_doc : PdfDoc :=
  {| metadata := VDict [];
     pages := [sample_page "one"; sample_page "two"];
     load_failure := fun _ => Some "document closed or encrypted" |}.

Definition locked_world : World :=
  {| fitz_open := fun _ => inr locked_doc;
     pdfplumber_open := fun _ => inr locked_doc;
     open_rb := open_rb sample_world;
     clock := clock sample_world;
     os_makedirs := os_makedirs sample_world;
     popen := popen sample_world;
     requests_post := requests_post sample_world |}.

(** * Properties *)

(** ** Strings and lists *)

Lemma to_list_of_list (l : list ascii) : to_list (of_list l) = l.
Proof. apply list_ascii_of_string_of_list_ascii. Qed.

Lemma of_list_to_list (s : string) : of_list (to_list s) = s.
Proof. apply string_of_list_ascii_of_string. Qed.

Lemma to_list_app (a b : string) : to_list (a +:+ b) = to_list a ++ to_list b.
Proof. induction a as [|c a IH]; simpl; [done | by rewrite IH]. Qed.

(** ** Results: the error field and the content fields *)

Lemma error_set_insert (r : gmap string PyVal) (v : PyVal) :
  error_set (<["error" := v]> r) = py_truthy v.
Proof. unfold error_set, get_truthy, dict_get. by rewrite lookup_insert_eq. Qed.

Lemma get_truthy_insert_ne (r : gmap string PyVal) (k k' : string) (v : PyVal) :
  k ≠ k' -> get_truthy (<[k := v]> r) k' = get_truthy r k'.
Proof. intros Hne. unfold get_truthy, dict_get. by rewrite lookup_insert_ne. Qed.

Lemma no_content_insert_error (r : gmap string PyVal) (v : PyVal) :
  no_content (<["error" := v]> r) = no_content r.
Proof.
  unfold no_content, content_fields. simpl.
  by rewrite !get_truthy_insert_ne.
Qed.

Lemma invalid_page_range_truthy (p : Z * Z) :
  py_truthy (VStr (invalid_page_range p)) = true.
Proof. reflexivity. Qed.

Lemma pdfplumber_error_truthy (e : Exception) :
  py_truthy (VStr (pdfplumber_error e)) = true.
Proof. unfold pdfplumber_error. by destruct (_ && _). Qed.

(** The range test of the layout and OCR back ends fires on every reversed
    range and on every range that ends before the first page. *)
Lemma clamped_range_empty (n s e : Z) :
  (0 <= n)%Z -> (s > e \/ e < 1)%Z ->
  (Z.min n e <=? Z.max 0 (s - 1))%Z = true.
Proof. intros Hn Hse. apply Z.leb_le. lia. Qed.

Lemma page_count_nonneg (doc : PdfDoc) : (0 <= page_count doc)%Z.
Proof. unfold page_count. lia. Qed.

Lemma parse_pdfplumber_rejects (w : World) (pdf_path : string) (s e : Z) :
  (s > e \/ e < 1)%Z ->
  error_set (parse_pdfplumber w pdf_path (Some (s, e))) = true
  /\ no_content (parse_pdfplumber w pdf_path (Some (s, e))) = true.
Proof.
  intros Hse. unfold parse_pdfplumber.
  destruct (pdfplumber_open w pdf_path) as [ex|pdf].
  - rewrite error_set_insert, no_content_insert_error.
    split; [apply pdfplumber_error_truthy | reflexivity].
  - unfold pdfplumber_pages_to_process.
    rewrite clamped_range_empty by (auto; lia).
    rewrite error_set_insert, no_content_insert_error.
    split; [apply invalid_page_range_truthy | reflexivity].
Qed.

Lemma parse_ocr_rejects (w : World) (pdf_path lang : string) (dpi s e : Z) :
  (s > e \/ e < 1)%Z ->
  exists result,
    parse_ocr w pdf_path lang (Some (s, e)) dpi = inr result
    /\ error_set result = true
    /\ no_content result = true.
Proof.
  intros Hse. unfold parse_ocr.
  destruct (fitz_open w pdf_path) as [ex|doc].
  - eexists. split; [reflexivity |].
    rewrite error_set_insert, no_content_insert_error. by split.
  - unfold ocr_pages_to_process.
    rewrite clamped_range_empty by (auto using page_count_nonneg).
    eexists. split; [reflexivity |].
    rewrite error_set_insert, no_content_insert_error.
    split; [apply invalid_page_range_truthy | reflexivity].
Qed.

(** C1 (as amended).  For the layout (pdfplumber) and OCR back ends, a page
    range [(s, e)] with [s > e] or [e < 1] yields a result whose [error] is
    set and none of whose content fields (text, markdown, structured_text,
    tables, metadata) is populated, whatever the document is and whether or
    not it can be opened; the OCR back end returns this result (it does
    not raise). *)
Theorem C1_degenerate_range_rejected
    (w : World) (pdf_path lang : string) (dpi s e : Z) :
  (s > e \/ e < 1)%Z ->
  (error_set (parse_pdfplumber w pdf_path (Some (s, e))) = true
   /\ no_content (parse_pdfplumber w pdf_path (Some (s, e))) = true)
  /\ (exists result,
        parse_ocr w pdf_path lang (Some (s, e)) dpi = inr result
        /\ error_set result = true
        /\ no_content result = true).
Proof.
  intros Hse. split.
  - by apply parse_pdfplumber_rejects.
  - by apply parse_ocr_rejects.
Qed.

Lemma C1_degenerate_range_rejected_witness :
  (3 > 2 \/ 2 < 1)%Z
  /\ (error_set (parse_pdfplumber sample_world "PDF/sample.pdf" (Some (3, 2)%Z)) = true
      /\ no_content (parse_pdfplumber sample_world "PDF/sample.pdf" (Some (3, 2)%Z)) = true)
  /\ (exists result,
        parse_ocr sample_world "PDF/sample.pdf" "eng" (Some (3, 2)%Z) 300 = inr result
        /\ error_set result = true
        /\ no_content result = true).
Proof.
  split; [left; lia |].
  apply (C1_degenerate_range_rejected sample_world "PDF/sample.pdf" "eng" 300 3 2).
  left; lia.
Defined.

(** C1 as stated fails: the range (0, 1) has [s < 1], yet the layout back
    end clamps its start to the first page, reports no error and returns
    the text of page 1. *)
Lemma C1_start_below_one_is_clamped :
  (0 < 1)%Z
  /\ error_set (parse_pdfplumber sample_world "PDF/sample.pdf" (Some (0, 1)%Z)) = false
  /\ parse_pdfplumber sample_world "PDF/sample.pdf" (Some (0, 1)%Z) !! "text"
     = Some (VStr "one").
Proof. split; [lia | split; vm_compute; reflexivity]. Qed.

(** The plain-text back end has no range test: on a reversed range it loads
    no page and reports no error, where its two siblings report one. *)
Example parse_pymupdf_reversed_range :
  error_set (parse_pymupdf sample_world "PDF/sample.pdf" (Some (3, 2)%Z)) = false
  /\ parse_pymupdf sample_world "PDF/sample.pdf" (Some (3, 2)%Z) !! "text"
     = Some (VStr "").
Proof. split; vm_compute; reflexivity. Qed.

(** ** Page ranges *)

Lemma slice_seqZ (m n a b : Z) :
  (0 <= a <= b)%Z -> (b <= n)%Z ->
  take (Z.to_nat (b - a)) (drop (Z.to_nat a) (seqZ m n)) = seqZ (m + a) (b - a).
Proof.
  intros Hab Hbn.
  replace n with (a + ((b - a) + (n - b)))%Z by lia.
  rewrite seqZ_app by lia.
  rewrite drop_app_length' by (rewrite length_seqZ; lia).
  rewrite seqZ_app by lia.
  rewrite take_app_length' by (rewrite length_seqZ; lia).
  reflexivity.
Qed.

Lemma length_plumber_pages (doc : PdfDoc) :
  Z.of_nat (length (plumber_pages doc)) = page_count doc.
Proof.
  unfold plumber_pages, page_count.
  rewrite length_zip, length_seqZ. lia.
Qed.

Lemma fst_plumber_pages (doc : PdfDoc) :
  (plumber_pages doc).*1 = seqZ 1 (page_count doc).
Proof.
  unfold plumber_pages, page_count. apply fst_zip.
  rewrite length_seqZ. lia.
Qed.

Lemma fmap_succ_seqZ (m n : Z) : Z.succ <$> seqZ m n = seqZ (m + 1) n.
Proof.
  transitivity (Z.add 1 <$> seqZ m n).
  - apply list_fmap_ext. intros _ x _. lia.
  - rewrite fmap_add_seqZ. f_equal. lia.
Qed.




(** The document-to-markup back end uses the range for the page count of
    its progress messages only: the command line it runs is the same for
    every range. *)
Lemma nougat_range_only_counted (n s e : Z) (pdf_path output_dir : string) :
  (1 <= s <= e)%Z -> (e <= n)%Z ->
  nougat_total_pages n (Some (s, e)) = (e - s + 1)%Z
  /\ nougat_command pdf_path output_dir
     = ["nougat"; pdf_path; "-o"; output_dir; "--no-skipping"].
Proof. intros Hse Hen. split; [unfold nougat_total_pages; lia | reflexivity]. Qed.

(** The structure extractor is called without the page range: the loop
    removes the key, and the call binds to [parse_grobid] on the path and
    the service URL alone. *)
Lemma grobid_called_without_range (w : World) (st : Settings) :
  parser_params st "GROBID" !! "page_range" = None
  /\ invoke w Grobid (parser_params st "GROBID")
     = inr (parse_grobid w (selected_pdf_path st) (grobid_url st)).
Proof.
  unfold parser_params, common_params.
  change (String.eqb "GROBID" "OCR (Tesseract)") with false.
  change (String.eqb "GROBID" "GROBID") with true.
  cbv iota. split; [by simplify_map_eq |].
  unfold invoke, arg_str. simplify_map_eq.
  assert (Hacc : accepts ["pdf_path"; "grobid_url"]
            (delete "page_range"
               (<["grobid_url" := VStr (grobid_url st)]>
                  {[ "pdf_path" := VStr (selected_pdf_path st);
                     "page_range" := page_range_value (page_range st) ]})) = true).
  { unfold accepts. apply bool_decide_eq_true.
    rewrite dom_delete_L, !dom_insert_L, dom_singleton_L. set_solver. }
  by rewrite Hacc.
Qed.




(** ** Metrics *)

(** Neither equation pattern matches the empty string: each begins with a
    mandatory dollar sign, so [findall_go] never meets an empty match. *)
Lemma equation_patterns_consume (prev : option ascii) :
  match_items inline_eq_pattern prev [] = None
  /\ match_items display_eq_pattern prev [] = None.
Proof. split; simpl; by destruct (preceded_by prev _). Qed.

(** C3 (as amended).  [calculate_metrics] counts one equation in the inline
    input; for the display input it counts three: the display pattern
    matches the span once, and the inline pattern matches each of its two
    double-dollar delimiters as an empty inline span. *)
Theorem C3_equation_counts :
  calculate_metrics (VStr "$E=mc^2$") !! "estimated_equation_count" = Some (VInt 1)
  /\ calculate_metrics (VStr "$$x$$") !! "estimated_equation_count" = Some (VInt 3)
  /\ findall_count display_eq_pattern "$$x$$" = 1%nat
  /\ findall_count inline_eq_pattern "$$x$$" = 2%nat
  /\ findall_count display_eq_pattern "$E=mc^2$" = 0%nat.
Proof. repeat split; vm_compute; reflexivity. Qed.

(** C3 as stated fails on its second input: the count is not 1. *)
Lemma C3_display_span_counted_three_times :
  calculate_metrics (VStr "$$x$$") !! "estimated_equation_count" <> Some (VInt 1).
Proof. vm_compute. discriminate. Qed.

(** ** The primary text *)

(** C6 (as amended).  The metrics and the chunking preview take the first
    present field in the order markdown, text, structured_text (the empty
    string when none is present).  The difference view and the DOCX export
    take markdown, else text, else the empty string: they never use
    structured_text, and agree with the precedence whenever the result has
    a markdown or a text field. *)
Theorem C6_primary_text_selection (data : gmap string PyVal) :
  metrics_primary_text data = default (VStr "") (primary_by_precedence data)
  /\ chunking_source_text data = default (VStr "") (primary_by_precedence data)
  /\ diff_view_text data
     = default (VStr "") (primary_by_precedence (delete "structured_text" data))
  /\ primary_text_for_docx data
     = default (VStr "") (primary_by_precedence (delete "structured_text" data))
  /\ (is_Some (data !! "markdown") \/ is_Some (data !! "text") ->
      diff_view_text data = default (VStr "") (primary_by_precedence data)
      /\ primary_text_for_docx data = default (VStr "") (primary_by_precedence data)).
Proof.
  unfold metrics_primary_text, chunking_source_text, diff_view_text,
    primary_text_for_docx, primary_by_precedence, dict_get.
  rewrite !lookup_delete_ne by done. rewrite lookup_delete_eq.
  destruct (data !! "markdown") as [m|];
    destruct (data !! "text") as [t|];
    destruct (data !! "structured_text") as [x|]; simpl;
    (split; [done | split; [done | split; [done | split; [done |]]]]);
    try done.
  all: intros [[? [=]]|[? [=]]].
Qed.

Lemma C6_primary_text_selection_witness :
  let data := parse_pymupdf sample_world "PDF/sample.pdf" None in
  (is_Some (data !! "markdown") \/ is_Some (data !! "text"))
  /\ diff_view_text data = default (VStr "") (primary_by_precedence data)
  /\ primary_text_for_docx data = default (VStr "") (primary_by_precedence data).
Proof.
  intros data.
  assert (H : is_Some (data !! "markdown") \/ is_Some (data !! "text")).
  { right. vm_compute. eauto. }
  split; [exact H |].
  exact (proj2 (proj2 (proj2 (proj2 (C6_primary_text_selection data)))) H).
Defined.

(** C6 as stated fails at the difference view and the DOCX export: for the
    result of the structure extractor, whose only text is structured_text,
    both select the empty string where the precedence selects the markup. *)
Lemma C6_structured_text_not_selected :
  let data := parse_grobid sample_world "PDF/sample.pdf" "http://localhost:8070" in
  primary_by_precedence data = Some (VStr "<TEI/>")
  /\ metrics_primary_text data = VStr "<TEI/>"
  /\ diff_view_text data = VStr ""
  /\ primary_text_for_docx data = VStr "".
Proof. repeat split; vm_compute; reflexivity. Qed.

(** ** The scan for LaTeX blocks *)

(** The collected blocks are only ever appended to. *)
Lemma scan_latex_acc (lines : list string) :
  forall in_latex current_block latex_blocks,
    scan_latex lines in_latex current_block latex_blocks
    = latex_blocks ++ scan_latex lines in_latex current_block [].
Proof.
  induction lines as [|line lines IH]; intros b cur acc; simpl.
  - by rewrite app_nil_r.
  - destruct (is_fence line), b; try apply IH.
    rewrite (IH _ _ (acc ++ _)), (IH _ _ [_]). by rewrite app_assoc.
Qed.

(** Outside a block, lines that are no fence are passed over. *)
Lemma scan_latex_skip (ls rest : list string) (cur acc : list string) :
  no_fence ls ->
  scan_latex (ls ++ rest) false cur acc = scan_latex rest false cur acc.
Proof.
  induction 1 as [|line ls Hline _ IH]; simpl; [done |].
  by rewrite Hline.
Qed.

(** Inside a block, lines that are no fence are gathered in order. *)
Lemma scan_latex_gather (ls rest : list string) :
  no_fence ls ->
  forall cur acc,
    scan_latex (ls ++ rest) true cur acc = scan_latex rest true (cur ++ ls) acc.
Proof.
  induction 1 as [|line ls Hline _ IH]; intros cur acc; simpl.
  - by rewrite app_nil_r.
  - rewrite Hline, IH. by rewrite <- app_assoc.
Qed.

(** The state the scan is in after a prefix: whether a block is open is
    the parity of the fences passed, and outside a block the current block
    is empty again. *)
Lemma scan_latex_prefix (front rest : list string) :
  forall in_latex cur acc,
    (in_latex = false -> cur = []) ->
    exists cur',
      scan_latex (front ++ rest) in_latex cur acc
      = scan_latex rest (xorb in_latex (Nat.odd (count_fences front))) cur'
          (scan_latex front in_latex cur acc)
      /\ (xorb in_latex (Nat.odd (count_fences front)) = false -> cur' = []).
Proof.
  unfold count_fences.
  induction front as [|line front IH]; intros b cur acc Hcur; simpl.
  - exists cur. rewrite xorb_false_r. split; [| exact Hcur].
    destruct rest; reflexivity.
  - destruct (is_fence line) eqn:Hline; simpl.
    + rewrite Nat.odd_succ, <- Nat.negb_odd.
      destruct b.
      * destruct (IH false [] (acc ++ [join nl cur]) (fun _ => eq_refl)) as (c & Hc & Hc').
        exists c. simpl in *. by destruct (Nat.odd _).
      * destruct (IH true cur acc) as (c & Hc & Hc'); [done |].
        exists c. simpl in *. by destruct (Nat.odd _).
    + destruct b.
      * destruct (IH true (cur ++ [line]) acc) as (c & Hc & Hc'); [done |].
        by exists c.
      * destruct (IH false cur acc Hcur) as (c & Hc & Hc').
        by exists c.
Qed.

(** Every collected block is the newline-join of lines that are no fence,
    taken from the current block or from the lines scanned. *)
Lemma scan_latex_bodies (lines : list string) :
  forall in_latex cur acc,
    exists bodies : list (list string),
      scan_latex lines in_latex cur acc = acc ++ (join nl <$> bodies)
      /\ Forall (Forall (fun l => l ∈ cur \/ (l ∈ lines /\ is_fence l = false))) bodies.
Proof.
  induction lines as [|line lines IH]; intros b cur acc; simpl.
  - exists []. by rewrite app_nil_r.
  - destruct (is_fence line) eqn:Hline; [destruct b |].
    + destruct (IH false [] (acc ++ [join nl cur])) as (bodies & Hb & Hall).
      exists (cur :: bodies). split.
      * rewrite Hb. by rewrite <- app_assoc.
      * constructor.
        -- apply Forall_forall. intros l Hl. by left.
        -- eapply Forall_impl; [exact Hall |]. intros body Hbody.
           eapply Forall_impl; [exact Hbody |]. intros l [Hl|[Hl Hf]].
           ++ by apply elem_of_nil in Hl.
           ++ right. split; [by right | done].
    + destruct (IH true cur acc) as (bodies & Hb & Hall).
      exists bodies. split; [exact Hb |].
      eapply Forall_impl; [exact Hall |]. intros body Hbody.
      eapply Forall_impl; [exact Hbody |]. intros l [Hl|[Hl Hf]].
      * by left.
      * right. split; [by right | done].
    + destruct (IH b (if b then cur ++ [line] else cur) acc) as (bodies & Hb & Hall).
      exists bodies. split; [by destruct b |].
      eapply Forall_impl; [exact Hall |]. intros body Hbody.
      eapply Forall_impl; [exact Hbody |]. intros l [Hl|[Hl Hf]].
      * destruct b; [| by left].
        apply elem_of_app in Hl as [Hl|Hl]; [by left |].
        apply list_elem_of_singleton in Hl as ->.
        right. split; [by left | done].
      * right. split; [by right | done].
Qed.

(** The number of blocks: one for every two fences. *)
Lemma scan_latex_length (lines : list string) :
  forall in_latex cur acc,
    length (scan_latex lines in_latex cur acc)
    = (length acc + Nat.div2 (count_fences lines + (if in_latex then 1 else 0)))%nat.
Proof.
  unfold count_fences.
  induction lines as [|line lines IH]; intros b cur acc.
  - destruct b; simpl; lia.
  - cbn [scan_latex List.filter]. destruct (is_fence line); cbn [length].
    + destruct b; rewrite IH.
      * rewrite length_app. cbn [length].
        replace (S (length (List.filter is_fence lines)) + 1)%nat
          with (S (S (length (List.filter is_fence lines) + 0))) by lia.
        cbn [Nat.div2]. lia.
      * do 2 f_equal. lia.
    + destruct b; by rewrite IH.
Qed.

Lemma parse_nougat_latex_fields (w : World) (pdf_path : string)
    (page_range : option (Z * Z)) (timeout : Z) (result : gmap string PyVal) :
  parse_nougat w pdf_path page_range timeout = inr result ->
  match result !! "latex_blocks" with
  | Some v =>
      exists markdown,
        result !! "markdown" = Some (VStr markdown)
        /\ v = VList (VStr <$> extract_latex_blocks markdown)
        /\ result !! "latex_equations_count"
           = Some (VInt (Z.of_nat (length (extract_latex_blocks markdown))))
  | None => result !! "latex_equations_count" = None
  end.
Proof.
  unfold parse_nougat. intros Hrun.
  destruct (os_makedirs w _); [discriminate |].
  injection Hrun as <-.
  destruct (fitz_open w pdf_path) as [ex|doc]; [by simplify_map_eq |].
  destruct (popen w _ timeout) as [| |rc files]; [by simplify_map_eq.. |].
  destruct (negb (rc =? 0)%Z); [by simplify_map_eq |].
  destruct (files _) as [markdown|]; [| by simplify_map_eq].
  simplify_map_eq. by exists markdown.
Qed.

(** C10.  In the scan of the generated markup for fenced math blocks:
    (1) there is one block for every two fence lines, so a fence that no
    second fence follows collects nothing; (2) a pair of fences collects
    exactly the lines between them, joined by newlines; (3) after an even
    number of fences, a further fence that is never closed and all the
    lines behind it leave the collected blocks unchanged; (4) every
    collected block is the join of lines of the markup none of which is a
    fence; (5) whenever [parse_nougat] returns [latex_blocks], it holds the
    blocks of the markup and [latex_equations_count] is their number, and
    otherwise neither field is present. *)
Theorem C10_latex_block_scan :
  (forall lines,
     length (latex_blocks_of lines) = Nat.div2 (count_fences lines))
  /\ (forall pre d1 body d2 rest,
        no_fence pre -> is_fence d1 = true ->
        no_fence body -> is_fence d2 = true ->
        latex_blocks_of (pre ++ d1 :: body ++ d2 :: rest)
        = join nl body :: latex_blocks_of rest)
  /\ (forall front d tail,
        Nat.even (count_fences front) = true -> is_fence d = true -> no_fence tail ->
        latex_blocks_of (front ++ d :: tail) = latex_blocks_of front)
  /\ (forall lines,
        exists bodies : list (list string),
          latex_blocks_of lines = join nl <$> bodies
          /\ Forall (Forall (fun l => l ∈ lines /\ is_fence l = false)) bodies)
  /\ (forall w pdf_path page_range timeout result,
        parse_nougat w pdf_path page_range timeout = inr result ->
        match result !! "latex_blocks" with
        | Some v =>
            exists markdown,
              result !! "markdown" = Some (VStr markdown)
              /\ v = VList (VStr <$> extract_latex_blocks markdown)
              /\ result !! "latex_equations_count"
                 = Some (VInt (Z.of_nat (length (extract_latex_blocks markdown))))
        | None => result !! "latex_equations_count" = None
        end).
Proof.
  unfold latex_blocks_of. split; [| split; [| split; [| split]]].
  - intros lines. rewrite scan_latex_length. simpl. by rewrite Nat.add_0_r.
  - intros pre d1 body d2 rest Hpre Hd1 Hbody Hd2.
    rewrite scan_latex_skip by done. simpl. rewrite Hd1.
    rewrite scan_latex_gather by done. simpl. rewrite Hd2.
    by rewrite scan_latex_acc.
  - intros front d tail Heven Hd Htail.
    destruct (scan_latex_prefix front (d :: tail) false [] []) as (cur & -> & Hcur);
      [done |].
    rewrite <- Nat.negb_even, Heven in *. simpl in *. rewrite Hd.
    rewrite (Hcur eq_refl).
    rewrite <- (app_nil_r tail), scan_latex_gather by done.
    reflexivity.
  - intros lines.
    destruct (scan_latex_bodies lines false [] []) as (bodies & Hb & Hall).
    exists bodies. split; [exact Hb |].
    eapply Forall_impl; [exact Hall |]. intros body Hbody.
    eapply Forall_impl; [exact Hbody |]. intros l [Hl|Hl]; [| done].
    by apply elem_of_nil in Hl.
  - apply parse_nougat_latex_fields.
Qed.

Lemma C10_latex_block_scan_witness :
  latex_blocks_of (["Intro"] ++ "$$" :: ["a = b"; "c = d"] ++ " $$ " :: ["Text"])
  = join nl ["a = b"; "c = d"] :: latex_blocks_of ["Text"]
  /\ latex_blocks_of (["$$"; "x"; "$$"] ++ "$$" :: ["dangling"])
     = latex_blocks_of ["$$"; "x"; "$$"]
  /\ parse_nougat nougat_world "PDF/sample.pdf" None 1800 = inr nougat_sample_result
  /\ match nougat_sample_result !! "latex_blocks" with
     | Some v =>
         exists markdown,
           nougat_sample_result !! "markdown" = Some (VStr markdown)
           /\ v = VList (VStr <$> extract_latex_blocks markdown)
           /\ nougat_sample_result !! "latex_equations_count"
              = Some (VInt (Z.of_nat (length (extract_latex_blocks markdown))))
     | None => nougat_sample_result !! "latex_equations_count" = None
     end.
Proof.
  destruct C10_latex_block_scan as (_ & Hpair & Hopen & _ & Hcount).
  assert (Hrun : parse_nougat nougat_world "PDF/sample.pdf" None 1800
                 = inr nougat_sample_result) by (vm_compute; reflexivity).
  split; [| split; [| split]].
  - apply Hpair; repeat constructor.
  - apply Hopen; repeat constructor.
  - exact Hrun.
  - exact (Hcount _ _ _ _ _ Hrun).
Defined.

(** ** Safe file names *)

Section CharsPreserved.
Variable P : ascii -> Prop.

Lemma Forall_py_slice (l : list ascii) (start stop : option Z) :
  Forall P l -> Forall P (py_slice l start stop).
Proof. intros Hl. unfold py_slice. by apply Forall_take, Forall_drop. Qed.

Lemma Forall_str_slice (s : string) (start stop : option Z) :
  Forall P (to_list s) -> Forall P (to_list (str_slice s start stop)).
Proof.
  intros Hs. unfold str_slice. rewrite to_list_of_list.
  by apply Forall_py_slice.
Qed.

Lemma Forall_splitext (p : string) :
  Forall P (to_list p) ->
  Forall P (to_list (fst (splitext p))) /\ Forall P (to_list (snd (splitext p))).
Proof.
  intros Hp. unfold splitext.
  destruct (_ <? _)%Z; [| by split; [| constructor]].
  destruct (only_dots_between _ _); [by split; [| constructor] |].
  split; by apply Forall_str_slice.
Qed.
End CharsPreserved.

Lemma remove_invalid_ok (s : string) :
  Forall (fun c => invalid_filename_char c = false) (to_list (remove_invalid s)).
Proof.
  unfold remove_invalid. rewrite to_list_of_list.
  apply Forall_forall. intros c Hc.
  apply list_elem_of_In, List.filter_In in Hc as [_ Hc].
  by apply negb_true_iff.
Qed.

Lemma replace_spaces_ok (s : string) :
  Forall (fun c => invalid_filename_char c = false) (to_list s) ->
  Forall filename_char_ok (to_list (replace_spaces s)).
Proof.
  intros Hs. unfold replace_spaces. rewrite to_list_of_list.
  induction Hs as [|c l Hc _ IH]; simpl; constructor; [| exact IH].
  destruct (Ascii.eqb_spec c " ") as [->|Hne]; split; done.
Qed.

(** C9.  For every input string, no character of the result of
    [get_safe_filename] is a space or one of the characters backslash,
    slash, star, question mark, colon, double quote, angle brackets, bar. *)
Theorem C9_safe_filename_chars (base_name : string) :
  Forall filename_char_ok (to_list (get_safe_filename base_name)).
Proof.
  unfold get_safe_filename.
  pose proof (replace_spaces_ok _ (remove_invalid_ok (basename base_name))) as Hsafe.
  destruct (_ <? _)%Z; [| exact Hsafe].
  pose proof (Forall_splitext _ _ Hsafe) as [Hname Hext].
  destruct (splitext _) as [name ext]. simpl in *.
  rewrite to_list_app. apply Forall_app. split; [| exact Hext].
  by apply Forall_str_slice.
Qed.

(** The characters named in the claim are exactly the ones excluded. *)
Lemma filename_char_ok_excludes (c : ascii) :
  filename_char_ok c ->
  ~ c ∈ [" "; "\"; "/"; "*"; "?"; ":"; dquote; "<"; ">"; "|"]%char.
Proof.
  intros [Hsp Hinv] Hc.
  repeat (apply elem_of_cons in Hc as [->|Hc]; [by (vm_compute in Hinv || done) |]).
  by apply elem_of_nil in Hc.
Qed.

(** ** The chunking preview *)

Lemma length_py_slice_prefix {A} (l : list A) (m : Z) :
  length (py_slice l None (Some m))
  = Z.to_nat (if (m <? 0)%Z then Z.max 0 (Z.of_nat (length l) + m)
              else Z.min (Z.of_nat (length l)) m).
Proof.
  unfold py_slice, slice_bound. simpl.
  rewrite length_take, length_drop.
  destruct (Z.ltb_spec m 0); lia.
Qed.

(** C8 (as amended).  For every input, every splitter and every parameter
    configuration, the returned preview has a [chunks] list and a
    [total_chunks] with [total_chunks >= len(chunks)], and they are equal
    exactly when [total_chunks <= max_preview_chunks] or [total_chunks = 0]
    (the second case matters only for a negative [max_preview_chunks],
    which is not validated); the reported total is the same for every
    [max_preview_chunks]. *)
Theorem C8_preview_total
    (split_text : Z -> Z -> string -> Exception + list string)
    (text_content : PyVal) (strategy : string)
    (chunk_size chunk_overlap max_preview_chunks : Z) :
  exists (chunks : list PyVal) (total : Z),
    get_chunking_preview split_text text_content strategy chunk_size chunk_overlap
      max_preview_chunks !! "chunks" = Some (VList chunks)
    /\ (forall m,
          get_chunking_preview split_text text_content strategy chunk_size chunk_overlap m
            !! "total_chunks" = Some (VInt total))
    /\ (Z.of_nat (length chunks) <= total)%Z
    /\ (total = Z.of_nat (length chunks)
        <-> (total <= max_preview_chunks)%Z \/ total = 0%Z)
    /\ ((0 <= max_preview_chunks)%Z ->
        (total = Z.of_nat (length chunks) <-> (total <= max_preview_chunks)%Z)).
Proof.
  unfold get_chunking_preview.
  assert (Hzero : forall m : Z,
             (0 <= 0)%Z /\ (0%Z = 0%Z <-> (0 <= m)%Z \/ 0%Z = 0%Z)
             /\ ((0 <= m)%Z -> (0%Z = 0%Z <-> (0 <= m)%Z))) by (intros; lia).
  destruct text_content as [| | |text| | | |];
    try (exists [], 0%Z; split; [by simplify_map_eq |];
         split; [intros; by simplify_map_eq | apply Hzero]).
  destruct (chunk_size <=? 0)%Z;
    [exists [], 0%Z; split; [by simplify_map_eq |];
     split; [intros; by simplify_map_eq | apply Hzero] |].
  destruct (chunk_overlap <? 0)%Z;
    [exists [], 0%Z; split; [by simplify_map_eq |];
     split; [intros; by simplify_map_eq | apply Hzero] |].
  destruct (chunk_size <=? chunk_overlap)%Z;
    [exists [], 0%Z; split; [by simplify_map_eq |];
     split; [intros; by simplify_map_eq | apply Hzero] |].
  destruct (String.eqb strategy "recursive");
    [| exists [], 0%Z; split; [by simplify_map_eq |];
       split; [intros; by simplify_map_eq | apply Hzero]].
  destruct (split_text chunk_size chunk_overlap text) as [ex|chunks];
    [exists [], 0%Z; split; [by simplify_map_eq |];
     split; [intros; by simplify_map_eq | apply Hzero] |].
  exists (VStr <$> py_slice chunks None (Some max_preview_chunks)),
    (Z.of_nat (length chunks)).
  split; [by simplify_map_eq |].
  split; [intros; by simplify_map_eq |].
  rewrite length_fmap, length_py_slice_prefix.
  destruct (Z.ltb_spec max_preview_chunks 0); lia.
Qed.

Lemma C8_preview_total_witness :
  exists (chunks : list PyVal) (total : Z),
    get_chunking_preview sample_splitter (VStr "some text") "recursive" 1000 100 5
      !! "chunks" = Some (VList chunks)
    /\ get_chunking_preview sample_splitter (VStr "some text") "recursive" 1000 100 5
         !! "total_chunks" = Some (VInt total)
    /\ (0 <= 5)%Z
    /\ (total = Z.of_nat (length chunks) <-> (total <= 5)%Z).
Proof.
  destruct (C8_preview_total sample_splitter (VStr "some text") "recursive" 1000 100 5)
    as (chunks & total & Hchunks & Htotal & _ & _ & Hiff).
  exists chunks, total.
  split; [exact Hchunks |]. split; [apply Htotal |].
  split; [lia |]. apply Hiff. lia.
Defined.

(** C8 as stated fails for a negative preview limit, which the validation
    does not look at: the empty text has no chunk, so the total equals the
    length of the preview although it is not below the limit. *)
Lemma C8_negative_preview_limit :
  let preview :=
    get_chunking_preview sample_splitter (VStr "") "recursive" 1000 100 (-1) in
  preview !! "error" = Some VNone
  /\ preview !! "chunks" = Some (VList [])
  /\ preview !! "total_chunks" = Some (VInt 0)
  /\ ~ (0 <= -1)%Z.
Proof. repeat split; try (vm_compute; reflexivity). lia. Qed.

(** ** The parsing loop *)

Section OrderedDictFacts.
Context {K V : Type} `{EqDecision K}.

Lemma od_get_set_eq (d : list (K * V)) (k : K) (v : V) :
  od_get (od_set d k v) k = Some v.
Proof.
  induction d as [|[k' v'] d IH]; simpl.
  - by rewrite decide_True.
  - destruct (decide (k' = k)); simpl; [by rewrite decide_True |].
    by rewrite decide_False.
Qed.

Lemma od_get_set_ne (d : list (K * V)) (k k' : K) (v : V) :
  k <> k' -> od_get (od_set d k v) k' = od_get d k'.
Proof.
  intros Hne. induction d as [|[k0 v0] d IH]; simpl.
  - by rewrite decide_False.
  - destruct (decide (k0 = k)) as [->|]; simpl.
    + by rewrite !decide_False.
    + destruct (decide (k0 = k')); [done | exact IH].
Qed.
End OrderedDictFacts.

Lemma fallback_key_not_registered (parser_name : string) :
  registered parser_name -> parser_name <> "OCR Fallback".
Proof. intros [f Hf] ->. vm_compute in Hf. discriminate. Qed.

Section OrchestratorFacts.
Variable call : Parser -> gmap string PyVal -> Exception + gmap string PyVal.
Variable st : Settings.

Lemma run_parser_raises (rs : list (string * gmap string PyVal))
    (parser_name : string) (f : Parser) (e : Exception) :
  od_get PARSER_OPTIONS parser_name = Some f ->
  call f (parser_params st parser_name) = inl e ->
  run_parser call st rs parser_name
  = inr (od_set rs parser_name (failed_to_execute parser_name e)).
Proof. intros Hf He. unfold run_parser. by rewrite Hf, He. Qed.

Lemma run_parser_succeeds (rs : list (string * gmap string PyVal))
    (parser_name : string) (f : Parser) (result : gmap string PyVal) :
  od_get PARSER_OPTIONS parser_name = Some f ->
  call f (parser_params st parser_name) = inr result ->
  get_truthy result "error" = false ->
  run_parser call st rs parser_name = inr (od_set rs parser_name result).
Proof.
  intros Hf Hr Herr. unfold run_parser. rewrite Hf, Hr, Herr.
  by rewrite andb_false_r.
Qed.

Lemma run_parser_not_nougat (rs : list (string * gmap string PyVal))
    (parser_name : string) :
  registered parser_name -> parser_name <> "Nougat" ->
  exists result, run_parser call st rs parser_name = inr (od_set rs parser_name result).
Proof.
  intros [f Hf] Hne. unfold run_parser. rewrite Hf.
  destruct (call f _) as [e|result]; [by eexists |].
  exists result. destruct (String.eqb_spec parser_name "Nougat"); done.
Qed.

Lemma run_parser_nougat_fallback (rs : list (string * gmap string PyVal))
    (nougat_result fallback : gmap string PyVal) :
  call Nougat (parser_params st "Nougat") = inr nougat_result ->
  get_truthy nougat_result "error" = true ->
  call Ocr (ocr_params st) = inr fallback ->
  run_parser call st rs "Nougat"
  = inr (od_set (od_set rs "Nougat" nougat_result) "OCR Fallback" fallback).
Proof.
  intros Hn Herr Ho. unfold run_parser.
  change (od_get PARSER_OPTIONS "Nougat") with (Some Nougat).
  cbv beta iota zeta. by rewrite Hn, Herr, Ho.
Qed.

(** Once the failed Nougat result and its fallback are in the result set,
    the remaining turns of the loop leave both in place. *)
Lemma run_parsers_keeps_fallback (nougat_result fallback : gmap string PyVal)
    (names : list string) :
  call Nougat (parser_params st "Nougat") = inr nougat_result ->
  get_truthy nougat_result "error" = true ->
  call Ocr (ocr_params st) = inr fallback ->
  Forall registered names ->
  forall rs,
    od_get rs "Nougat" = Some nougat_result ->
    od_get rs "OCR Fallback" = Some fallback ->
    exists rs',
      run_parsers call st names rs = inr rs'
      /\ od_get rs' "Nougat" = Some nougat_result
      /\ od_get rs' "OCR Fallback" = Some fallback.
Proof.
  intros Hn Herr Ho Hreg.
  induction Hreg as [|name names Hname _ IH]; intros rs HN HF; simpl.
  - by exists rs.
  - destruct (decide (name = "Nougat")) as [->|Hne].
    + rewrite (run_parser_nougat_fallback rs _ _ Hn Herr Ho).
      apply IH.
      * rewrite od_get_set_ne by done. apply od_get_set_eq.
      * apply od_get_set_eq.
    + destruct (run_parser_not_nougat rs name Hname Hne) as (r & ->).
      apply IH.
      * by rewrite od_get_set_ne.
      * rewrite od_get_set_ne; [done |].
        by apply fallback_key_not_registered.
Qed.

Lemma run_parsers_fallback (nougat_result fallback : gmap string PyVal)
    (names : list string) :
  call Nougat (parser_params st "Nougat") = inr nougat_result ->
  get_truthy nougat_result "error" = true ->
  call Ocr (ocr_params st) = inr fallback ->
  Forall registered names ->
  "Nougat" ∈ names ->
  forall rs,
    exists rs',
      run_parsers call st names rs = inr rs'
      /\ od_get rs' "Nougat" = Some nougat_result
      /\ od_get rs' "OCR Fallback" = Some fallback.
Proof.
  intros Hn Herr Ho Hreg.
  induction Hreg as [|name names Hname Hnames IH]; intros Hin rs.
  - by apply elem_of_nil in Hin.
  - simpl. destruct (decide (name = "Nougat")) as [->|Hne].
    + rewrite (run_parser_nougat_fallback rs _ _ Hn Herr Ho).
      apply run_parsers_keeps_fallback; try done.
      * rewrite od_get_set_ne by done. apply od_get_set_eq.
      * apply od_get_set_eq.
    + destruct (run_parser_not_nougat rs name Hname Hne) as (r & ->).
      apply IH. apply elem_of_cons in Hin as [Hin|Hin]; [congruence | done].
Qed.
End OrchestratorFacts.

(** The arguments of the fallback call bind to the parameters of
    [parse_ocr]: the call is [parse_ocr] on the selected path and range
    with the OCR language and resolution. *)
Lemma invoke_ocr_fallback (w : World) (st : Settings) :
  invoke w Ocr (ocr_params st)
  = parse_ocr w (selected_pdf_path st) (ocr_lang st) (page_range st) (ocr_dpi st).
Proof.
  unfold invoke, ocr_params, common_params, arg_str, arg_int, arg_page_range.
  simplify_map_eq.
  assert (Hacc : accepts ["pdf_path"; "lang"; "page_range"; "dpi"]
            (<["dpi" := VInt (ocr_dpi st)]>
               (<["lang" := VStr (ocr_lang st)]>
                  {[ "pdf_path" := VStr (selected_pdf_path st);
                     "page_range" := page_range_value (page_range st) ]})) = true).
  { unfold accepts. apply bool_decide_eq_true.
    rewrite !dom_insert_L, dom_singleton_L. set_solver. }
  rewrite Hacc.
  by destruct (page_range st) as [[s e]|].
Qed.

(** The fallback for any behaviour of the registered functions in which
    the OCR call of the fallback returns a result. *)
Lemma nougat_fallback_for_calls
    (call : Parser -> gmap string PyVal -> Exception + gmap string PyVal)
    (st : Settings) (names : list string)
    (nougat_result fallback : gmap string PyVal) :
  Forall registered names ->
  "Nougat" ∈ names ->
  call Nougat (parser_params st "Nougat") = inr nougat_result ->
  error_set nougat_result = true ->
  call Ocr (ocr_params st) = inr fallback ->
  exists rs,
    parse_button call st names = inr rs
    /\ od_get rs "Nougat" = Some nougat_result
    /\ od_get rs "OCR Fallback" = Some fallback.
Proof.
  intros Hreg Hin Hn Herr Ho.
  apply (run_parsers_fallback call st _ _ names Hn Herr Ho Hreg Hin []).
Qed.

(** The arguments of the fallback call: the document path and the page
    range of the Nougat call, and the OCR language and DPI settings. *)
Lemma ocr_params_lookup (st : Settings) :
  (ocr_params st !! "pdf_path" = Some (VStr (selected_pdf_path st))
   /\ parser_params st "Nougat" !! "pdf_path" = Some (VStr (selected_pdf_path st)))
  /\ (ocr_params st !! "page_range" = Some (page_range_value (page_range st))
      /\ parser_params st "Nougat" !! "page_range"
         = Some (page_range_value (page_range st)))
  /\ ocr_params st !! "lang" = Some (VStr (ocr_lang st))
  /\ ocr_params st !! "dpi" = Some (VInt (ocr_dpi st)).
Proof.
  unfold ocr_params, parser_params, common_params.
  change (String.eqb "Nougat" "OCR (Tesseract)") with false.
  change (String.eqb "Nougat" "GROBID") with false.
  change (String.eqb "Nougat" "Nougat") with true.
  cbv iota.
  repeat split; by simplify_map_eq.
Qed.

(** What the loop does when the fallback run of [parse_ocr] returns: the
    failed Nougat result stays under its key and the result of that run is
    stored under [OCR Fallback]. *)
Lemma nougat_fallback_when_ocr_returns
    (w : World) (st : Settings) (names : list string)
    (nougat_result fallback : gmap string PyVal) :
  Forall registered names ->
  "Nougat" ∈ names ->
  invoke w Nougat (parser_params st "Nougat") = inr nougat_result ->
  error_set nougat_result = true ->
  parse_ocr w (selected_pdf_path st) (ocr_lang st) (page_range st) (ocr_dpi st)
  = inr fallback ->
  exists rs,
    parse_button (invoke w) st names = inr rs
    /\ od_get rs "Nougat" = Some nougat_result
    /\ od_get rs "OCR Fallback" = Some fallback.
Proof.
  intros Hreg Hin Hn Herr Hocr.
  apply nougat_fallback_for_calls; try done.
  by rewrite invoke_ocr_fallback.
Qed.

(** Every exception behind the opening of the document leaves [parse_ocr]
    as the [AttributeError] of its last handler. *)
Lemma parse_ocr_raises_no_is_open (w : World) (pdf_path lang : string)
    (page_range : option (Z * Z)) (dpi : Z) (e : Exception) :
  parse_ocr w pdf_path lang page_range dpi = inl e -> e = no_is_open.
Proof.
  unfold parse_ocr.
  destruct (fitz_open w pdf_path) as [ex|doc]; [discriminate |].
  destruct (ocr_pages_to_process _ _) as [msg|nums]; [discriminate |].
  destruct (ocr_loop _ _ _ _ _); try discriminate. by intros [= <-].
Qed.

(** C4.  The claim fails on a locked file, which PyMuPDF opens but whose
    pages do not load.  The Nougat run ends with an error (here: it times
    out) and OCR is registered, so the loop starts the fallback.  In
    [parse_ocr] the first page does not load; the last handler then reads
    [doc.is_open], which raises, and [parse_ocr] returns no result.  The
    handler of the loop stores the failure entry under the key of Nougat:
    the result set of the run holds neither the failed Nougat result nor
    an entry under [OCR Fallback]. *)
Theorem C4_fallback_lost_when_ocr_raises :
  registered "OCR (Tesseract)"
  /\ invoke locked_world Nougat (parser_params sample_settings "Nougat")
     = inr sample_nougat_failure
  /\ error_set sample_nougat_failure = true
  /\ parse_ocr locked_world "PDF/sample.pdf" "eng" (Some (1, 2)%Z) 300 = inl no_is_open
  /\ exists rs,
       parse_button (invoke locked_world) sample_settings ["Nougat"] = inr rs
       /\ od_get rs "Nougat" = Some (failed_to_execute "Nougat" no_is_open)
       /\ od_get rs "Nougat" <> Some sample_nougat_failure
       /\ od_get rs "OCR Fallback" = None.
Proof.
  split; [by eexists |]. split; [vm_compute; reflexivity |].
  split; [reflexivity |]. split; [reflexivity |].
  eexists. split; [vm_compute; reflexivity |].
  split; [vm_compute; reflexivity |]. split; [| vm_compute; reflexivity].
  intros Heq. apply (f_equal (fun r => match r with
                                       | Some r => r !! "markdown"
                                       | None => None
                                       end)) in Heq.
  vm_compute in Heq. discriminate.
Qed.

(** C5.  In a run over two distinct selected back ends, in either order,
    where calling A raises and calling B returns a result without error,
    the result set holds for A an entry whose error is set and names A,
    and for B the result B returned. *)
Theorem C5_failure_isolated
    (call : Parser -> gmap string PyVal -> Exception + gmap string PyVal)
    (st : Settings) (A B : string) (fA fB : Parser) (e : Exception)
    (result_B : gmap string PyVal) (names : list string) :
  A <> B ->
  od_get PARSER_OPTIONS A = Some fA ->
  od_get PARSER_OPTIONS B = Some fB ->
  call fA (parser_params st A) = inl e ->
  call fB (parser_params st B) = inr result_B ->
  error_set result_B = false ->
  names = [A; B] \/ names = [B; A] ->
  exists rs,
    parse_button call st names = inr rs
    /\ od_get rs A
       = Some {[ "error" := VStr ("Failed to execute parser '" +:+ A +:+ "': " +:+ e) ]}
    /\ (forall r, od_get rs A = Some r -> error_set r = true)
    /\ od_get rs B = Some result_B.
Proof.
  intros Hne HfA HfB HA HB Herr Hnames.
  assert (Hset : forall rs r,
             od_get rs A = Some (failed_to_execute A e) ->
             od_get rs A = Some r -> error_set r = true).
  { intros rs r Hrs Hr. rewrite Hrs in Hr. by injection Hr as <-. }
  unfold parse_button.
  destruct Hnames as [-> | ->]; simpl.
  - rewrite (run_parser_raises call st _ _ _ _ HfA HA).
    rewrite (run_parser_succeeds call st _ _ _ _ HfB HB Herr).
    eexists. split; [reflexivity |].
    assert (HgetA : od_get (od_set (od_set [] A (failed_to_execute A e)) B result_B) A
                    = Some (failed_to_execute A e)).
    { rewrite od_get_set_ne by done. apply od_get_set_eq. }
    split; [exact HgetA |]. split; [intros r; by apply Hset |].
    apply od_get_set_eq.
  - rewrite (run_parser_succeeds call st _ _ _ _ HfB HB Herr).
    rewrite (run_parser_raises call st _ _ _ _ HfA HA).
    eexists. split; [reflexivity |].
    assert (HgetA : od_get (od_set (od_set [] B result_B) A (failed_to_execute A e)) A
                    = Some (failed_to_execute A e)) by apply od_get_set_eq.
    split; [exact HgetA |]. split; [intros r; by apply Hset |].
    rewrite od_get_set_ne by done. apply od_get_set_eq.
Qed.

Lemma C5_failure_isolated_witness :
  exists rs,
    parse_button (invoke readonly_world) sample_settings ["Nougat"; "PyMuPDF"] = inr rs
    /\ od_get rs "Nougat"
       = Some {[ "error" :=
                   VStr "Failed to execute parser 'Nougat': [Errno 13] Permission denied" ]}
    /\ (forall r, od_get rs "Nougat" = Some r -> error_set r = true)
    /\ od_get rs "PyMuPDF"
       = Some (parse_pymupdf readonly_world "PDF/sample.pdf" (Some (1, 2)%Z)).
Proof.
  apply (C5_failure_isolated (invoke readonly_world) sample_settings
           "Nougat" "PyMuPDF" Nougat PyMuPDF "[Errno 13] Permission denied").
  - discriminate.
  - reflexivity.
  - reflexivity.
  - vm_compute. reflexivity.
  - vm_compute. reflexivity.
  - vm_compute. reflexivity.
  - by left.
Defined.
(** ** The JSON export *)

(** Induction on a Python value, with the hypothesis for every member of a
    list, a tuple or a dict. *)
Lemma PyObj_nested_ind (P : PyObj -> Prop) :
  P ONone ->
  (forall b, P (OBool b)) ->
  (forall z, P (OInt z)) ->
  (forall x, P (OFloat x)) ->
  (forall s, P (OStr s)) ->
  (forall l, Forall P l -> P (OList l)) ->
  (forall l, Forall P l -> P (OTuple l)) ->
  (forall d, Forall (fun kv => P (snd kv)) d -> P (ODict d)) ->
  (forall name, P (OOther name)) ->
  forall v, P v.
Proof.
  intros HNone HBool HInt HFloat HStr HList HTuple HDict HOther.
  fix IH 1. intros [| b | z | x | s | l | l | d | name].
  - exact HNone.
  - apply HBool.
  - apply HInt.
  - apply HFloat.
  - apply HStr.
  - apply HList. induction l as [|x l IHl]; constructor; [apply IH | exact IHl].
  - apply HTuple. induction l as [|x l IHl]; constructor; [apply IH | exact IHl].
  - apply HDict. induction d as [|[k x] d IHd]; constructor; [apply IH | exact IHd].
  - apply HOther.
Qed.

(** *** UTF-8 *)

(** Decide the comparisons of the goal from the hypotheses. *)
Ltac decide_comparisons :=
  repeat match goal with
         | |- context [(?a <? ?b)%Z] =>
             first [ rewrite (proj2 (Z.ltb_lt a b)) by (Z.div_mod_to_equations; lia)
                   | rewrite (proj2 (Z.ltb_ge a b)) by (Z.div_mod_to_equations; lia) ]
         | |- context [(?a <=? ?b)%Z] =>
             first [ rewrite (proj2 (Z.leb_le a b)) by (Z.div_mod_to_equations; lia)
                   | rewrite (proj2 (Z.leb_gt a b)) by (Z.div_mod_to_equations; lia) ]
         | |- context [(?a =? ?b)%Z] =>
             first [ rewrite (proj2 (Z.eqb_eq a b)) by (Z.div_mod_to_equations; lia)
                   | rewrite (proj2 (Z.eqb_neq a b)) by (Z.div_mod_to_equations; lia) ]
         end;
  cbn [andb orb negb].

Lemma is_scalar_value_range (c : Z) :
  is_scalar_value c = true ->
  (0 <= c < 55296 \/ 57343 < c <= 1114111)%Z.
Proof. unfold is_scalar_value. lia. Qed.

Lemma decode_utf8_char (c : Z) (chunk bs : list Z) :
  encode_utf8_char c = Some chunk ->
  decode_utf8 (chunk ++ bs) = cons c <$> decode_utf8 bs.
Proof.
  unfold encode_utf8_char.
  destruct (is_scalar_value c) eqn:Hc; [| discriminate].
  apply is_scalar_value_range in Hc. cbn [negb].
  destruct (Z.ltb_spec c 128).
  { intros [= <-]. cbn [app decode_utf8]. by decide_comparisons. }
  destruct (Z.ltb_spec c 2048).
  { intros [= <-]. cbn [app decode_utf8]. unfold is_cont. decide_comparisons.
    do 2 f_equal. Z.div_mod_to_equations. lia. }
  destruct (Z.ltb_spec c 65536).
  { intros [= <-]. cbn [app decode_utf8]. unfold is_cont, is_scalar_value.
    decide_comparisons.
    replace ((224 + c / 4096 - 224) * 4096 + (128 + (c / 64) mod 64 - 128) * 64
             + (128 + c mod 64 - 128))%Z with c by (Z.div_mod_to_equations; lia).
    destruct Hc; decide_comparisons; done. }
  intros [= <-]. cbn [app decode_utf8]. unfold is_cont. decide_comparisons.
  do 2 f_equal. Z.div_mod_to_equations. lia.
Qed.

Lemma encode_utf8_cons (c : Z) (s : list Z) :
  encode_utf8 (c :: s)
  = chunk ← encode_utf8_char c; bytes ← encode_utf8 s; Some (chunk ++ bytes).
Proof.
  unfold encode_utf8. cbn [mapM].
  destruct (encode_utf8_char c); [| done]. cbn.
  by destruct (mapM encode_utf8_char s).
Qed.

(** The bytes of an encoded text decode to the text. *)
Lemma decode_encode_utf8 (s bytes : list Z) :
  encode_utf8 s = Some bytes -> decode_utf8 bytes = Some s.
Proof.
  revert bytes. induction s as [|c s IH]; intros bytes.
  - by intros [= <-].
  - rewrite encode_utf8_cons.
    destruct (encode_utf8_char c) as [chunk|] eqn:Hc; [| discriminate].
    destruct (encode_utf8 s) as [bytes'|]; [| discriminate].
    intros [= <-]. rewrite (decode_utf8_char c) by done. by rewrite (IH bytes').
Qed.

(** The texts that UTF-8 encodes are those without surrogates. *)
Lemma encode_utf8_is_Some (s : list Z) :
  is_Some (encode_utf8 s) <-> well_formed_text s.
Proof.
  induction s as [|c s IH].
  - split; [constructor | by eexists].
  - rewrite encode_utf8_cons. split.
    + intros [bytes Hb].
      destruct (encode_utf8_char c) as [chunk|] eqn:Hc; [| discriminate].
      destruct (encode_utf8 s) as [bytes'|]; [| discriminate].
      constructor; [| apply IH; by eexists].
      unfold encode_utf8_char in Hc. by destruct (is_scalar_value c).
    + intros [Hc Hs]%Forall_cons. apply IH in Hs as [bytes' ->].
      unfold encode_utf8_char. rewrite Hc. cbn [negb].
      repeat case_match; by eexists.
Qed.
(** *** Strings *)

Lemma scanstring_escape_char (c : Z) (k : list Z) :
  (0 <= c)%Z ->
  scanstring (escape_char c ++ k) = prepend c (scanstring k).
Proof.
  intros Hc. unfold escape_char.
  destruct (Z.eqb_spec c (chr dquote)) as [-> | Hq]; [reflexivity |].
  destruct (Z.eqb_spec c (chr "\")) as [-> | Hb]; [reflexivity |].
  destruct (Z.eqb_spec c 10) as [-> | ?]; [reflexivity |].
  destruct (Z.eqb_spec c 13) as [-> | ?]; [reflexivity |].
  destruct (Z.eqb_spec c 9) as [-> | ?]; [reflexivity |].
  destruct (Z.eqb_spec c 8) as [-> | ?]; [reflexivity |].
  destruct (Z.eqb_spec c 12) as [-> | ?]; [reflexivity |].
  destruct (Z.ltb_spec c 32) as [Hlt | Hge].
  - assert (Hcases : In c [0; 1; 2; 3; 4; 5; 6; 7; 11; 14; 15; 16; 17; 18; 19; 20;
                          21; 22; 23; 24; 25; 26; 27; 28; 29; 30; 31]%Z)
      by (cbn [In]; lia).
    cbn [In] in Hcases.
    repeat (destruct Hcases as [<- | Hcases]; [reflexivity |]). done.
  - cbn [app scanstring].
    rewrite (proj2 (Z.eqb_neq _ _) Hq), (proj2 (Z.eqb_neq _ _) Hb).
    by rewrite (proj2 (Z.ltb_ge _ _) Hge).
Qed.

Lemma scanstring_escaped (l k : list Z) :
  Forall (fun c => (0 <= c)%Z) l ->
  scanstring (flat_map escape_char l ++ chr dquote :: k) = Some (l, k).
Proof.
  induction 1 as [|c l Hc _ IH]; [reflexivity |].
  cbn [flat_map]. by rewrite <- app_assoc, scanstring_escape_char, IH.
Qed.

Lemma well_formed_nonnegative (s : list Z) :
  well_formed_text s -> Forall (fun c => (0 <= c)%Z) s.
Proof.
  intros Hs. eapply Forall_impl; [exact Hs |].
  intros c Hc. apply is_scalar_value_range in Hc. lia.
Qed.

Lemma escape_char_well_formed (c : Z) :
  is_scalar_value c = true -> well_formed_text (escape_char c).
Proof.
  intros Hc. unfold escape_char.
  repeat case_match; try (repeat constructor; done).
  assert (Hcases : In c [0; 1; 2; 3; 4; 5; 6; 7; 11; 14; 15; 16; 17; 18; 19; 20;
                          21; 22; 23; 24; 25; 26; 27; 28; 29; 30; 31]%Z)
    by (apply is_scalar_value_range in Hc; cbn [In]; lia).
  cbn [In] in Hcases.
  repeat (destruct Hcases as [<- | Hcases]; [by repeat constructor |]). done.
Qed.

Lemma encode_basestring_well_formed (s : list Z) :
  well_formed_text s -> well_formed_text (encode_basestring s).
Proof.
  intros Hs. unfold encode_basestring. constructor; [done |].
  apply Forall_app. split; [| by repeat constructor].
  induction Hs as [|c s Hc _ IH]; [constructor |].
  cbn [flat_map]. apply Forall_app. split; [by apply escape_char_well_formed | done].
Qed.

(** *** Numbers *)

Lemma text_of_codes (s : string) : text_of (codes s) = s.
Proof.
  unfold text_of, codes. rewrite <- list_fmap_compose.
  rewrite <- (of_list_to_list s) at 2. f_equal.
  rewrite <- (list_fmap_id (to_list s)) at 2. apply list_fmap_ext.
  intros _ c _. cbn. unfold chr. by rewrite Nat2Z.id, ascii_nat_embedding.
Qed.

Lemma length_codes (s : string) : length (codes s) = String.length s.
Proof.
  unfold codes. rewrite length_fmap.
  induction s as [|c s IH]; [done |]. cbn. by rewrite <- IH.
Qed.

Lemma codes_String (c : ascii) (s : string) : codes (String c s) = chr c :: codes s.
Proof. reflexivity. Qed.

(** No digit, point, exponent or sign follows the text of a value. *)
Lemma value_end_no_digit (rest : list Z) :
  value_end rest -> span_digits rest = ([], rest).
Proof. destruct rest as [|c rest]; [done |]. by intros [-> | ->]. Qed.

Lemma value_end_no_fraction (rest : list Z) :
  value_end rest -> span_fraction rest = ([], rest).
Proof. destruct rest as [|c rest]; [done |]. by intros [-> | ->]. Qed.

Lemma value_end_no_exponent (rest : list Z) :
  value_end rest -> span_exponent rest = ([], rest).
Proof. destruct rest as [|c rest]; [done |]. by intros [-> | ->]. Qed.

Lemma value_end_no_sign (rest : list Z) :
  value_end rest ->
  match rest with
  | g :: t => if ((g =? chr "+") || (g =? chr "-"))%Z then ([g], t) else ([], rest)
  | [] => ([], rest)
  end = ([] : list Z, rest).
Proof. destruct rest as [|c rest]; [done |]. by intros [-> | ->]. Qed.

Lemma span_digits_spec (s : list Z) :
  forall ds r, span_digits s = (ds, r) ->
    s = ds ++ r /\ Forall (fun c => is_digit_code c = true) ds.
Proof.
  induction s as [|c s IH]; intros ds r; cbn [span_digits].
  - by intros [= <- <-].
  - destruct (is_digit_code c) eqn:Hc; [| by intros [= <- <-]].
    destruct (span_digits s) as [ds' r'].
    intros [= <- <-]. destruct (IH ds' r' eq_refl) as [-> Hall].
    split; [done | by constructor].
Qed.

(** The digits at the head of an input stay the same when a text that
    starts like the end of a value is put behind the input. *)
Lemma span_digits_app (s rest : list Z) :
  value_end rest ->
  forall ds r, span_digits s = (ds, r) -> span_digits (s ++ rest) = (ds, r ++ rest).
Proof.
  intros Hrest. induction s as [|c s IH]; intros ds r; cbn [span_digits app].
  - intros [= <- <-]. by apply value_end_no_digit.
  - destruct (is_digit_code c); [| by intros [= <- <-]].
    destruct (span_digits s) as [ds' r'].
    intros [= <- <-]. by rewrite (IH ds' r').
Qed.

Lemma span_fraction_app (s rest : list Z) :
  value_end rest ->
  forall f r, span_fraction s = (f, r) -> span_fraction (s ++ rest) = (f, r ++ rest).
Proof.
  intros Hrest f r. destruct s as [|p s]; cbn [span_fraction app].
  - intros [= <- <-]. by apply value_end_no_fraction.
  - destruct (p =? chr ".")%Z; [| by intros [= <- <-]].
    destruct (span_digits s) as [ds r'] eqn:Hds.
    rewrite (span_digits_app s rest Hrest ds r' Hds).
    destruct ds; by intros [= <- <-].
Qed.

Lemma span_exponent_app (s rest : list Z) :
  value_end rest ->
  forall x r, span_exponent s = (x, r) -> span_exponent (s ++ rest) = (x, r ++ rest).
Proof.
  intros Hrest x r. destruct s as [|e s]; cbn [span_exponent app].
  - intros [= <- <-]. by apply value_end_no_exponent.
  - destruct ((e =? chr "e") || (e =? chr "E"))%Z; [| by intros [= <- <-]].
    destruct s as [|g t].
    + cbn [app span_digits]. intros [= <- <-].
      rewrite (value_end_no_sign rest Hrest).
      by rewrite (value_end_no_digit rest Hrest).
    + cbn [app].
      destruct ((g =? chr "+") || (g =? chr "-"))%Z.
      * destruct (span_digits t) as [ds r'] eqn:Hds.
        rewrite (span_digits_app t rest Hrest ds r' Hds).
        destruct ds; by intros [= <- <-].
      * destruct (span_digits (g :: t)) as [ds r'] eqn:Hds.
        pose proof (span_digits_app (g :: t) rest Hrest ds r' Hds) as Happ.
        rewrite <- app_comm_cons in Happ. rewrite Happ.
        destruct ds; by intros [= <- <-].
Qed.

(** The number at the head of an input stays the same when a text that
    starts like the end of a value is put behind the input. *)
Lemma number_literal_app (s rest : list Z) :
  value_end rest ->
  forall text digits is_float r,
    number_literal s = Some (text, digits, is_float, r) ->
    number_literal (s ++ rest) = Some (text, digits, is_float, r ++ rest).
Proof.
  intros Hrest text digits is_float r. unfold number_literal.
  assert (Hbody : forall sign s1,
    match s1 with
    | [] => None
    | c :: s2 =>
        if is_digit_code c then
          let '(integer, r) :=
            if (c =? chr "0")%Z then ([c], s2) else span_digits s1 in
          let '(frac, r) := span_fraction r in
          let '(exp, r) := span_exponent r in
          Some (sign ++ integer ++ frac ++ exp, length integer,
                negb (bool_decide (frac = [] /\ exp = [])), r)
        else None
    end = Some (text, digits, is_float, r) ->
    match s1 ++ rest with
    | [] => None
    | c :: s2 =>
        if is_digit_code c then
          let '(integer, r) :=
            if (c =? chr "0")%Z then ([c], s2) else span_digits (s1 ++ rest) in
          let '(frac, r) := span_fraction r in
          let '(exp, r) := span_exponent r in
          Some (sign ++ integer ++ frac ++ exp, length integer,
                negb (bool_decide (frac = [] /\ exp = [])), r)
        else None
    end = Some (text, digits, is_float, r ++ rest)).
  { intros sign [|c s2]; [discriminate |]. cbn [app].
    destruct (is_digit_code c); [| discriminate].
    assert (Hint : forall integer r0,
              (if (c =? chr "0")%Z then ([c], s2) else span_digits (c :: s2))
              = (integer, r0) ->
              (if (c =? chr "0")%Z then ([c], s2 ++ rest)
               else span_digits (c :: s2 ++ rest)) = (integer, r0 ++ rest)).
    { intros integer r0. destruct (c =? chr "0")%Z; [by intros [= <- <-] |].
      apply (span_digits_app (c :: s2) rest Hrest). }
    destruct (if (c =? chr "0")%Z then _ else _) as [integer r0] eqn:Hi.
    rewrite (Hint _ _ eq_refl).
    destruct (span_fraction r0) as [frac r1] eqn:Hf.
    rewrite (span_fraction_app r0 rest Hrest _ _ Hf).
    destruct (span_exponent r1) as [exp r2] eqn:He.
    rewrite (span_exponent_app r1 rest Hrest _ _ He).
    by intros [= <- <- <- <-]. }
  destruct s as [|c s'].
  - discriminate.
  - cbn [app]. destruct (c =? chr "-")%Z.
    + apply (Hbody [c] s').
    + apply (Hbody [] (c :: s')).
Qed.

Lemma digit_is_number_code (c : Z) :
  is_digit_code c = true -> is_number_code c = true.
Proof. unfold is_digit_code, is_number_code. lia. Qed.

Lemma digits_are_number_codes (ds : list Z) :
  Forall (fun c => is_digit_code c = true) ds ->
  Forall (fun c => is_number_code c = true) ds.
Proof. intros H. eapply Forall_impl; [exact H | apply digit_is_number_code]. Qed.

Lemma span_fraction_spec (s f r : list Z) :
  span_fraction s = (f, r) -> Forall (fun c => is_number_code c = true) f.
Proof.
  destruct s as [|p s]; cbn [span_fraction]; [by intros [= <- <-] |].
  destruct (Z.eqb_spec p (chr ".")) as [-> |]; [| by intros [= <- <-]].
  destruct (span_digits s) as [ds r'] eqn:Hds.
  apply span_digits_spec in Hds as [_ Hds].
  destruct ds; intros [= <- <-]; [constructor |].
  constructor; [done | by apply digits_are_number_codes].
Qed.

Lemma span_exponent_spec (s x r : list Z) :
  span_exponent s = (x, r) -> Forall (fun c => is_number_code c = true) x.
Proof.
  destruct s as [|e s]; cbn [span_exponent]; [by intros [= <- <-] |].
  destruct ((e =? chr "e") || (e =? chr "E"))%Z eqn:He; [| by intros [= <- <-]].
  assert (Hcode : is_number_code e = true).
  { apply orb_true_iff in He as [->%Z.eqb_eq | ->%Z.eqb_eq]; done. }
  assert (Hsign : forall sign s'',
            match s with
            | g :: t => if ((g =? chr "+") || (g =? chr "-"))%Z then ([g], t) else ([], s)
            | [] => ([], s)
            end = (sign, s'') ->
            Forall (fun c => is_number_code c = true) sign).
  { intros sign s''. destruct s as [|g t]; [by intros [= <- <-] |].
    destruct ((g =? chr "+") || (g =? chr "-"))%Z eqn:Hg; [| by intros [= <- <-]].
    intros [= <- <-]. constructor; [| constructor].
    apply orb_true_iff in Hg as [->%Z.eqb_eq | ->%Z.eqb_eq]; done. }
  destruct (match s with [] => _ | _ => _ end) as [sign s''] eqn:Hs.
  specialize (Hsign _ _ eq_refl).
  destruct (span_digits s'') as [ds r'] eqn:Hds.
  apply span_digits_spec in Hds as [_ Hds].
  destruct ds; intros [= <- <-]; [constructor |].
  constructor; [done |]. apply Forall_app. split; [done |].
  by apply digits_are_number_codes.
Qed.

Lemma integer_part_spec (c : Z) (s2 integer r0 : list Z) :
  is_digit_code c = true ->
  (if (c =? chr "0")%Z then ([c], s2) else span_digits (c :: s2)) = (integer, r0) ->
  Forall (fun c => is_number_code c = true) integer /\ exists t, integer = c :: t.
Proof.
  intros Hc. destruct (c =? chr "0")%Z.
  - intros [= <- <-]. split; [| by eexists].
    constructor; [by apply digit_is_number_code | constructor].
  - cbn [span_digits]. rewrite Hc. destruct (span_digits s2) as [ds r'] eqn:Hds.
    apply span_digits_spec in Hds as [_ Hds].
    intros [= <- <-]. split; [| by eexists].
    constructor; [by apply digit_is_number_code | by apply digits_are_number_codes].
Qed.

(** The text of a number holds signs, digits, a point and the letter of
    the exponent only, and starts with a minus sign or a digit. *)
Lemma number_literal_text (s text r : list Z) (digits : nat) (is_float : bool) :
  number_literal s = Some (text, digits, is_float, r) ->
  Forall (fun c => is_number_code c = true) text
  /\ exists c t, text = c :: t /\ (c = chr "-" \/ is_digit_code c = true).
Proof.
  unfold number_literal.
  assert (Hbody : forall sign s1,
    Forall (fun c => is_number_code c = true) sign ->
    match s1 with
    | [] => None
    | c :: s2 =>
        if is_digit_code c then
          let '(integer, r) :=
            if (c =? chr "0")%Z then ([c], s2) else span_digits s1 in
          let '(frac, r) := span_fraction r in
          let '(exp, r) := span_exponent r in
          Some (sign ++ integer ++ frac ++ exp, length integer,
                negb (bool_decide (frac = [] /\ exp = [])), r)
        else None
    end = Some (text, digits, is_float, r) ->
    Forall (fun c => is_number_code c = true) text
    /\ exists c t integer, text = sign ++ integer /\ integer = c :: t
                            /\ is_digit_code c = true).
  { intros sign [|c s2] Hsign; [discriminate |].
    destruct (is_digit_code c) eqn:Hc; [| discriminate].
    destruct (if (c =? chr "0")%Z then _ else _) as [integer r0] eqn:Hi.
    apply integer_part_spec in Hi as [Hint [t ->]]; [| done].
    destruct (span_fraction r0) as [frac r1] eqn:Hf.
    apply span_fraction_spec in Hf.
    destruct (span_exponent r1) as [exp r2] eqn:He.
    apply span_exponent_spec in He.
    intros [= <- <- <- <-]. split.
    - apply Forall_app_2; [done |]. rewrite app_comm_cons.
      repeat apply Forall_app_2; done.
    - by exists c, (t ++ frac ++ exp), (c :: t ++ frac ++ exp). }
  destruct s as [|c s']; [discriminate |].
  destruct (Z.eqb_spec c (chr "-")) as [-> | Hne].
  - intros H. apply (Hbody [chr "-"] s') in H as [Hall (c & t & integer & -> & _ & _)];
      [| by repeat constructor].
    split; [done |]. eexists _, _. split; [reflexivity | by left].
  - intros H. apply (Hbody [] (c :: s')) in H as [Hall (c' & t & integer & -> & -> & Hc)];
      [| constructor].
    split; [done |]. eexists _, _. split; [reflexivity | by right].
Qed.

Lemma number_codes_well_formed (text : list Z) :
  Forall (fun c => is_number_code c = true) text -> well_formed_text text.
Proof.
  intros H. eapply Forall_impl; [exact H |].
  intros c. unfold is_number_code, is_scalar_value. lia.
Qed.

Lemma number_head_starts_value (c : Z) (t : list Z) :
  c = chr "-" \/ is_digit_code c = true -> starts_value (c :: t).
Proof.
  intros [-> | Hc]; [done |].
  unfold is_digit_code in Hc. cbn. unfold is_ws.
  repeat split; try (intros ->; done).
  repeat (rewrite (proj2 (Z.eqb_neq c _)) by lia). done.
Qed.

(** *** Integers *)

Lemma span_digits_cons (c : Z) (s : list Z) :
  span_digits (c :: s)
  = if is_digit_code c then let '(ds, r) := span_digits s in (c :: ds, r)
    else ([], c :: s).
Proof. reflexivity. Qed.

Lemma span_digits_uint (u : Decimal.uint) :
  span_digits (codes (NilEmpty.string_of_uint u))
  = (codes (NilEmpty.string_of_uint u), []).
Proof.
  induction u as [|u IH|u IH|u IH|u IH|u IH|u IH|u IH|u IH|u IH|u IH];
    cbn [NilEmpty.string_of_uint]; [done | ..];
    rewrite codes_String, span_digits_cons, IH; reflexivity.
Qed.

Lemma nzhead_no_leading_zero (u u' : Decimal.uint) :
  Decimal.nzhead u <> Decimal.D0 u'.
Proof. induction u; simpl; congruence. Qed.

(** The decimal digits of a positive number do not start with a zero. *)
Lemma to_uint_leading_digit (p : positive) :
  match Pos.to_uint p with
  | Decimal.Nil | Decimal.D0 _ => False
  | _ => True
  end.
Proof.
  pose proof (DecimalPos.Unsigned.to_of (Pos.to_uint p)) as Hnorm.
  rewrite DecimalPos.Unsigned.of_to in Hnorm. simpl in Hnorm.
  pose proof (DecimalPos.Unsigned.to_uint_nonnil p) as Hnil.
  pose proof (DecimalPos.Unsigned.to_uint_nonzero p) as Hzero.
  destruct (Pos.to_uint p) as [|u| | | | | | | | |] eqn:Hp; try done.
  unfold Decimal.unorm in Hnorm. simpl in Hnorm.
  destruct (Decimal.nzhead u) eqn:Hu; try (by apply nzhead_no_leading_zero in Hu || congruence).
Qed.

Lemma number_literal_uint (negative : bool) (u : Decimal.uint) :
  match u with Decimal.Nil | Decimal.D0 _ => False | _ => True end ->
  number_literal ((if negative then [chr "-"] else [])
                  ++ codes (NilEmpty.string_of_uint u))
  = Some ((if negative then [chr "-"] else []) ++ codes (NilEmpty.string_of_uint u),
          String.length (NilEmpty.string_of_uint u), false, []).
Proof.
  intros Hu. rewrite <- length_codes.
  pose proof (span_digits_uint u) as Hspan.
  destruct u; try done; destruct negative;
    cbn [NilEmpty.string_of_uint] in *; rewrite codes_String in *;
    unfold number_literal; cbn [app];
    match goal with
    | |- context [((chr ?a) =? (chr "-"))%Z] =>
        change ((chr a) =? (chr "-"))%Z with false
    | _ => idtac
    end;
    match goal with
    | |- context [((chr "-") =? (chr "-"))%Z] =>
        change ((chr "-") =? (chr "-"))%Z with true
    | _ => idtac
    end;
    cbv iota;
    match goal with
    | |- context [is_digit_code (chr ?a)] =>
        change (is_digit_code (chr a)) with true;
        change ((chr a) =? (chr "0"))%Z with false
    end;
    cbv iota; rewrite Hspan; cbn [span_fraction span_exponent length];
    rewrite !app_nil_r; reflexivity.
Qed.

Lemma number_literal_str_of_Z (z : Z) :
  number_literal (codes (str_of_Z z))
  = Some (codes (str_of_Z z), decimal_digits z, false, []).
Proof.
  unfold decimal_digits, str_of_Z. destruct z as [|p|p]; [reflexivity | |].
  - pose proof (to_uint_leading_digit p) as Hp.
    pose proof (number_literal_uint false (Pos.to_uint p) Hp) as Hn.
    change (Z.abs (Z.pos p)) with (Z.pos p).
    cbn [Z.to_int NilZero.string_of_int]. unfold NilZero.string_of_uint.
    by destruct (Pos.to_uint p).
  - pose proof (to_uint_leading_digit p) as Hp.
    pose proof (number_literal_uint true (Pos.to_uint p) Hp) as Hn.
    change (Z.abs (Z.neg p)) with (Z.pos p).
    cbn [Z.to_int NilZero.string_of_int]. unfold NilZero.string_of_uint.
    rewrite codes_String.
    by destruct (Pos.to_uint p).
Qed.

Lemma int_of_literal_str_of_Z (z : Z) :
  int_of_literal (codes (str_of_Z z)) = Some z.
Proof.
  unfold int_of_literal, str_of_Z. rewrite text_of_codes.
  rewrite NilZero.isi.
  - cbn. by rewrite DecimalZ.of_to.
  - destruct z as [|p|p]; cbn; try done.
    intros [= Hp]. by apply DecimalPos.Unsigned.to_uint_nonnil in Hp.
  - destruct z as [|p|p]; cbn; try done.
    intros [= Hp]. by apply DecimalPos.Unsigned.to_uint_nonnil in Hp.
Qed.

Lemma bind_Some {A B} (f : A -> option B) (x : A) : (Some x ≫= f) = f x.
Proof. reflexivity. Qed.

(** Reduce a bind whose argument has been rewritten to a result. *)
Ltac bind_step := rewrite bind_Some; cbv beta iota.

Lemma scan_number_str_of_Z (py : Interpreter) (z : Z) (rest : list Z) :
  within_digit_limit py (decimal_digits z) = true ->
  value_end rest ->
  scan_number py (codes (str_of_Z z) ++ rest) = Some (OInt z, rest).
Proof.
  intros Hlimit Hrest. unfold scan_number.
  rewrite (number_literal_app _ rest Hrest _ _ _ _ (number_literal_str_of_Z z)).
  bind_step. rewrite Hlimit, int_of_literal_str_of_Z. reflexivity.
Qed.

(** Evaluate the code points of the characters in the goal. *)
Ltac eval_chr :=
  repeat match goal with
         | |- context [chr ?a] =>
             let v := eval vm_compute in (chr a) in change (chr a) with v
         end.

(** A text that starts like a number is read as a number or as one of the
    constants. *)
Lemma scan_once_number (py : Interpreter) (depth : nat) (c : Z) (s : list Z) :
  c = chr "-" \/ is_digit_code c = true ->
  scan_once py depth (c :: s)
  = match scan_number py (c :: s) with
    | Some r => Some r
    | None => scan_constant (c :: s)
    end.
Proof.
  intros [-> | Hc]; [by destruct depth |].
  unfold is_digit_code in Hc.
  destruct depth; cbn [scan_once]; eval_chr;
    repeat (rewrite (proj2 (Z.eqb_neq c _)) by lia); reflexivity.
Qed.

Lemma scan_once_float (py : Interpreter) (x : spec_float) (depth : nat) (rest : list Z) :
  float_reads_back py x ->
  value_end rest ->
  starts_value (floatstr py x)
  /\ well_formed_text (floatstr py x)
  /\ scan_once py depth (floatstr py x ++ rest) = Some (OFloat x, rest).
Proof.
  intros Hx Hrest.
  assert (Hfinite : forall text,
            floatstr py x = text ->
            (exists digits, number_literal text = Some (text, digits, true, [])) ->
            float_of_literal py text = x ->
            starts_value text /\ well_formed_text text
            /\ scan_once py depth (text ++ rest) = Some (OFloat x, rest)).
  { intros text _ [digits Hlit] Hback.
    destruct (number_literal_text _ _ _ _ _ Hlit) as [Hcodes (c & t & -> & Hc)].
    split; [by apply number_head_starts_value |].
    split; [by apply number_codes_well_formed |].
    rewrite <- app_comm_cons, scan_once_number by done.
    rewrite app_comm_cons. unfold scan_number.
    rewrite (number_literal_app _ rest Hrest _ _ _ _ Hlit). bind_step.
    by rewrite Hback. }
  destruct x as [sign | sign | | sign m e]; cbn [float_reads_back] in Hx.
  - destruct Hx as [Hlit Hback]. by apply Hfinite.
  - destruct sign; (split; [done |]); (split; [by repeat constructor |]);
      by destruct depth.
  - done.
  - destruct Hx as [Hlit Hback]. by apply Hfinite.
Qed.

(** *** The layout of an indented document *)

Lemma skip_ws_newline_indent (level : nat) (t : list Z) :
  skip_ws (newline_indent level ++ t) = skip_ws t.
Proof.
  unfold newline_indent. generalize (4 * level)%nat. intros n.
  change (skip_ws (repeat 32%Z n ++ t) = skip_ws t).
  induction n as [|n IH]; [done | exact IH].
Qed.

Lemma skip_ws_starts_value (t r : list Z) :
  starts_value t -> skip_ws (t ++ r) = t ++ r.
Proof. destruct t as [|c t]; simpl; [done |]. by intros [-> _]. Qed.

Lemma starts_value_app (t r : list Z) :
  starts_value t -> starts_value (t ++ r).
Proof. by destruct t. Qed.

Lemma value_end_newline_indent (level : nat) (r : list Z) :
  value_end (newline_indent level ++ r).
Proof. by right. Qed.

Lemma join_chars_cons (sep x : list Z) (items : list (list Z)) :
  items <> [] ->
  join_chars sep (x :: items) = x ++ sep ++ join_chars sep items.
Proof. by destruct items. Qed.

Lemma starts_value_join (sep x : list Z) (items : list (list Z)) :
  starts_value x -> starts_value (join_chars sep (x :: items)).
Proof.
  intros Hx. destruct items as [|y items]; [done |].
  rewrite join_chars_cons by done. by apply starts_value_app.
Qed.

Lemma newline_indent_well_formed (level : nat) :
  well_formed_text (newline_indent level).
Proof.
  unfold newline_indent. constructor; [done |].
  apply Forall_forall. by intros c ->%list_elem_of_In%repeat_spec.
Qed.

Lemma join_chars_well_formed (sep : list Z) (items : list (list Z)) :
  well_formed_text sep -> Forall well_formed_text items ->
  well_formed_text (join_chars sep items).
Proof.
  intros Hsep. induction 1 as [|x items Hx Hitems IH]; [constructor |].
  destruct items as [|y items]; [done |].
  rewrite join_chars_cons by done. by repeat apply Forall_app_2.
Qed.

Lemma encode_container_well_formed (opening closing : Z) (level : nat)
    (items : list (list Z)) :
  is_scalar_value opening = true -> is_scalar_value closing = true ->
  Forall well_formed_text items ->
  well_formed_text (encode_container opening closing level items).
Proof.
  intros Ho Hc Hitems. unfold encode_container.
  destruct items as [|x items]; [by repeat constructor |].
  constructor; [done |].
  repeat apply Forall_app_2; try apply newline_indent_well_formed.
  - apply join_chars_well_formed; [| done].
    constructor; [done | apply newline_indent_well_formed].
  - by repeat constructor.
Qed.

Lemma encode_container_app (opening closing : Z) (level : nat)
    (x : list Z) (items : list (list Z)) (rest : list Z) :
  encode_container opening closing level (x :: items) ++ rest
  = opening :: newline_indent (S level)
    ++ (join_chars (chr "," :: newline_indent (S level)) (x :: items)
        ++ newline_indent level ++ closing :: rest).
Proof.
  unfold encode_container. cbn [app]. by rewrite <- !app_assoc.
Qed.

Lemma length_join_chars_items (sep : list Z) (items : list (list Z)) :
  Forall starts_value items -> (length items <= length (join_chars sep items))%nat.
Proof.
  induction 1 as [|x items Hx Hitems IH]; [done |].
  destruct items as [|y items].
  - destruct x; [done |]. simpl. lia.
  - rewrite join_chars_cons by done. rewrite !length_app.
    destruct x; [done |]. simpl in *. lia.
Qed.

Lemma starts_with_close (c : Z) (s : list Z) :
  starts_value s -> c = chr "]" \/ c = chr "}" -> starts_with c s = None.
Proof.
  destruct s as [|x r]; [done |]. intros (_ & Hb & Hc) Hclose. simpl.
  destruct (Z.eqb_spec x c) as [->|]; [| done].
  by destruct Hclose.
Qed.

(** *** The loops of the decoder *)

Section ArrayLoop.
Variable scan : list Z -> option (PyObj * list Z).
Variable level : nat.
Variable rest : list Z.

Lemma JSONArray_items (l : list PyObj) (items : list (list Z)) :
  Forall2 (item_ok scan) l items ->
  l <> [] ->
  forall n, (length l <= n)%nat ->
    JSONArray scan n
      (join_chars (chr "," :: newline_indent (S level)) items
       ++ newline_indent level ++ chr "]" :: rest)
    = Some (l, rest).
Proof.
  induction 1 as [|x t l items [Ht Hscan] Hrest IH]; [done |].
  intros _ [|n] Hn; [simpl in Hn; lia |].
  destruct Hrest as [|x2 t2 l items Hx2 Hrest].
  - cbn [join_chars JSONArray].
    rewrite Hscan by apply value_end_newline_indent. bind_step.
    by rewrite skip_ws_newline_indent.
  - rewrite join_chars_cons by done.
    cbn [JSONArray]. rewrite <- !app_assoc.
    rewrite Hscan by by left. bind_step.
    change (skip_ws ((chr "," :: newline_indent (S level)) ++ ?r))
      with (chr "," :: newline_indent (S level) ++ r).
    cbv iota.
    change (chr "," =? chr "]")%Z with false.
    change (chr "," =? chr ",")%Z with true.
    cbv iota.
    rewrite skip_ws_newline_indent, skip_ws_starts_value
      by (destruct Hx2; by apply starts_value_join).
    rewrite IH; [done | done | simpl in *; lia].
Qed.
End ArrayLoop.

Section ObjectLoop.
Variable scan : list Z -> option (PyObj * list Z).
Variable level : nat.
Variable rest : list Z.

Lemma pair_ok_starts (kv : ObjKey * PyObj) (item : list Z) :
  pair_ok scan kv item -> starts_value item.
Proof. by intros (s & t & _ & -> & _). Qed.

Lemma JSONObject_pair (kv : ObjKey * PyObj) (item tail : list Z) (n : nat) :
  pair_ok scan kv item ->
  (exists s, fst kv = KeyStr s /\ well_formed_text s) ->
  value_end tail ->
  JSONObject scan (S n) (item ++ tail)
  = match skip_ws tail with
    | c :: r =>
        if (c =? chr "}")%Z then Some ([kv], r)
        else if (c =? chr ",")%Z then
          '(pairs, r) ← JSONObject scan n (skip_ws r); Some (kv :: pairs, r)
        else None
    | [] => None
    end.
Proof.
  intros (s & t & Hk & -> & Ht & Hscan) (s' & Hk' & Hs) Htail.
  destruct kv as [k v]. simpl in Hk, Hk', Hscan. subst k.
  injection Hk' as <-.
  cbn [JSONObject]. unfold encode_basestring.
  cbn [app].
  change (expect [chr dquote] (chr dquote :: ?r)) with (Some r).
  bind_step.
  rewrite <- !app_assoc. cbn [app].
  rewrite scanstring_escaped by by apply well_formed_nonnegative.
  bind_step.
  change (codes ": " ++ ?r) with (chr ":" :: 32%Z :: r).
  change (skip_ws (chr ":" :: 32%Z :: ?r)) with (chr ":" :: 32%Z :: r).
  change (expect [chr ":"] (chr ":" :: ?r)) with (Some r).
  bind_step.
  change (skip_ws (32%Z :: ?r)) with (skip_ws r).
  rewrite skip_ws_starts_value by done.
  rewrite Hscan by done. by bind_step.
Qed.

Lemma JSONObject_items (d : list (ObjKey * PyObj)) (items : list (list Z)) :
  Forall2 (pair_ok scan) d items ->
  Forall (fun kv => exists s, fst kv = KeyStr s /\ well_formed_text s) d ->
  d <> [] ->
  forall n, (length d <= n)%nat ->
    JSONObject scan n
      (join_chars (chr "," :: newline_indent (S level)) items
       ++ newline_indent level ++ chr "}" :: rest)
    = Some (d, rest).
Proof.
  induction 1 as [|kv item d items Hkv Hrest IH]; [done |].
  intros [Hkey Hkeys]%Forall_cons _ [|n] Hn; [simpl in Hn; lia |].
  destruct Hrest as [|kv2 item2 d items Hkv2 Hrest].
  - cbn [join_chars].
    rewrite (JSONObject_pair _ _ _ _ Hkv Hkey) by apply value_end_newline_indent.
    by rewrite skip_ws_newline_indent.
  - rewrite join_chars_cons by done. rewrite <- !app_assoc.
    rewrite (JSONObject_pair _ _ _ _ Hkv Hkey) by by left.
    change (skip_ws ((chr "," :: newline_indent (S level)) ++ ?r))
      with (chr "," :: newline_indent (S level) ++ r).
    cbv iota.
    change (chr "," =? chr "}")%Z with false.
    change (chr "," =? chr ",")%Z with true.
    cbv iota.
    rewrite skip_ws_newline_indent, skip_ws_starts_value
      by (eapply starts_value_join, pair_ok_starts; exact Hkv2).
    rewrite IH; [done | done | done | simpl in *; lia].
Qed.
End ObjectLoop.

(** Assigning to a key that is not in the dict appends the item. *)
Lemma od_set_fresh {K V} `{EqDecision K} (d : list (K * V)) (k : K) (v : V) :
  k ∉ fst <$> d -> od_set d k v = d ++ [(k, v)].
Proof.
  induction d as [|[k' v'] d IH]; simpl; [done |].
  intros Hk. apply not_elem_of_cons in Hk as [Hne Hk].
  rewrite decide_False by done. by rewrite IH.
Qed.

Lemma dict_of_pairs_app (pairs acc : list (ObjKey * PyObj)) :
  NoDup (fst <$> acc ++ pairs) ->
  foldl (fun d kv => od_set d (fst kv) (snd kv)) acc pairs = acc ++ pairs.
Proof.
  revert acc. induction pairs as [|[k v] pairs IH]; intros acc Hnd; simpl.
  - by rewrite app_nil_r.
  - rewrite od_set_fresh.
    + rewrite IH; rewrite <- app_assoc; [done | exact Hnd].
    + rewrite fmap_app in Hnd. apply NoDup_app in Hnd as (_ & Hdis & _).
      intros Hin. apply (Hdis _ Hin). by left.
Qed.

Lemma dict_of_pairs_NoDup (d : list (ObjKey * PyObj)) :
  NoDup (fst <$> d) -> dict_of_pairs d = d.
Proof. intros Hnd. unfold dict_of_pairs. by rewrite dict_of_pairs_app. Qed.

(** *** The round trip *)

Lemma reads_back_item (py : Interpreter) (level depth : nat) (v : PyObj) (t : list Z) :
  reads_back py level v t -> (level + depth = load_depth py)%nat ->
  item_ok (scan_once py depth) v t.
Proof. intros (Ht & _ & Hscan) Hd. split; [done |]. intros rest. by apply Hscan. Qed.

Lemma reads_back_items (py : Interpreter) (level depth : nat) (l : list PyObj)
    (items : list (list Z)) :
  Forall2 (reads_back py level) l items ->
  (level + depth = load_depth py)%nat ->
  Forall2 (item_ok (scan_once py depth)) l items
  /\ Forall starts_value items /\ Forall well_formed_text items.
Proof.
  intros Hall Hd. induction Hall as [|x t l items Hx _ (IH1 & IH2 & IH3)].
  - by repeat constructor.
  - pose proof (reads_back_item _ _ _ _ _ Hx Hd).
    destruct Hx as (? & ? & _). split; [| split]; by constructor.
Qed.

Lemma reads_back_pairs (py : Interpreter) (level depth : nat)
    (d : list (ObjKey * PyObj)) (items : list (list Z)) :
  Forall2 (pair_reads_back py level) d items ->
  (level + depth = load_depth py)%nat ->
  Forall2 (pair_ok (scan_once py depth)) d items
  /\ Forall starts_value items /\ Forall well_formed_text items.
Proof.
  intros Hall Hd.
  induction Hall as [|kv item d items (s & t & Hk & Hs & -> & Hrb) _ (IH1 & IH2 & IH3)].
  - by repeat constructor.
  - pose proof (reads_back_item _ _ _ _ _ Hrb Hd).
    destruct Hrb as (? & ? & _).
    split; [| split].
    + constructor; [| done]. by exists s, t.
    + by constructor.
    + constructor; [| done].
      apply Forall_app_2; [by apply encode_basestring_well_formed |].
      apply Forall_app_2; [by repeat constructor | done].
Qed.

Lemma encode_members (py : Interpreter) (level : nat) (l : list PyObj) :
  Forall (fun x => forall level, round_trips py level x ->
            exists t, json_encode py level x = Some t /\ reads_back py level x t) l ->
  Forall (round_trips py level) l ->
  exists items,
    mapM (json_encode py level) l = Some items
    /\ Forall2 (reads_back py level) l items.
Proof.
  induction 1 as [|x l Hx _ IH]; intros Hnat.
  - by exists [].
  - apply Forall_cons in Hnat as [Hnx Hnl].
    destruct (Hx level Hnx) as (t & Ht & Hrb).
    destruct (IH Hnl) as (items & Hitems & Hall).
    exists (t :: items). split; [| by constructor].
    apply mapM_Some. constructor; [done |]. by apply mapM_Some.
Qed.

Lemma encode_pairs (py : Interpreter) (level : nat) (d : list (ObjKey * PyObj)) :
  Forall (fun kv => forall level, round_trips py level (snd kv) ->
            exists t, json_encode py level (snd kv) = Some t
                      /\ reads_back py level (snd kv) t) d ->
  Forall (fun kv => (exists s, fst kv = KeyStr s /\ well_formed_text s)
                    /\ round_trips py level (snd kv)) d ->
  exists items,
    mapM (fun kv =>
            k ← key_string py (fst kv);
            t ← json_encode py level (snd kv);
            Some (encode_basestring k ++ codes ": " ++ t)) d
    = Some items
    /\ Forall2 (pair_reads_back py level) d items.
Proof.
  induction 1 as [|[k x] d Hx _ IH]; intros Hnat.
  - by exists [].
  - apply Forall_cons in Hnat as [[(s & Hs & Hwf) Hnx] Hnd].
    cbn [fst snd] in Hs, Hx, Hnx. subst k.
    destruct (Hx level Hnx) as (t & Ht & Hrb).
    destruct (IH Hnd) as (items & Hitems & Hall).
    exists ((encode_basestring s ++ codes ": " ++ t) :: items). split.
    + apply mapM_Some. constructor; [| by apply mapM_Some].
      cbn [fst snd key_string]. bind_step. by rewrite Ht.
    + constructor; [| done]. by exists s, t.
Qed.

Lemma str_of_Z_head (z : Z) :
  exists c t, codes (str_of_Z z) = c :: t /\ (c = chr "-" \/ is_digit_code c = true).
Proof.
  destruct (number_literal_text _ _ _ _ _ (number_literal_str_of_Z z))
    as [_ (c & t & Ht & Hc)].
  by exists c, t.
Qed.

(** Every value that round-trips has a text at its nesting level, and the
    decoder reads the value back from it. *)
Lemma scan_once_json_encode (py : Interpreter) (v : PyObj) :
  forall level, round_trips py level v ->
    exists t, json_encode py level v = Some t /\ reads_back py level v t.
Proof.
  induction v as [| b | z | x | s | l IH | l IH | d IH | name] using PyObj_nested_ind;
    intros level Hrt.
  - exists (codes "null"). split; [done |]. split; [done |].
    split; [by repeat constructor |].
    intros depth rest _ _. by destruct depth.
  - exists (codes (if b then "true" else "false")).
    split; [by destruct b |]. split; [by destruct b |].
    split; [destruct b; by repeat constructor |].
    intros depth rest _ _. by destruct depth, b.
  - inversion Hrt as [| |? ? Hlimit| | | |]; subst.
    exists (codes (str_of_Z z)).
    split; [cbn [json_encode]; unfold int_repr; by rewrite Hlimit |].
    destruct (number_literal_text _ _ _ _ _ (number_literal_str_of_Z z))
      as [Hcodes (c & t & Ht & Hc)].
    split; [rewrite Ht; by apply number_head_starts_value |].
    split; [by apply number_codes_well_formed |].
    intros depth rest _ Hrest.
    rewrite Ht, <- app_comm_cons, scan_once_number by done.
    rewrite app_comm_cons, <- Ht. by rewrite scan_number_str_of_Z.
  - inversion Hrt as [| | |? ? Hx| | |]; subst.
    exists (floatstr py x). split; [done |].
    destruct (scan_once_float py x 0 [] Hx I) as (Hstart & Hwf & _).
    split; [done |]. split; [done |].
    intros depth rest _ Hrest. by apply scan_once_float.
  - inversion Hrt as [| | | |? ? Hs| |]; subst.
    exists (encode_basestring s). split; [done |]. split; [done |].
    split; [by apply encode_basestring_well_formed |].
    intros depth rest _ _.
    unfold encode_basestring. cbn [app].
    assert (Hstring : forall r,
              scan_once py depth (chr dquote :: r)
              = '(str, r') ← scanstring r; Some (OStr str, r'))
      by (intros r; by destruct depth).
    rewrite Hstring, <- app_assoc. cbn [app].
    rewrite scanstring_escaped by by apply well_formed_nonnegative.
    by bind_step.
  - inversion Hrt as [| | | | |? ? Hdump Hload Hl|]; subst.
    destruct (encode_members py (S level) l IH Hl) as (items & Hitems & Hall).
    exists (encode_container (chr "[") (chr "]") level items).
    split.
    { cbn [json_encode]. rewrite (proj2 (Nat.leb_gt _ _) Hdump).
      rewrite Hitems. by bind_step. }
    split; [by destruct items |].
    assert (Hwf : well_formed_text (encode_container (chr "[") (chr "]") level items)).
    { apply encode_container_well_formed; [done | done |].
      destruct (load_depth py) as [|depth] eqn:Hld; [lia |].
      apply (reads_back_items py (S level) (depth - level) l items Hall). lia. }
    split; [done |].
    intros [|depth] rest Hdepth Hrest; [lia |].
    destruct (reads_back_items py (S level) depth l items Hall ltac:(lia))
      as (Hitems' & Hstarts & _).
    pose proof (length_join_chars_items (chr "," :: newline_indent (S level)) _ Hstarts)
      as Hcount.
    pose proof (Forall2_length _ _ _ Hall) as Hsame.
    destruct Hall as [|x t l items Hx Hall]; [reflexivity |].
    rewrite encode_container_app.
    assert (Hopen : forall r,
              scan_once py (S depth) (chr "[" :: r)
              = match starts_with (chr "]") (skip_ws r) with
                | Some r' => Some (OList [], r')
                | None =>
                    '(values, r') ← JSONArray (scan_once py depth) (length r) (skip_ws r);
                    Some (OList values, r')
                end) by done.
    rewrite Hopen.
    apply Forall_cons in Hstarts as [Ht _].
    rewrite skip_ws_newline_indent, skip_ws_starts_value by by apply starts_value_join.
    rewrite starts_with_close
      by (by left || by apply starts_value_app, starts_value_join).
    rewrite (JSONArray_items _ level rest _ _ Hitems' ltac:(done)).
    + by bind_step.
    + rewrite !length_app. simpl in *. lia.
  - inversion Hrt.
  - inversion Hrt as [| | | | | |? ? Hdump Hload Hnd Hd]; subst.
    destruct (encode_pairs py (S level) d IH Hd) as (items & Hitems & Hall).
    exists (encode_container (chr "{") (chr "}") level items).
    split.
    { cbn [json_encode]. rewrite (proj2 (Nat.leb_gt _ _) Hdump).
      rewrite Hitems. by bind_step. }
    split; [by destruct items |].
    assert (Hwf : well_formed_text (encode_container (chr "{") (chr "}") level items)).
    { apply encode_container_well_formed; [done | done |].
      destruct (load_depth py) as [|depth] eqn:Hld; [lia |].
      apply (reads_back_pairs py (S level) (depth - level) d items Hall). lia. }
    split; [done |].
    intros [|depth] rest Hdepth Hrest; [lia |].
    destruct (reads_back_pairs py (S level) depth d items Hall ltac:(lia))
      as (Hitems' & Hstarts & _).
    pose proof (length_join_chars_items (chr "," :: newline_indent (S level)) _ Hstarts)
      as Hcount.
    pose proof (Forall2_length _ _ _ Hall) as Hsame.
    assert (Hkeys : Forall (fun kv => exists s, fst kv = KeyStr s /\ well_formed_text s) d).
    { eapply Forall_impl; [exact Hd |]. by intros kv [Hk _]. }
    destruct Hall as [|kv item d items Hkv Hall]; [reflexivity |].
    rewrite encode_container_app.
    assert (Hopen : forall r,
              scan_once py (S depth) (chr "{" :: r)
              = match starts_with (chr "}") (skip_ws r) with
                | Some r' => Some (ODict [], r')
                | None =>
                    '(pairs, r') ← JSONObject (scan_once py depth) (length r) (skip_ws r);
                    Some (ODict (dict_of_pairs pairs), r')
                end) by done.
    rewrite Hopen.
    apply Forall_cons in Hstarts as [Ht _].
    rewrite skip_ws_newline_indent, skip_ws_starts_value by by apply starts_value_join.
    rewrite starts_with_close
      by (by right || by apply starts_value_app, starts_value_join).
    rewrite (JSONObject_items _ level rest _ _ Hitems' Hkeys ltac:(done)).
    + bind_step. by rewrite dict_of_pairs_NoDup.
    + rewrite !length_app. simpl in *. lia.
  - inversion Hrt.
Qed.

(** The bytes of an export parse to every value that the decoder reads
    back from the text the encoder wrote. *)
Lemma export_json_reads (py : Interpreter) (d v : PyObj) (t : list Z) :
  is_container d ->
  json_dumps py d = Some t ->
  reads_back py 0 v t ->
  exists b, export_json py d = Some b /\ json_loads_bytes py b = Some v.
Proof.
  intros Hcont Ht (Hstart & Hwf & Hscan).
  destruct (proj2 (encode_utf8_is_Some t) Hwf) as [b Hb].
  exists b. split.
  - unfold export_json. rewrite Ht. by destruct d.
  - unfold json_loads_bytes. rewrite (decode_encode_utf8 t b Hb). bind_step.
    unfold json_loads.
    rewrite <- (app_nil_r t).
    rewrite skip_ws_starts_value by done.
    rewrite Hscan; [done | done | done].
Qed.

(** C7 (as amended).  For every dict or list built only from [None],
    booleans, integers within the limit of the interpreter for the
    conversion to text, floats other than NaN (which the conversions of the
    interpreter give back), strings without surrogates, lists and dicts
    whose keys are such strings, nested no deeper than the encoder and the
    decoder allow, [export_json] produces bytes, and parsing these bytes as
    JSON yields the value itself. *)
Theorem C7_json_round_trip (py : Interpreter) (d : PyObj) :
  round_trips py 0 d -> is_container d ->
  exists b, export_json py d = Some b /\ json_loads_bytes py b = Some d.
Proof.
  intros Hrt Hcont.
  destruct (scan_once_json_encode py d 0 Hrt) as (t & Ht & Hback).
  by apply (export_json_reads py d d t).
Qed.

(** Decide that a concrete value round-trips. *)
Ltac solve_round_trips :=
  repeat first
    [ apply round_trips_none | apply round_trips_bool
    | apply round_trips_int; vm_compute; reflexivity
    | apply round_trips_float;
      (split; [eexists; vm_compute; reflexivity | vm_compute; reflexivity])
    | apply round_trips_str; repeat constructor
    | apply round_trips_list; [cbn; lia | cbn; lia |]
    | apply round_trips_dict;
      [ cbn; lia | cbn; lia
      | apply (bool_decide_unpack _); vm_compute; exact I |]
    | apply Forall_nil_2 | apply Forall_cons_2
    | split; [eexists; split; [reflexivity | by repeat constructor] |] ].

Lemma C7_json_round_trip_witness :
  round_trips sample_python 0 sample_tables /\ is_container sample_tables
  /\ exists b, export_json sample_python sample_tables = Some b
               /\ json_loads_bytes sample_python b = Some sample_tables.
Proof.
  assert (Hrt : round_trips sample_python 0 sample_tables).
  { unfold sample_tables. solve_round_trips. }
  split; [exact Hrt |]. split; [exact I |].
  exact (C7_json_round_trip sample_python sample_tables Hrt I).
Defined.

(** C7 as stated fails for a dict with an integer key, which the encoder
    accepts: the key comes back as a string. *)
Lemma C7_integer_key_not_restored :
  exists b,
    export_json sample_python (ODict [(KeyInt 1, OStr (codes "a"))]) = Some b
    /\ json_loads_bytes sample_python b
       = Some (ODict [(KeyStr (codes "1"), OStr (codes "a"))])
    /\ json_loads_bytes sample_python b
       <> Some (ODict [(KeyInt 1, OStr (codes "a"))]).
Proof.
  eexists. split; [vm_compute; reflexivity |].
  split; [vm_compute; reflexivity | vm_compute; discriminate].
Qed.

(** A tuple is written as a list and comes back as one. *)
Example export_json_tuple :
  exists b,
    export_json sample_python (OList [OTuple [OInt 1; OInt 2]]) = Some b
    /\ json_loads_bytes sample_python b = Some (OList [OList [OInt 1; OInt 2]]).
Proof. eexists. split; [vm_compute; reflexivity |]. vm_compute. reflexivity. Qed.

(** What the export gives [None] for although the data is serialisable in
    the sense of the encoder's types: an integer of 4301 digits, a string
    with a lone surrogate, lists nested deeper than the encoder recurses.
    NaN is exported and comes back, but is not equal to itself in
    Python. *)
Example export_json_limits :
  export_json sample_python (OList [OInt (10 ^ 4300)]) = None
  /\ export_json sample_python (OList [OStr [55357%Z]]) = None
  /\ export_json sample_python (Nat.iter 300 (fun v => OList [v]) (OList [])) = None
  /\ float_reads_back sample_python S754_nan = False.
Proof. split; [| split; [| split]]; vm_compute; reflexivity. Qed.
(** * Further properties *)

(** ** The pages a back end reads, for every range *)

Lemma slice_plumber_pages (doc : PdfDoc) (a b : Z) :
  (0 <= a < b)%Z -> (b <= page_count doc)%Z ->
  py_slice (plumber_pages doc) (Some a) (Some b)
  = zip (seqZ (a + 1) (b - a)) (doc_pages_between doc a b).
Proof.
  intros Hab Hb. unfold py_slice, slice_bound. rewrite length_plumber_pages.
  destruct (Z.ltb_spec a 0); [lia |]. destruct (Z.ltb_spec b 0); [lia |].
  rewrite !Z.min_r by lia.
  unfold plumber_pages, doc_pages_between.
  rewrite (zip_with_drop pair), (zip_with_take pair).
  rewrite slice_seqZ by lia. f_equal. f_equal. lia.
Qed.

Lemma length_doc_pages_between (doc : PdfDoc) (a b : Z) :
  (0 <= a <= b)%Z -> (b <= page_count doc)%Z ->
  length (doc_pages_between doc a b) = Z.to_nat (b - a).
Proof.
  intros Hab Hb. unfold doc_pages_between, page_count in *.
  rewrite length_take, length_drop. lia.
Qed.

(** X1.  For every page range, also one that starts below 1 or ends behind
    the document, the plain-text, layout and OCR back ends select exactly
    the pages of the range that the document has, from [max 1 s] to
    [min page_count e] in order (none when that interval is empty); without
    a range they select every page. *)
Theorem pages_processed_clamped (doc : PdfDoc) (s e : Z) (f : Parser) :
  f = PyMuPDF \/ f = Pdfplumber \/ f = Ocr ->
  pages_processed f doc (Some (s, e))
  = Some (seqZ (Z.max 1 s) (Z.min (page_count doc) e - Z.max 1 s + 1))
  /\ pages_processed f doc None = Some (seqZ 1 (page_count doc)).
Proof.
  pose proof (page_count_nonneg doc) as Hn.
  intros [-> | [-> | ->]]; unfold pages_processed.
  - unfold pymupdf_pages_to_process, py_range. rewrite !fmap_succ_seqZ.
    split; do 2 f_equal; lia.
  - unfold pdfplumber_pages_to_process. rewrite length_plumber_pages.
    split; [| f_equal; apply fst_plumber_pages].
    destruct (Z.leb_spec (Z.min (page_count doc) e) (Z.max 0 (s - 1))).
    + by rewrite seqZ_nil by lia.
    + rewrite slice_plumber_pages by lia.
      rewrite fst_zip by (rewrite length_seqZ, length_doc_pages_between; lia).
      do 2 f_equal; lia.
  - unfold ocr_pages_to_process, py_range.
    split; [| rewrite fmap_succ_seqZ; do 2 f_equal; lia].
    destruct (Z.leb_spec (Z.min (page_count doc) e) (Z.max 0 (s - 1))).
    + by rewrite seqZ_nil by lia.
    + rewrite fmap_succ_seqZ. do 2 f_equal; lia.
Qed.

Lemma pages_processed_clamped_witness :
  pages_processed Pdfplumber sample_doc (Some (-4, 7)%Z) = Some [1; 2; 3]%Z
  /\ pages_processed Pdfplumber sample_doc None = Some [1; 2; 3]%Z.
Proof.
  apply (pages_processed_clamped sample_doc (-4) 7 Pdfplumber). right. by left.
Defined.

(** ** What the in-process back ends return *)

(** The page loop of the plain-text back end on pages that load and give
    their text. *)
Lemma pymupdf_texts_read (doc : PdfDoc) (nums : list Z) (texts : list string) :
  Forall2 (fun n text => exists p, load_page doc n = inr p /\ get_text p = inr text)
    nums texts ->
  pymupdf_texts doc nums = inr texts.
Proof.
  induction 1 as [|n text nums texts (p & Hp & Ht) _ IH]; cbn [pymupdf_texts]; [done |].
  by rewrite Hp, Ht, IH.
Qed.

(** The loop stops at the first page that does not load or does not give
    its text. *)
Lemma pymupdf_texts_fails (doc : PdfDoc) (front rest : list Z) (n : Z) (e : Exception) :
  Forall (fun m => exists p text, load_page doc m = inr p /\ get_text p = inr text) front ->
  (load_page doc n = inl e \/ exists p, load_page doc n = inr p /\ get_text p = inl e) ->
  pymupdf_texts doc (front ++ n :: rest) = inl e.
Proof.
  intros Hfront Hn.
  induction Hfront as [|m front (p & text & Hp & Ht) _ IH]; cbn [app pymupdf_texts].
  - destruct Hn as [-> | (p & -> & ->)]; done.
  - by rewrite Hp, Ht, IH.
Qed.

(** X2.  Once PyMuPDF opens the document, the result of [parse_pymupdf]
    holds the metadata of the document.  When every selected page loads
    and gives its text, the result has no error (for any page range, a
    reversed or empty one included) and its text is the newline-join of
    these texts in page order.  When a selected page does not load or does
    not give its text, the result has the error of the first such page and
    an empty text; the metadata stays in the result. *)
Theorem parse_pymupdf_opened (w : World) (pdf_path : string) (doc : PdfDoc)
    (page_range : option (Z * Z)) :
  fitz_open w pdf_path = inr doc ->
  let result := parse_pymupdf w pdf_path page_range in
  let nums := pymupdf_pages_to_process (page_count doc) page_range in
  result !! "metadata" = Some (metadata doc)
  /\ (forall texts,
        Forall2 (fun n text => exists p, load_page doc n = inr p /\ get_text p = inr text)
          nums texts ->
        result !! "error" = Some VNone
        /\ result !! "text" = Some (VStr (join nl texts)))
  /\ (forall front n rest e,
        nums = front ++ n :: rest ->
        Forall (fun m => exists p text, load_page doc m = inr p /\ get_text p = inr text)
          front ->
        (load_page doc n = inl e
         \/ exists p, load_page doc n = inr p /\ get_text p = inl e) ->
        result !! "error" = Some (VStr ("PyMuPDF Error: " +:+ e))
        /\ result !! "text" = Some (VStr "")).
Proof.
  intros Hopen result nums. subst result nums. unfold parse_pymupdf. rewrite Hopen.
  split; [| split].
  - destruct (pymupdf_texts _ _); by simplify_map_eq.
  - intros texts Htexts. rewrite (pymupdf_texts_read _ _ _ Htexts).
    split; by simplify_map_eq.
  - intros front n rest e -> Hfront Hn.
    rewrite (pymupdf_texts_fails _ _ _ _ _ Hfront Hn). split; by simplify_map_eq.
Qed.

Lemma parse_pymupdf_opened_witness :
  (parse_pymupdf sample_world "PDF/sample.pdf" (Some (2, 9)%Z) !! "error" = Some VNone
   /\ parse_pymupdf sample_world "PDF/sample.pdf" (Some (2, 9)%Z) !! "text"
      = Some (VStr (join nl ["two"; "three"])))
  /\ (parse_pymupdf locked_world "PDF/sample.pdf" None !! "error"
      = Some (VStr "PyMuPDF Error: document closed or encrypted")
      /\ parse_pymupdf locked_world "PDF/sample.pdf" None !! "text" = Some (VStr "")).
Proof.
  split.
  - destruct (parse_pymupdf_opened sample_world "PDF/sample.pdf" sample_doc
                (Some (2, 9)%Z) eq_refl) as (_ & Hread & _).
    apply (Hread ["two"; "three"]).
    repeat (constructor; [eexists; split; reflexivity |]). constructor.
  - destruct (parse_pymupdf_opened locked_world "PDF/sample.pdf" locked_doc None eq_refl)
      as (_ & _ & Hfail).
    apply (Hfail [] 0%Z [1%Z] "document closed or encrypted");
      [reflexivity | constructor | by left].
Defined.

(** The loop of the layout back end appends, page by page, the kept text
    and the table records of what it extracts. *)
Lemma pdfplumber_collect_spec (ps : list (Z * PdfPage))
    (xs : list (option string * list PyVal)) :
  Forall2 (fun np x => extracted (snd np) = inr x) ps xs ->
  forall full_text all_tables,
    pdfplumber_collect ps full_text all_tables
    = inr (full_text ++ omap (fun x => kept_text (fst x)) xs,
           all_tables
           ++ concat (zip_with (fun np x => page_table_records (fst np) (snd x)) ps xs)).
Proof.
  induction 1 as [|[n p] [text tables] ps xs Hx _ IH]; intros ft tbs;
    cbn [pdfplumber_collect].
  - by rewrite !app_nil_r.
  - unfold extracted in Hx. cbn [snd] in Hx.
    destruct (extract_text p) as [e|text']; [discriminate |].
    destruct (extract_tables p) as [e|tables']; [discriminate |].
    injection Hx as -> ->. rewrite IH.
    cbn [omap list_omap zip_with concat fst snd]. unfold kept_text at 2.
    unfold page_table_records at 2.
    destruct text as [text|]; [destruct (String.eqb text "") |];
      cbn; by rewrite <- ?app_assoc.
Qed.

Lemma pdfplumber_collect_fails (front rest : list (Z * PdfPage)) (np : Z * PdfPage)
    (e : Exception) :
  Forall (fun q => exists x, extracted (snd q) = inr x) front ->
  extracted (snd np) = inl e ->
  forall full_text all_tables,
    pdfplumber_collect (front ++ np :: rest) full_text all_tables = inl e.
Proof.
  intros Hfront Hnp.
  induction Hfront as [|[m q] front (x & Hx) _ IH]; intros ft tbs;
    cbn [app pdfplumber_collect].
  - destruct np as [n p]. unfold extracted in Hnp. cbn [snd] in Hnp.
    destruct (extract_text p) as [e1|text]; [by injection Hnp as -> |].
    destruct (extract_tables p) as [e2|tables]; [by injection Hnp as -> | discriminate].
  - unfold extracted in Hx. cbn [snd] in Hx.
    destruct (extract_text q) as [e1|text]; [discriminate |].
    destruct (extract_tables q) as [e2|tables]; [discriminate |]. apply IH.
Qed.

(** X3.  When pdfplumber opens the document and the range is not rejected:
    if every selected page gives its text and its tables, the result has
    no error, its text joins the texts with the page separator, leaving
    out the pages without text, and its tables are the tables of these
    pages in page order, each with the 1-based number of its page and its
    index on that page; if an extraction raises, the result has the error
    of the first one that does, an empty text and no table.  The selected
    pages are pages of the document, under their 1-based numbers. *)
Theorem parse_pdfplumber_opened (w : World) (pdf_path : string) (doc : PdfDoc)
    (page_range : option (Z * Z)) (ps : list (Z * PdfPage)) :
  pdfplumber_open w pdf_path = inr doc ->
  pdfplumber_pages_to_process (plumber_pages doc) page_range = inr ps ->
  let result := parse_pdfplumber w pdf_path page_range in
  (forall xs,
     Forall2 (fun np x => extracted (snd np) = inr x) ps xs ->
     result !! "error" = Some VNone
     /\ result !! "text"
        = Some (VStr (join (nl +:+ "---" +:+ nl) (omap (fun x => kept_text (fst x)) xs)))
     /\ result !! "tables"
        = Some (VList (concat (zip_with
                                 (fun np x => page_table_records (fst np) (snd x)) ps xs))))
  /\ (forall front np rest e,
        ps = front ++ np :: rest ->
        Forall (fun q => exists x, extracted (snd q) = inr x) front ->
        extracted (snd np) = inl e ->
        result !! "error" = Some (VStr (pdfplumber_error e))
        /\ result !! "text" = Some (VStr "")
        /\ result !! "tables" = Some (VList []))
  /\ Forall (fun np => 1 <= fst np <= page_count doc
                       /\ pages doc !! Z.to_nat (fst np - 1) = Some (snd np))%Z ps.
Proof.
  intros Hopen Hps result. subst result. unfold parse_pdfplumber.
  rewrite Hopen, Hps. split; [| split].
  - intros xs Hxs. rewrite (pdfplumber_collect_spec _ _ Hxs). cbn [app].
    repeat split; by simplify_map_eq.
  - intros front np rest e -> Hfront Hnp.
    rewrite (pdfplumber_collect_fails _ _ _ _ Hfront Hnp).
    repeat split; by simplify_map_eq.
  - assert (Hall : Forall (fun np => 1 <= fst np <= page_count doc
                     /\ pages doc !! Z.to_nat (fst np - 1) = Some (snd np))%Z
                     (plumber_pages doc)).
    { apply Forall_forall. intros [n p] Hin.
      apply list_elem_of_lookup in Hin as [i Hi].
      unfold plumber_pages in Hi. apply lookup_zip_with_Some in Hi.
      destruct Hi as (n' & p' & [= <- <-] & Hn & Hp).
      apply lookup_seqZ in Hn as [-> Hi]. simpl.
      split; [lia |]. by replace (Z.to_nat (1 + Z.of_nat i - 1)) with i by lia. }
    destruct page_range as [[s e]|]; simpl in Hps.
    + destruct (_ <=? _)%Z; [discriminate |]. injection Hps as <-.
      unfold py_slice. by apply Forall_take, Forall_drop.
    + by injection Hps as <-.
Qed.

Lemma parse_pdfplumber_opened_witness :
  parse_pdfplumber scanned_world "PDF/scan.pdf" None !! "error" = Some VNone
  /\ parse_pdfplumber scanned_world "PDF/scan.pdf" None !! "text" = Some (VStr "second")
  /\ parse_pdfplumber scanned_world "PDF/scan.pdf" None !! "tables"
     = Some (VList [table_record 1 0 (VList [VList [VStr "a"; VNone]]);
                    table_record 1 1 (VList [])]).
Proof.
  destruct (parse_pdfplumber_opened scanned_world "PDF/scan.pdf" scanned_doc None
              (plumber_pages scanned_doc) eq_refl eq_refl) as (Hread & _ & _).
  apply (Hread [(None, [VList [VList [VStr "a"; VNone]]; VList []]); (Some "second", [])]).
  repeat (constructor; [reflexivity |]). constructor.
Defined.



(** The loop ends at the first page for which Tesseract is missing. *)
Lemma ocr_loop_not_found (doc : PdfDoc) (lang : string) (dpi : Z)
    (front rest : list Z) (n : Z) (p : PdfPage) :
  Forall (fun m => exists q, renders doc dpi m q) front ->
  renders doc dpi n p ->
  image_to_string p lang dpi = TesseractNotFound ->
  forall full_text,
    ocr_loop doc lang dpi (front ++ n :: rest) full_text = OcrNoTesseract.
Proof.
  intros Hfront [Hp Hpix] Hmissing.
  induction Hfront as [|m front (q & [Hq Hqpix]) _ IH]; intros ft; cbn [app ocr_loop].
  - by rewrite Hp, Hpix, Hmissing.
  - rewrite Hq, Hqpix. destruct (image_to_string q lang dpi); [apply IH | done | apply IH].
Qed.



(** X5.  When the document opens and the range is not rejected, the pages
    before some selected page load and render, and that page loads and
    renders but Tesseract is missing for it, [parse_ocr] returns the
    Tesseract error with an empty text: what earlier pages gave is not
    returned. *)
Theorem parse_ocr_tesseract_missing (w : World) (pdf_path lang : string) (dpi : Z)
    (page_range : option (Z * Z)) (doc : PdfDoc) (front rest : list Z) (n : Z)
    (p : PdfPage) :
  fitz_open w pdf_path = inr doc ->
  ocr_pages_to_process (page_count doc) page_range = inr (front ++ n :: rest) ->
  Forall (fun m => exists q, renders doc dpi m q) front ->
  renders doc dpi n p ->
  image_to_string p lang dpi = TesseractNotFound ->
  exists result,
    parse_ocr w pdf_path lang page_range dpi = inr result
    /\ result !! "error" = Some (VStr tesseract_missing)
    /\ result !! "text" = Some (VStr "").
Proof.
  intros Hopen Hnums Hfront Hn Hmissing.
  unfold parse_ocr.
  rewrite Hopen, Hnums, (ocr_loop_not_found _ _ _ _ _ _ _ Hfront Hn Hmissing).
  eexists. split; [reflexivity |]. split; by simplify_map_eq.
Qed.

Lemma parse_ocr_tesseract_missing_witness :
  exists result,
    parse_ocr no_tesseract_world "PDF/sample.pdf" "eng" None 300 = inr result
    /\ result !! "error" = Some (VStr tesseract_missing)
    /\ result !! "text" = Some (VStr "").
Proof.
  apply (parse_ocr_tesseract_missing no_tesseract_world "PDF/sample.pdf" "eng" 300 None
           no_tesseract_doc [0%Z] [] 1%Z
           {| get_text := inr "two";
              extract_text := inr (Some "two");
              extract_tables := inr [];
              get_pixmap := fun _ => None;
              image_to_string := fun _ _ => TesseractNotFound |}).
  - reflexivity.
  - reflexivity.
  - constructor; [| constructor]. eexists. split; reflexivity.
  - split; reflexivity.
  - reflexivity.
Defined.

(** ** Errors and content *)

Lemma not_error_set_None (r : gmap string PyVal) :
  r !! "error" = Some VNone -> error_set r = false.
Proof. intros Hr. unfold error_set, get_truthy, dict_get. by rewrite Hr. Qed.

(** X6.  In the results of the layout, OCR, document-to-markup and
    structure back ends, a set error excludes content: whenever the [error]
    of a result is set, none of its content fields (text, markdown,
    structured_text, tables, metadata) is populated.  For the OCR and the
    document-to-markup back end this is about the calls that return a
    result. *)
Theorem error_excludes_content (w : World) (pdf_path lang url : string)
    (page_range : option (Z * Z)) (dpi timeout : Z) :
  (error_set (parse_pdfplumber w pdf_path page_range) = true ->
   no_content (parse_pdfplumber w pdf_path page_range) = true)
  /\ (forall r, parse_ocr w pdf_path lang page_range dpi = inr r ->
                error_set r = true -> no_content r = true)
  /\ (forall r, parse_nougat w pdf_path page_range timeout = inr r ->
                error_set r = true -> no_content r = true)
  /\ (error_set (parse_grobid w pdf_path url) = true ->
      no_content (parse_grobid w pdf_path url) = true).
Proof.
  split; [| split; [| split]].
  - unfold parse_pdfplumber.
    destruct (pdfplumber_open w pdf_path) as [ex|pdf];
      [by rewrite no_content_insert_error |].
    destruct (pdfplumber_pages_to_process _ _) as [msg|ps];
      [by rewrite no_content_insert_error |].
    destruct (pdfplumber_collect ps [] []) as [ex|[ft tables]];
      [by rewrite no_content_insert_error |].
    intros Herr. rewrite not_error_set_None in Herr; [done | by simplify_map_eq].
  - intros r. unfold parse_ocr.
    destruct (fitz_open w pdf_path) as [ex|doc];
      [intros [= <-]; by rewrite no_content_insert_error |].
    destruct (ocr_pages_to_process _ _) as [msg|nums];
      [intros [= <-]; by rewrite no_content_insert_error |].
    destruct (ocr_loop _ _ _ _ _); [| | discriminate]; intros [= <-];
      [| by rewrite no_content_insert_error].
    intros Herr. rewrite not_error_set_None in Herr; [done | by simplify_map_eq].
  - intros r. unfold parse_nougat.
    destruct (os_makedirs w _); [discriminate |]. intros [= <-].
    destruct (fitz_open w pdf_path) as [ex|doc];
      [by rewrite no_content_insert_error |].
    destruct (popen w _ timeout) as [| |rc files];
      try by rewrite no_content_insert_error.
    destruct (negb (rc =? 0)%Z); [by rewrite no_content_insert_error |].
    destruct (files _) as [markdown|]; [| by rewrite no_content_insert_error].
    intros Herr. rewrite not_error_set_None in Herr; [done | by simplify_map_eq].
  - unfold parse_grobid.
    destruct (open_rb w pdf_path); [by rewrite no_content_insert_error |].
    destruct (requests_post w _ pdf_path) as [| | ex | status text];
      try by rewrite no_content_insert_error.
    destruct (status =? 200)%Z; [| by rewrite no_content_insert_error].
    intros Herr. rewrite not_error_set_None in Herr; [done | by simplify_map_eq].
Qed.

Lemma error_excludes_content_witness :
  error_set (parse_grobid scanned_world "PDF/scan.pdf" "http://localhost:8070") = true
  /\ no_content (parse_grobid scanned_world "PDF/scan.pdf" "http://localhost:8070") = true.
Proof.
  assert (H : error_set (parse_grobid scanned_world "PDF/scan.pdf"
                           "http://localhost:8070") = true) by (vm_compute; reflexivity).
  split; [exact H |].
  exact (proj2 (proj2 (proj2 (error_excludes_content scanned_world "PDF/scan.pdf" "eng"
           "http://localhost:8070" None 300 1800))) H).
Defined.

(** X7.  Whenever [parse_nougat] returns, its result has no error exactly
    when the document opened, the process exited with code 0 and the markup
    file exists in the temporary directory; the markdown is then the
    content of that file, and every other result has an empty markdown and
    no LaTeX blocks.  The [latex] field is the empty string in every
    result. *)
Theorem parse_nougat_outcomes (w : World) (pdf_path : string)
    (page_range : option (Z * Z)) (timeout : Z) (r : gmap string PyVal) :
  parse_nougat w pdf_path page_range timeout = inr r ->
  r !! "latex" = Some (VStr "")
  /\ (error_set r = false <->
      exists doc files markdown,
        fitz_open w pdf_path = inr doc
        /\ popen w (nougat_command pdf_path (nougat_output_dir w)) timeout
           = Exited 0 files
        /\ files (nougat_mmd_path w pdf_path) = Some markdown
        /\ r !! "markdown" = Some (VStr markdown))
  /\ (error_set r = true ->
      r !! "markdown" = Some (VStr "") /\ r !! "latex_blocks" = None).
Proof.
  unfold parse_nougat, nougat_mmd_path.
  destruct (os_makedirs w _); [discriminate |]. intros [= <-].
  destruct (fitz_open w pdf_path) as [ex|doc].
  { split; [by simplify_map_eq |]. split; [| by simplify_map_eq].
    rewrite error_set_insert. split; [done | by intros (? & ? & ? & [=] & _)]. }
  destruct (popen w _ timeout) as [| |rc files].
  1-2: split; [by simplify_map_eq |]; (split; [| by simplify_map_eq]);
       rewrite error_set_insert; (split; [done | by intros (? & ? & ? & _ & [=] & _)]).
  destruct (Z.eqb_spec rc 0) as [-> | Hrc]; simpl.
  2: { split; [by simplify_map_eq |]. split; [| by simplify_map_eq].
       rewrite error_set_insert.
       split; [done | intros (? & ? & ? & _ & [= -> _] & _); done]. }
  destruct (files _) as [markdown|] eqn:Hfile.
  - split; [by simplify_map_eq |]. split.
    + split; [| intros _; apply not_error_set_None; by simplify_map_eq].
      intros _. exists doc, files, markdown. by simplify_map_eq.
    + intros Herr. rewrite not_error_set_None in Herr; [done | by simplify_map_eq].
  - split; [by simplify_map_eq |]. split; [| by simplify_map_eq].
    rewrite error_set_insert.
    split; [done | intros (? & ? & ? & _ & [= <-] & Hf & _); congruence].
Qed.

Lemma parse_nougat_outcomes_witness :
  nougat_sample_result !! "latex" = Some (VStr "")
  /\ error_set nougat_sample_result = false
  /\ nougat_sample_result !! "markdown" = Some (VStr sample_markup).
Proof.
  destruct (parse_nougat_outcomes nougat_world "PDF/sample.pdf" None 1800
              nougat_sample_result) as (Hlatex & Hok & _).
  - vm_compute. reflexivity.
  - split; [exact Hlatex |].
    assert (Herr : error_set nougat_sample_result = false) by (vm_compute; reflexivity).
    split; [exact Herr |].
    destruct (proj1 Hok Herr) as (doc & files & markdown & _ & Hrun & Hfile & Hmd).
    vm_compute in Hrun. injection Hrun as <-. vm_compute in Hfile.
    injection Hfile as <-. rewrite Hmd. vm_compute. reflexivity.
Defined.

(** X8.  [parse_grobid] returns a result without error exactly when the
    file can be opened and the service answers with status 200; the
    structured text is then the body of the answer, unchanged.  The
    [metadata] of the result is the empty dict in every case. *)
Theorem parse_grobid_outcomes (w : World) (pdf_path url : string) :
  let r := parse_grobid w pdf_path url in
  r !! "metadata" = Some (VDict [])
  /\ (error_set r = false <->
      open_rb w pdf_path = None
      /\ exists text,
           requests_post w (url +:+ "/api/processFulltextDocument") pdf_path
           = Response 200 text
           /\ r !! "structured_text" = Some (VStr text)).
Proof.
  intros r. subst r. unfold parse_grobid.
  destruct (open_rb w pdf_path) as [ex|].
  { split; [by simplify_map_eq |]. rewrite error_set_insert. split; [done | by intros [[=] _]]. }
  destruct (requests_post w _ pdf_path) as [| | ex | status text].
  1-3: split; [by simplify_map_eq |]; rewrite error_set_insert;
       (split; [done | by intros [_ (? & [=] & _)]]).
  destruct (Z.eqb_spec status 200) as [-> | Hst].
  - split; [by simplify_map_eq |]. split.
    + intros _. split; [done |]. exists text. by simplify_map_eq.
    + intros _. apply not_error_set_None. by simplify_map_eq.
  - split; [by simplify_map_eq |]. rewrite error_set_insert.
    split; [done | intros [_ (? & [= -> _] & _)]; done].
Qed.

(** ** The parsing loop *)

Lemma arg_page_range_value (kwargs : gmap string PyVal) (pr : option (Z * Z)) :
  kwargs !! "page_range" = Some (page_range_value pr) ->
  arg_page_range kwargs = Some pr.
Proof.
  intros H. unfold arg_page_range. rewrite H. by destruct pr as [[s e]|].
Qed.

(** X9.  The keyword arguments the loop builds for a registered back end
    always bind to its parameters: the call is the call of the back end on
    the selected path with the page range (none for GROBID), the OCR
    language and resolution, the Nougat timeout and the GROBID URL of the
    settings, and never a [TypeError] of the binding. *)
Theorem loop_arguments_bind (w : World) (st : Settings) :
  invoke w PyMuPDF (parser_params st "PyMuPDF")
  = inr (parse_pymupdf w (selected_pdf_path st) (page_range st))
  /\ invoke w Pdfplumber (parser_params st "pdfplumber")
     = inr (parse_pdfplumber w (selected_pdf_path st) (page_range st))
  /\ invoke w Ocr (parser_params st "OCR (Tesseract)")
     = parse_ocr w (selected_pdf_path st) (ocr_lang st) (page_range st) (ocr_dpi st)
  /\ invoke w Nougat (parser_params st "Nougat")
     = parse_nougat w (selected_pdf_path st) (page_range st) (nougat_timeout st)
  /\ invoke w Grobid (parser_params st "GROBID")
     = inr (parse_grobid w (selected_pdf_path st) (grobid_url st)).
Proof.
  assert (Hcommon : accepts ["pdf_path"; "page_range"] (common_params st) = true).
  { unfold accepts, common_params. apply bool_decide_eq_true.
    rewrite dom_insert_L, dom_singleton_L. set_solver. }
  assert (Hpr : arg_page_range (common_params st) = Some (page_range st)).
  { apply arg_page_range_value. unfold common_params. by simplify_map_eq. }
  assert (Hpath : common_params st !! "pdf_path" = Some (VStr (selected_pdf_path st))).
  { unfold common_params. by simplify_map_eq. }
  split; [| split; [| split; [| split]]].
  - unfold parser_params. change (String.eqb "PyMuPDF" _) with false. cbv iota.
    unfold invoke. by rewrite Hpath, Hcommon, Hpr.
  - unfold parser_params. change (String.eqb "pdfplumber" _) with false. cbv iota.
    unfold invoke. by rewrite Hpath, Hcommon, Hpr.
  - apply invoke_ocr_fallback.
  - unfold parser_params.
    change (String.eqb "Nougat" "OCR (Tesseract)") with false.
    change (String.eqb "Nougat" "GROBID") with false.
    change (String.eqb "Nougat" "Nougat") with true. cbv iota.
    unfold invoke.
    rewrite !lookup_insert_ne by done. rewrite Hpath.
    assert (Hacc : accepts ["pdf_path"; "page_range"; "timeout"; "_progress_callback"]
              (<["_progress_callback" := VFunc "update_progress"]>
                 (<["timeout" := VInt (nougat_timeout st)]> (common_params st))) = true).
    { unfold accepts, common_params. apply bool_decide_eq_true.
      rewrite !dom_insert_L, dom_singleton_L. set_solver. }
    rewrite Hacc.
    rewrite (arg_page_range_value _ (page_range st))
      by (unfold common_params; by simplify_map_eq).
    unfold arg_int. by simplify_map_eq.
  - apply grobid_called_without_range.
Qed.

Section LoopFacts.
Variable call : Parser -> gmap string PyVal -> Exception + gmap string PyVal.
Variable st : Settings.

Lemma od_set_keys_fresh {V} (d : list (string * V)) (k : string) (v : V) :
  k ∉ d.*1 -> (od_set d k v).*1 = d.*1 ++ [k].
Proof.
  induction d as [|[k' v'] d IH]; [done |].
  intros Hk. cbn [od_set].
  destruct (decide (k' = k)) as [-> | Hne]; [exfalso; apply Hk; by left |].
  cbn [fmap list_fmap fst]. cbn -[od_set]. f_equal. apply IH.
  intros Hin. apply Hk. by right.
Qed.

Lemma od_set_keys_present {V} (d : list (string * V)) (k : string) (v : V) :
  k ∈ d.*1 -> (od_set d k v).*1 = d.*1.
Proof.
  induction d as [|[k' v'] d IH]; [intros Hk; by apply elem_of_nil in Hk |].
  intros Hk. cbn [od_set].
  destruct (decide (k' = k)) as [-> | Hne]; [done |].
  cbn -[od_set]. f_equal. apply IH.
  apply elem_of_cons in Hk as [Hk | Hk]; [by subst | done].
Qed.

Lemma od_get_elem_of {V} (d : list (string * V)) (k : string) :
  is_Some (od_get d k) <-> k ∈ d.*1.
Proof.
  induction d as [|[k' v'] d IH]; cbn [od_get].
  - split; [by intros [? [=]] | intros Hk; by apply elem_of_nil in Hk].
  - destruct (decide (k' = k)) as [-> | Hne].
    + split; [intros _; by left | by eexists].
    + rewrite IH. cbn. rewrite elem_of_cons.
      split; [by right | intros [Heq | Hin]; [by subst | done]].
Qed.

Lemma elem_of_keys_with_fallback (b : bool) (k : string) (names : list string) :
  k ∈ keys_with_fallback b names
  <-> k ∈ names \/ (k = "OCR Fallback" /\ b = true /\ "Nougat" ∈ names).
Proof.
  unfold keys_with_fallback. rewrite list_elem_of_bind. split.
  - intros (n & Hk & Hn).
    destruct b; cbn [andb] in Hk; [| apply list_elem_of_singleton in Hk as ->; by left].
    destruct (String.eqb n "Nougat") eqn:Heq.
    + apply String.eqb_eq in Heq. subst n.
      apply elem_of_cons in Hk as [Hk | Hk%list_elem_of_singleton]; subst k;
        [by left | by right].
    + apply list_elem_of_singleton in Hk. subst k. by left.
  - intros [Hk | (-> & -> & Hn)].
    + exists k. split; [| done]. destruct (_ && _); by left.
    + exists "Nougat". split; [| done]. cbn. right. by left.
Qed.

Lemma keys_with_fallback_snoc (b : bool) (names : list string) (n : string) :
  keys_with_fallback b (names ++ [n])
  = keys_with_fallback b names ++ keys_with_fallback b [n].
Proof. unfold keys_with_fallback. apply bind_app. Qed.

(** One turn of the loop on a name that has no entry yet. *)
Lemma run_parser_keys (rs rs' : list (string * gmap string PyVal)) (parser_name : string) :
  parser_name ∉ rs.*1 ->
  (parser_name = "Nougat" -> "OCR Fallback" ∉ rs.*1) ->
  run_parser call st rs parser_name = inr rs' ->
  registered parser_name
  /\ rs'.*1 = rs.*1 ++ keys_with_fallback (fallback_made call st) [parser_name].
Proof.
  intros Hfresh Hfb. unfold run_parser.
  destruct (od_get PARSER_OPTIONS parser_name) as [f|] eqn:Hf; [| discriminate].
  intros [= <-]. split; [by exists f |].
  assert (Hne : parser_name <> "OCR Fallback")
    by (apply fallback_key_not_registered; by exists f).
  unfold keys_with_fallback. cbn [mbind list_bind]. rewrite app_nil_r.
  destruct (String.eqb_spec parser_name "Nougat") as [-> | Hnn].
  - vm_compute in Hf. injection Hf as <-. specialize (Hfb eq_refl).
    unfold fallback_made.
    destruct (call Nougat _) as [e|result]; [by rewrite od_set_keys_fresh |].
    cbn [andb].
    destruct (get_truthy result "error").
    + change (bool_decide (is_Some (od_get PARSER_OPTIONS "OCR (Tesseract)"))) with true.
      cbn [andb].
      destruct (call Ocr _) as [e|fallback]; cbn [andb].
      * rewrite od_set_keys_present; [by rewrite od_set_keys_fresh |].
        rewrite od_set_keys_fresh by done. apply elem_of_app. right. by left.
      * rewrite od_set_keys_fresh.
        { rewrite od_set_keys_fresh by done. by rewrite <- app_assoc. }
        rewrite od_set_keys_fresh by done.
        intros [Hin | Hin%list_elem_of_singleton]%elem_of_app; done.
    + cbn [andb]. by destruct (call Ocr _); rewrite od_set_keys_fresh.
  - rewrite andb_false_r.
    destruct (call f _) as [e|result]; [by rewrite od_set_keys_fresh |].
    cbn [andb]. by rewrite od_set_keys_fresh.
Qed.

Lemma run_parsers_keys (names : list string) :
  forall (processed : list string) (rs rs' : list (string * gmap string PyVal)),
  NoDup (processed ++ names) ->
  Forall registered processed ->
  rs.*1 = keys_with_fallback (fallback_made call st) processed ->
  run_parsers call st names rs = inr rs' ->
  Forall registered names
  /\ rs'.*1 = keys_with_fallback (fallback_made call st) (processed ++ names).
Proof.
  induction names as [|n names IH]; intros processed rs rs' Hnd Hreg Hkeys;
    cbn [run_parsers].
  - intros [= <-]. split; [constructor |]. by rewrite app_nil_r.
  - destruct (run_parser call st rs n) as [e|rs1] eqn:Hstep; [discriminate |].
    intros Hrun.
    assert (Hn : n ∉ processed).
    { apply NoDup_app in Hnd as (_ & Hdisj & _). intros Hin.
      apply (Hdisj n Hin). by left. }
    assert (Hn_reg : registered n).
    { unfold run_parser in Hstep. unfold registered.
      destruct (od_get PARSER_OPTIONS n); [by eexists | discriminate]. }
    assert (Hfb_reg : ~ registered "OCR Fallback")
      by (intros [f Hf]; vm_compute in Hf; discriminate).
    destruct (run_parser_keys rs rs1 n) as [_ Hkeys1]; [| | done |].
    + rewrite Hkeys, elem_of_keys_with_fallback.
      intros [Hin | (-> & _)]; [done | done].
    + intros ->. rewrite Hkeys, elem_of_keys_with_fallback.
      intros [Hin | (_ & _ & Hin)]; [| done].
      apply Hfb_reg. by apply (proj1 (Forall_forall _ _) Hreg).
    + destruct (IH (processed ++ [n]) rs1 rs') as [Hregs Hkeys'].
      * by rewrite <- app_assoc.
      * apply Forall_app. split; [done | by constructor].
      * by rewrite Hkeys1, Hkeys, keys_with_fallback_snoc.
      * done.
      * split; [by constructor |]. by rewrite <- app_assoc in Hkeys'.
Qed.
End LoopFacts.

(** X10.  When no name is selected twice and the run returns a result set,
    every selected name is registered and the keys of the result set are
    the selected names in their order, with the key [OCR Fallback] placed
    directly behind [Nougat] exactly when the Nougat call returned a
    result with a set error and the fallback call returned. *)
Theorem parse_button_key_order
    (call : Parser -> gmap string PyVal -> Exception + gmap string PyVal)
    (st : Settings) (names : list string) (rs : list (string * gmap string PyVal)) :
  NoDup names ->
  parse_button call st names = inr rs ->
  Forall registered names
  /\ rs.*1 = keys_with_fallback (fallback_made call st) names.
Proof.
  intros Hnd Hrun. by apply (run_parsers_keys call st names [] [] rs).
Qed.

Lemma parse_button_key_order_witness :
  exists rs,
    parse_button (invoke sample_world) sample_settings ["PyMuPDF"; "Nougat"; "GROBID"]
    = inr rs
    /\ rs.*1 = ["PyMuPDF"; "Nougat"; "OCR Fallback"; "GROBID"].
Proof.
  destruct (parse_button (invoke sample_world) sample_settings
              ["PyMuPDF"; "Nougat"; "GROBID"]) as [e|rs] eqn:Hrun;
    [vm_compute in Hrun; discriminate |].
  exists rs. split; [reflexivity |].
  destruct (parse_button_key_order (invoke sample_world) sample_settings
              ["PyMuPDF"; "Nougat"; "GROBID"] rs) as [_ Hkeys].
  - apply (bool_decide_unpack _). vm_compute. exact I.
  - exact Hrun.
  - rewrite Hkeys. vm_compute. reflexivity.
Defined.

Section LoopEntries.
Variable call : Parser -> gmap string PyVal -> Exception + gmap string PyVal.
Variable st : Settings.

Lemma run_parser_self (rs : list (string * gmap string PyVal)) (n : string) (f : Parser) :
  od_get PARSER_OPTIONS n = Some f ->
  exists rs1, run_parser call st rs n = inr rs1
              /\ od_get rs1 n = Some (loop_entry call st n f).
Proof.
  intros Hf. unfold run_parser, loop_entry. rewrite Hf.
  assert (Hne : n <> "OCR Fallback")
    by (apply fallback_key_not_registered; by exists f).
  eexists. split; [reflexivity |].
  destruct (call f _) as [e|result]; [apply od_get_set_eq |].
  change (bool_decide (is_Some (od_get PARSER_OPTIONS "OCR (Tesseract)"))) with true.
  rewrite andb_true_r.
  destruct (_ && _); [| apply od_get_set_eq].
  destruct (call Ocr _) as [e|fallback]; [apply od_get_set_eq |].
  rewrite od_get_set_ne by done. apply od_get_set_eq.
Qed.

Lemma run_parser_other (rs rs1 : list (string * gmap string PyVal)) (x n : string) :
  x <> n -> n <> "OCR Fallback" ->
  run_parser call st rs x = inr rs1 ->
  od_get rs1 n = od_get rs n.
Proof.
  intros Hx Hn. unfold run_parser.
  destruct (od_get PARSER_OPTIONS x) as [f|]; [| discriminate].
  intros [= <-].
  destruct (call f _) as [e|result]; [by rewrite od_get_set_ne |].
  destruct (_ && _); [| by rewrite od_get_set_ne].
  destruct (call Ocr _) as [e|fallback]; by rewrite !od_get_set_ne.
Qed.

Lemma run_parsers_entry (names : list string) (n : string) (f : Parser) :
  od_get PARSER_OPTIONS n = Some f ->
  forall rs rs' : list (string * gmap string PyVal),
  run_parsers call st names rs = inr rs' ->
  od_get rs' n = if bool_decide (n ∈ names) then Some (loop_entry call st n f)
                 else od_get rs n.
Proof.
  intros Hf.
  assert (Hne : n <> "OCR Fallback")
    by (apply fallback_key_not_registered; by exists f).
  induction names as [|x names IH]; intros rs rs'; cbn [run_parsers].
  - intros [= <-]. rewrite bool_decide_eq_false_2; [done |].
    intros Hin. by apply elem_of_nil in Hin.
  - destruct (run_parser call st rs x) as [e|rs1] eqn:Hstep; [discriminate |].
    intros Hrun. rewrite (IH _ _ Hrun).
    destruct (decide (n ∈ names)) as [Hin | Hnin].
    + rewrite !bool_decide_eq_true_2; [done | by right | done].
    + rewrite (bool_decide_eq_false_2 (n ∈ names)) by done.
      destruct (decide (x = n)) as [-> | Hxn].
      * rewrite bool_decide_eq_true_2 by by left.
        destruct (run_parser_self rs n f Hf) as (rs2 & Hrs2 & Hget).
        rewrite Hrs2 in Hstep. by injection Hstep as <-.
      * rewrite bool_decide_eq_false_2.
        { by apply (run_parser_other rs rs1 x n). }
        intros [Heq | Hin]%elem_of_cons; [by subst | done].
Qed.

Lemma run_parsers_fallback_origin (names : list string) (fb : gmap string PyVal) :
  forall rs rs' : list (string * gmap string PyVal),
  run_parsers call st names rs = inr rs' ->
  od_get rs' "OCR Fallback" = Some fb ->
  od_get rs "OCR Fallback" = Some fb
  \/ ("Nougat" ∈ names
      /\ exists nougat_result,
           call Nougat (parser_params st "Nougat") = inr nougat_result
           /\ get_truthy nougat_result "error" = true
           /\ call Ocr (ocr_params st) = inr fb).
Proof.
  induction names as [|x names IH]; intros rs rs'; cbn [run_parsers].
  - intros [= <-] Hfb. by left.
  - destruct (run_parser call st rs x) as [e|rs1] eqn:Hstep; [discriminate |].
    intros Hrun Hfb.
    destruct (IH _ _ Hrun Hfb) as [Hprev | [Hin Hrest]];
      [| right; split; [by right | done]].
    unfold run_parser in Hstep.
    destruct (od_get PARSER_OPTIONS x) as [f|] eqn:Hf; [| discriminate].
    assert (Hne : x <> "OCR Fallback")
      by (apply fallback_key_not_registered; by exists f).
    injection Hstep as <-.
    destruct (call f _) as [e|result] eqn:Hcall;
      [left; by rewrite od_get_set_ne in Hprev |].
    destruct (String.eqb x "Nougat") eqn:Hx; cbn [andb] in Hprev;
      [| left; by rewrite od_get_set_ne in Hprev].
    apply String.eqb_eq in Hx. subst x. vm_compute in Hf. injection Hf as <-.
    destruct (get_truthy result "error") eqn:Herr; cbn [andb] in Hprev;
      [| left; by rewrite od_get_set_ne in Hprev].
    change (bool_decide (is_Some (od_get PARSER_OPTIONS "OCR (Tesseract)")))
      with true in Hprev. cbv iota in Hprev.
    destruct (call Ocr _) as [e|fallback] eqn:Hocr.
    + left. by rewrite !od_get_set_ne in Hprev.
    + rewrite od_get_set_eq in Hprev. injection Hprev as ->.
      right. split; [by left |]. by exists result.
Qed.
End LoopEntries.

(** X11.  The result set of a run that returns holds, under the name of
    every selected back end, what the turn of that back end stores: the
    entry depends on the calls of that back end alone (and, for Nougat, on
    the fallback call), not on the other selected back ends or on the order
    of the selection. *)
Theorem parse_button_entry
    (call : Parser -> gmap string PyVal -> Exception + gmap string PyVal)
    (st : Settings) (names : list string) (rs : list (string * gmap string PyVal))
    (n : string) (f : Parser) :
  parse_button call st names = inr rs ->
  n ∈ names ->
  od_get PARSER_OPTIONS n = Some f ->
  od_get rs n = Some (loop_entry call st n f).
Proof.
  intros Hrun Hin Hf.
  rewrite (run_parsers_entry call st names n f Hf [] rs Hrun).
  by rewrite bool_decide_eq_true_2.
Qed.

Lemma parse_button_entry_witness :
  exists rs,
    parse_button (invoke scanned_world) sample_settings ["GROBID"; "pdfplumber"] = inr rs
    /\ od_get rs "pdfplumber"
       = Some (parse_pdfplumber scanned_world "PDF/sample.pdf" (Some (1, 2)%Z)).
Proof.
  destruct (parse_button (invoke scanned_world) sample_settings
              ["GROBID"; "pdfplumber"]) as [e|rs] eqn:Hrun;
    [vm_compute in Hrun; discriminate |].
  exists rs. split; [reflexivity |].
  rewrite (parse_button_entry (invoke scanned_world) sample_settings
             ["GROBID"; "pdfplumber"] rs "pdfplumber" Pdfplumber Hrun).
  - vm_compute. reflexivity.
  - right. by left.
  - reflexivity.
Defined.

(** X12.  A result set holds an entry under [OCR Fallback] only when
    Nougat was selected, its call returned a result with a set error, and
    the OCR call on the fallback arguments returned; the entry is the
    result of that call. *)
Theorem fallback_entry_origin
    (call : Parser -> gmap string PyVal -> Exception + gmap string PyVal)
    (st : Settings) (names : list string) (rs : list (string * gmap string PyVal))
    (fb : gmap string PyVal) :
  parse_button call st names = inr rs ->
  od_get rs "OCR Fallback" = Some fb ->
  "Nougat" ∈ names
  /\ exists nougat_result,
       call Nougat (parser_params st "Nougat") = inr nougat_result
       /\ get_truthy nougat_result "error" = true
       /\ call Ocr (ocr_params st) = inr fb.
Proof.
  intros Hrun Hfb.
  by destruct (run_parsers_fallback_origin call st names fb [] rs Hrun Hfb).
Qed.

Lemma fallback_entry_origin_witness :
  exists rs,
    parse_button (invoke sample_world) sample_settings ["Nougat"; "PyMuPDF"] = inr rs
    /\ od_get rs "OCR Fallback" = Some sample_fallback
    /\ invoke sample_world Ocr (ocr_params sample_settings) = inr sample_fallback.
Proof.
  destruct (parse_button (invoke sample_world) sample_settings
              ["Nougat"; "PyMuPDF"]) as [e|rs] eqn:Hrun;
    [vm_compute in Hrun; discriminate |].
  assert (Hfb : od_get rs "OCR Fallback" = Some sample_fallback).
  { vm_compute in Hrun. injection Hrun as <-. vm_compute. reflexivity. }
  exists rs. split; [reflexivity |]. split; [exact Hfb |].
  destruct (fallback_entry_origin (invoke sample_world) sample_settings
              ["Nougat"; "PyMuPDF"] rs sample_fallback Hrun Hfb)
    as (_ & nougat_result & _ & _ & Hocr).
  exact Hocr.
Defined.

(** X13.  The look-up of a selected name is outside the handler of the
    loop: the run returns a result set exactly when every selected name is
    registered, and otherwise ends with the [KeyError] of the first
    unregistered name, whatever the back ends before it returned. *)
Theorem parse_button_key_error
    (call : Parser -> gmap string PyVal -> Exception + gmap string PyVal)
    (st : Settings) (names : list string) :
  (Forall registered names <-> exists rs, parse_button call st names = inr rs)
  /\ (forall front n rest,
        names = front ++ n :: rest ->
        Forall registered front ->
        ~ registered n ->
        parse_button call st names = inl ("KeyError: " +:+ n)).
Proof.
  assert (Hstep : forall rs n, registered n ->
            exists rs1, run_parser call st rs n = inr rs1).
  { intros rs n [f Hf]. destruct (run_parser_self call st rs n f Hf) as (rs1 & H & _).
    by exists rs1. }
  assert (Hlost : forall n rs, ~ registered n ->
            run_parser call st rs n = inl ("KeyError: " +:+ n)).
  { intros n rs Hn. unfold run_parser.
    destruct (od_get PARSER_OPTIONS n) as [f|] eqn:Hf; [| done].
    exfalso. apply Hn. by exists f. }
  unfold parse_button. generalize (@nil (string * gmap string PyVal)) as rs.
  intros rs. split; [split |].
  - intros Hreg. revert rs. induction Hreg as [|n names Hn _ IH]; intros rs.
    + by exists rs.
    + cbn [run_parsers]. destruct (Hstep rs n Hn) as [rs1 ->]. apply IH.
  - revert rs. induction names as [|n names IH]; intros rs; [constructor |].
    cbn [run_parsers]. intros [rs' Hrun].
    destruct (run_parser call st rs n) as [e|rs1] eqn:Hn; [discriminate |].
    constructor; [| apply (IH rs1); by exists rs'].
    unfold run_parser in Hn. unfold registered.
    destruct (od_get PARSER_OPTIONS n); [by eexists | discriminate].
  - intros front n rest -> Hfront Hn. revert rs.
    induction Hfront as [|x front Hx _ IH]; intros rs; cbn [app run_parsers].
    + by rewrite Hlost.
    + destruct (Hstep rs x Hx) as [rs1 ->]. apply IH.
Qed.

Lemma parse_button_key_error_witness :
  parse_button (invoke sample_world) sample_settings ["PyMuPDF"; "Camelot"]
  = inl "KeyError: Camelot".
Proof.
  apply (proj2 (parse_button_key_error (invoke sample_world) sample_settings
                  ["PyMuPDF"; "Camelot"]) ["PyMuPDF"] "Camelot" []).
  - reflexivity.
  - repeat constructor. by eexists.
  - intros [f Hf]. vm_compute in Hf. discriminate.
Defined.

(** X14.  The fallback entry counts as a result of its own in the display:
    when the fallback is made, a run of Nougat alone is laid out in two
    columns, Nougat and [OCR Fallback], and a run of Nougat with one other
    back end has three entries, for which the display has no branch. *)
Theorem fallback_layout
    (call : Parser -> gmap string PyVal -> Exception + gmap string PyVal)
    (st : Settings) (names : list string) (rs : list (string * gmap string PyVal)) :
  NoDup names ->
  "Nougat" ∈ names ->
  fallback_made call st = true ->
  parse_button call st names = inr rs ->
  length rs = S (length names)
  /\ (length names = 1 -> results_layout rs = TwoColumns "Nougat" "OCR Fallback")
  /\ (length names = 2 -> results_layout rs = NoPanel).
Proof.
  intros Hnd Hin Hfb Hrun.
  destruct (run_parsers_keys call st names [] [] rs) as [_ Hkeys]; [done.. |].
  cbn [app] in Hkeys.
  rewrite Hfb in Hkeys.
  assert (Hlen : forall l, NoDup l -> "Nougat" ∈ l ->
            length (keys_with_fallback true l) = S (length l)).
  { clear. induction l as [|x l IH]; [intros _ H; by apply elem_of_nil in H |].
    intros [Hx Hnd]%NoDup_cons Hin.
    change (keys_with_fallback true (x :: l))
      with ((if true && String.eqb x "Nougat" then [x; "OCR Fallback"] else [x])
            ++ keys_with_fallback true l).
    cbn [andb]. rewrite length_app.
    destruct (String.eqb x "Nougat") eqn:Heq.
    - apply String.eqb_eq in Heq. subst x.
      assert (Hrest : keys_with_fallback true l = l).
      { clear IH Hnd Hin. induction l as [|y l IH]; [done |].
        apply not_elem_of_cons in Hx as [Hy Hx].
        change (keys_with_fallback true (y :: l))
          with ((if true && String.eqb y "Nougat" then [y; "OCR Fallback"] else [y])
                ++ keys_with_fallback true l).
        cbn [andb]. rewrite (proj2 (String.eqb_neq y "Nougat")) by done.
        cbn [app]. f_equal. by apply IH. }
      rewrite Hrest. done.
    - apply String.eqb_neq in Heq.
      apply elem_of_cons in Hin as [Hin | Hin]; [done |].
      rewrite IH by done. done. }
  assert (Hlen_rs : length rs = S (length names)).
  { rewrite <- (length_fmap fst rs), Hkeys. by apply Hlen. }
  split; [exact Hlen_rs |]. split.
  - intros H1. destruct names as [|x [|? ?]]; try discriminate.
    apply list_elem_of_singleton in Hin. subst x.
    unfold results_layout. by rewrite Hkeys.
  - intros H2. unfold results_layout.
    assert (H3 : length (rs.*1) = 3) by (rewrite length_fmap, Hlen_rs, H2; done).
    by destruct (rs.*1) as [|? [|? [|? [|? ?]]]].
Qed.

Lemma fallback_layout_witness :
  exists rs,
    parse_button (invoke sample_world) sample_settings ["Nougat"; "PyMuPDF"] = inr rs
    /\ results_layout rs = NoPanel.
Proof.
  destruct (parse_button (invoke sample_world) sample_settings
              ["Nougat"; "PyMuPDF"]) as [e|rs] eqn:Hrun;
    [vm_compute in Hrun; discriminate |].
  exists rs. split; [reflexivity |].
  destruct (fallback_layout (invoke sample_world) sample_settings
              ["Nougat"; "PyMuPDF"] rs) as (_ & _ & Hlayout).
  - apply (bool_decide_unpack _). vm_compute. exact I.
  - by left.
  - vm_compute. reflexivity.
  - exact Hrun.
  - by apply Hlayout.
Defined.

(** ** The chunking preview: validation and outcome *)

(** X15.  The preview has no error exactly when the text is a string, the
    overlap is at least 0 and below the chunk size, the strategy is
    [recursive] and the splitter returns; its chunks are then the slice of
    the splitter's chunks up to the preview limit, which for a limit of at
    least 0 is their first [max_preview_chunks] elements.  A preview with
    an error has no chunk and a total of 0. *)
Theorem chunking_preview_outcomes
    (split_text : Z -> Z -> string -> Exception + list string)
    (text_content : PyVal) (strategy : string)
    (chunk_size chunk_overlap max_preview_chunks : Z) :
  let preview :=
    get_chunking_preview split_text text_content strategy chunk_size chunk_overlap
      max_preview_chunks in
  (error_set preview = false <->
   exists text chunks,
     text_content = VStr text
     /\ (0 <= chunk_overlap < chunk_size)%Z
     /\ strategy = "recursive"
     /\ split_text chunk_size chunk_overlap text = inr chunks
     /\ preview !! "chunks"
        = Some (VList (VStr <$> py_slice chunks None (Some max_preview_chunks)))
     /\ ((0 <= max_preview_chunks)%Z ->
         py_slice chunks None (Some max_preview_chunks)
         = take (Z.to_nat max_preview_chunks) chunks)
     /\ preview !! "total_chunks" = Some (VInt (Z.of_nat (length chunks))))
  /\ (error_set preview = true ->
      preview !! "chunks" = Some (VList [])
      /\ preview !! "total_chunks" = Some (VInt 0)).
Proof.
  intros preview. subst preview. unfold get_chunking_preview.
  destruct text_content as [| | |text| | | |];
    try (rewrite error_set_insert; split;
         [split; [done | by intros (? & ? & [=] & _)] | by simplify_map_eq]).
  destruct (Z.leb_spec chunk_size 0);
    [rewrite error_set_insert; split;
     [split; [done | intros (? & ? & _ & ? & _); lia] | by simplify_map_eq] |].
  destruct (Z.ltb_spec chunk_overlap 0);
    [rewrite error_set_insert; split;
     [split; [done | intros (? & ? & _ & ? & _); lia] | by simplify_map_eq] |].
  destruct (Z.leb_spec chunk_size chunk_overlap);
    [rewrite error_set_insert; split;
     [split; [done | intros (? & ? & _ & ? & _); lia] | by simplify_map_eq] |].
  destruct (String.eqb_spec strategy "recursive") as [-> | Hs];
    [| rewrite error_set_insert; split;
       [split; [done | by intros (? & ? & _ & _ & ? & _)] | by simplify_map_eq]].
  destruct (split_text chunk_size chunk_overlap text) as [ex|chunks] eqn:Hsplit.
  - rewrite error_set_insert. split; [| by simplify_map_eq].
    split; [done |]. intros (text' & ? & [= <-] & _ & _ & Hs & _). congruence.
  - split.
    + split; [| intros _; apply not_error_set_None; by simplify_map_eq].
      intros _. exists text, chunks. repeat split; try lia; try by simplify_map_eq.
      intros Hm. unfold py_slice, slice_bound. cbn [drop].
      rewrite (proj2 (Z.ltb_ge _ _)) by done.
      rewrite Z.sub_0_r. change (Z.to_nat 0) with 0%nat. rewrite drop_0.
      destruct (Z.le_ge_cases (Z.of_nat (length chunks)) max_preview_chunks).
      * rewrite Z.min_l by done. rewrite Nat2Z.id.
        rewrite !take_ge; [done | lia | lia].
      * by rewrite Z.min_r.
    + intros Herr. rewrite not_error_set_None in Herr; [done | by simplify_map_eq].
Qed.

Lemma chunking_preview_outcomes_witness :
  exists chunks,
    sample_splitter 1000 100 "some text" = inr chunks
    /\ get_chunking_preview sample_splitter (VStr "some text") "recursive" 1000 100 5
         !! "chunks" = Some (VList (VStr <$> take 5 chunks)).
Proof.
  destruct (proj1 (proj1 (chunking_preview_outcomes sample_splitter (VStr "some text")
                            "recursive" 1000 100 5)))
    as (text & chunks & Htext & _ & _ & Hsplit & Hchunks & Hslice & _).
  - vm_compute. reflexivity.
  - injection Htext as <-. exists chunks. split; [exact Hsplit |].
    rewrite Hchunks, Hslice by lia. reflexivity.
Defined.

(** ** Safe file names: length and repeated use *)

Lemma length_to_list (s : string) : length (to_list s) = String.length s.
Proof. induction s as [|c s IH]; simpl; [done | by rewrite IH]. Qed.

Lemma length_of_list (l : list ascii) : String.length (of_list l) = length l.
Proof. by rewrite <- length_to_list, to_list_of_list. Qed.

Lemma string_length_app (a b : string) :
  String.length (a +:+ b) = (String.length a + String.length b)%nat.
Proof. by rewrite <- !length_to_list, to_list_app, length_app. Qed.

Lemma rfind_from_bounds (c : ascii) (l : list ascii) (i found : Z) :
  (-1 <= found < i)%Z ->
  (-1 <= rfind_from c l i found < i + Z.of_nat (length l))%Z.
Proof.
  revert i found. induction l as [|x l IH]; intros i found H; cbn [rfind_from length].
  - lia.
  - destruct (Ascii.eqb x c).
    + specialize (IH (i + 1)%Z i). lia.
    + specialize (IH (i + 1)%Z found). lia.
Qed.

Lemma rfind_bounds (c : ascii) (s : string) :
  (-1 <= rfind c s < Z.of_nat (String.length s))%Z.
Proof.
  unfold rfind. pose proof (rfind_from_bounds c (to_list s) 0 (-1)) as H.
  rewrite length_to_list in H. lia.
Qed.

(** [os.path.splitext] cuts the path in two. *)
Lemma splitext_app (p : string) : fst (splitext p) +:+ snd (splitext p) = p.
Proof.
  assert (Hnil : forall s : string, s +:+ "" = s).
  { intros s. rewrite <- (of_list_to_list (s +:+ "")), to_list_app.
    change (to_list "") with (@nil ascii). by rewrite app_nil_r, of_list_to_list. }
  unfold splitext.
  destruct (Z.ltb_spec (rfind "/" p) (rfind "." p)) as [Hlt |]; [| cbn [fst snd]; apply Hnil].
  destruct (only_dots_between _ _); [cbn [fst snd]; apply Hnil |].
  cbn [fst snd]. unfold str_slice, py_slice, slice_bound.
  pose proof (rfind_bounds "." p) as Hdot. pose proof (rfind_bounds "/" p) as Hsep.
  rewrite length_to_list.
  rewrite (proj2 (Z.ltb_ge (rfind "." p) 0)) by lia.
  rewrite Z.min_r by lia. rewrite Z.sub_0_r. change (Z.to_nat 0) with 0%nat.
  rewrite drop_0.
  rewrite <- (of_list_to_list (of_list (take _ _) +:+ _)).
  rewrite to_list_app, !to_list_of_list.
  rewrite (take_ge (drop _ _)) by (rewrite length_drop, length_to_list; lia).
  by rewrite take_drop, of_list_to_list.
Qed.

(** X16.  [get_safe_filename] keeps the extension of the cleaned name and
    cuts only its stem.  The result has at most 100 characters when that
    extension has at most 99; an extension of more than 100 characters
    gives a result of more than 100. *)
Theorem safe_filename_length (base_name : string) :
  let cleaned := replace_spaces (remove_invalid (basename base_name)) in
  let name := fst (splitext cleaned) in
  let ext := snd (splitext cleaned) in
  (exists k, get_safe_filename base_name = of_list (take k (to_list name)) +:+ ext)
  /\ ((String.length ext <= 99)%nat ->
      (String.length (get_safe_filename base_name) <= 100)%nat)
  /\ ((100 < String.length ext)%nat ->
      (100 < String.length (get_safe_filename base_name))%nat).
Proof.
  intros cleaned name ext. subst name ext.
  pose proof (splitext_app cleaned) as Happ.
  unfold get_safe_filename. cbv zeta. fold cleaned. unfold py_len.
  destruct (splitext cleaned) as [name ext]. cbn [fst snd] in *.
  assert (Hform : exists k,
             (if (100 <? Z.of_nat (String.length cleaned))%Z
              then str_slice name None (Some (100 - Z.of_nat (String.length ext) - 1)%Z)
                   +:+ ext
              else cleaned) = of_list (take k (to_list name)) +:+ ext
             /\ ((String.length ext <= 99)%nat ->
                 (String.length
                    (if (100 <? Z.of_nat (String.length cleaned))%Z
                     then str_slice name None
                            (Some (100 - Z.of_nat (String.length ext) - 1)%Z) +:+ ext
                     else cleaned) <= 100)%nat)).
  { destruct (Z.ltb_spec 100 (Z.of_nat (String.length cleaned))) as [Hlong | Hshort].
    - unfold str_slice, py_slice. cbn [drop].
      rewrite Z.sub_0_r. change (Z.to_nat 0) with 0%nat. rewrite drop_0.
      eexists. split; [reflexivity |].
      intros Hext. rewrite string_length_app, length_of_list, length_take.
      unfold slice_bound. rewrite length_to_list.
      rewrite (proj2 (Z.ltb_ge _ 0)) by lia. lia.
    - exists (length (to_list name)). split.
      + by rewrite firstn_all, of_list_to_list.
      + lia. }
  destruct Hform as (k & Hk & Hle).
  split; [by exists k |]. split; [exact Hle |].
  intros Hext. rewrite Hk, string_length_app. lia.
Qed.

Lemma safe_filename_length_witness :
  (String.length (get_safe_filename "reports/annual report: 2024?.pdf") <= 100)%nat.
Proof.
  apply (proj1 (proj2 (safe_filename_length "reports/annual report: 2024?.pdf"))).
  vm_compute. lia.
Defined.

Lemma rfind_from_absent (c : ascii) (l : list ascii) (i found : Z) :
  Forall (fun x => x <> c) l -> rfind_from c l i found = found.
Proof.
  intros Hl. revert i. induction Hl as [|x l Hx _ IH]; intros i; cbn [rfind_from];
    [done |].
  rewrite (proj2 (Ascii.eqb_neq x c)) by done. apply IH.
Qed.

Lemma py_slice_all {A} (l : list A) : py_slice l (Some 0%Z) None = l.
Proof.
  unfold py_slice, slice_bound. cbn [Z.ltb Z.compare].
  rewrite Z.min_r by lia. change (Z.to_nat 0) with 0%nat. rewrite drop_0.
  apply take_ge. lia.
Qed.

Lemma basename_no_slash (s : string) :
  Forall (fun x => x <> "/"%char) (to_list s) -> basename s = s.
Proof.
  intros Hs. unfold basename, rfind. rewrite rfind_from_absent by done.
  change (-1 + 1)%Z with 0%Z. unfold str_slice.
  by rewrite py_slice_all, of_list_to_list.
Qed.

Lemma clean_name_fixed (s : string) :
  Forall filename_char_ok (to_list s) ->
  replace_spaces (remove_invalid (basename s)) = s.
Proof.
  intros Hs. rewrite basename_no_slash.
  2: { eapply Forall_impl; [exact Hs |]. intros c [_ Hc] ->. vm_compute in Hc.
       discriminate. }
  unfold remove_invalid.
  assert (Hfilter : List.filter (fun c => negb (invalid_filename_char c)) (to_list s)
                    = to_list s).
  { induction Hs as [|c l [_ Hc] _ IH]; cbn [List.filter]; [done |].
    rewrite Hc. cbn [negb]. by rewrite IH. }
  rewrite Hfilter, of_list_to_list. unfold replace_spaces.
  assert (Hmap : List.map (fun c => if Ascii.eqb c " " then "_"%char else c) (to_list s)
                 = to_list s).
  { clear Hfilter. induction Hs as [|c l [Hc _] _ IH]; cbn [List.map]; [done |].
    rewrite (proj2 (Ascii.eqb_neq c " ")) by done. by rewrite IH. }
  by rewrite Hmap, of_list_to_list.
Qed.

Lemma safe_filename_ok (base_name : string) :
  Forall filename_char_ok (to_list (get_safe_filename base_name)).
Proof.
  unfold get_safe_filename.
  pose proof (replace_spaces_ok _ (remove_invalid_ok (basename base_name))) as Hsafe.
  destruct (_ <? _)%Z; [| exact Hsafe].
  pose proof (Forall_splitext _ _ Hsafe) as [Hname Hext].
  destruct (splitext _) as [name ext]. cbn [fst snd] in *.
  rewrite to_list_app. apply Forall_app. split; [| exact Hext].
  by apply Forall_str_slice.
Qed.

(** X17.  A name that holds no space and no invalid character and has at
    most 100 characters is returned unchanged by [get_safe_filename];
    hence applying the function to its own result changes nothing when the
    extension of the cleaned name has at most 99 characters. *)
Theorem safe_filename_fixed_point :
  (forall s : string,
      Forall filename_char_ok (to_list s) ->
      (String.length s <= 100)%nat ->
      get_safe_filename s = s)
  /\ (forall base_name : string,
         (String.length
            (snd (splitext (replace_spaces (remove_invalid (basename base_name)))))
          <= 99)%nat ->
         get_safe_filename (get_safe_filename base_name)
         = get_safe_filename base_name).
Proof.
  assert (Hfix : forall s : string,
             Forall filename_char_ok (to_list s) ->
             (String.length s <= 100)%nat ->
             get_safe_filename s = s).
  { intros s Hs Hlen. unfold get_safe_filename. cbv zeta.
    rewrite clean_name_fixed by done. unfold py_len.
    by rewrite (proj2 (Z.ltb_ge _ _)) by lia. }
  split; [exact Hfix |].
  intros base_name Hext. apply Hfix; [apply safe_filename_ok |].
  (* the first pass leaves at most 100 characters *)
  unfold get_safe_filename. cbv zeta. unfold py_len.
  set (cleaned := replace_spaces (remove_invalid (basename base_name))) in *.
  destruct (Z.ltb_spec 100 (Z.of_nat (String.length cleaned))) as [Hlong | Hshort];
    [| lia].
  destruct (splitext cleaned) as [name ext]. cbn [snd] in Hext.
  unfold str_slice, py_slice. cbn [drop].
  rewrite Z.sub_0_r. change (Z.to_nat 0) with 0%nat. rewrite drop_0.
  rewrite string_length_app, length_of_list, length_take.
  unfold slice_bound. rewrite length_to_list.
  rewrite (proj2 (Z.ltb_ge _ 0)) by lia. lia.
Qed.

Lemma safe_filename_fixed_point_witness :
  get_safe_filename "annual_report_2024.pdf" = "annual_report_2024.pdf".
Proof.
  apply (proj1 safe_filename_fixed_point).
  - cbn. repeat (constructor; [split; [discriminate | reflexivity] |]). constructor.
  - vm_compute. lia.
Defined.


(** ** The text exports *)

(** X18.  [export_text] gives bytes exactly for a string without
    surrogates (there is no export for a string with a lone surrogate, nor
    for a value that is no string), and the bytes decode (UTF-8) to the
    string itself; [export_markdown] and [export_xml] give the same
    bytes. *)
Theorem export_text_round_trip (content : PyObj) :
  (is_Some (export_text content)
   <-> exists s, content = OStr s /\ well_formed_text s)
  /\ (forall bytes, export_text content = Some bytes ->
        exists s, content = OStr s /\ decode_utf8 bytes = Some s)
  /\ export_markdown content = export_text content
  /\ export_xml content = export_text content.
Proof.
  split; [| split; [| done]].
  - split.
    + intros Hsome. destruct content as [| | | |s| | | |]; try by destruct Hsome.
      exists s. split; [done |]. by apply encode_utf8_is_Some.
    + intros (s & -> & Hs). by apply encode_utf8_is_Some.
  - intros bytes Hb. destruct content as [| | | |s| | | |]; try discriminate.
    exists s. split; [done |]. by apply decode_encode_utf8.
Qed.

(** ** The JSON export of values outside the JSON data model *)




(** ** The paragraphs of the DOCX export *)

Lemma split_codes_nonempty (c : Z) (l : list Z) :
  forall cur, split_codes c l cur <> [].
Proof.
  induction l as [|x l IH]; intros cur; cbn [split_codes]; [done |].
  destruct (x =? c)%Z; [done | apply IH].
Qed.

Lemma split_codes_spec (c : Z) (l : list Z) :
  forall cur,
    join_codes c (split_codes c l cur) = rev cur ++ l
    /\ (c ∉ cur -> Forall (fun piece => c ∉ piece) (split_codes c l cur)).
Proof.
  induction l as [|x l IH]; intros cur; cbn [split_codes].
  - rewrite app_nil_r. cbn [join_codes]. split; [done |].
    intros Hcur. constructor; [| constructor].
    by rewrite list_elem_of_In, <- in_rev, <- list_elem_of_In.
  - destruct (Z.eqb_spec x c) as [-> | Hne].
    + destruct (IH []) as (Hjoin & Hall).
      specialize (Hall ltac:(by intros ?%elem_of_nil)).
      split.
      * cbn [join_codes].
        destruct (split_codes c l []) as [|p ps] eqn:Hsplit.
        { by apply split_codes_nonempty in Hsplit. }
        by rewrite Hjoin.
      * intros Hcur. constructor; [| done].
        by rewrite list_elem_of_In, <- in_rev, <- list_elem_of_In.
    + destruct (IH (x :: cur)) as (Hjoin & Hall).
      split.
      * rewrite Hjoin. cbn [rev]. by rewrite <- app_assoc.
      * intros Hcur. apply Hall. intros [Heq | Hin]%elem_of_cons; [by subst | done].
Qed.

(** X24.  The DOCX export hands python-docx one paragraph per line of the
    content and returns the bytes python-docx saves: no paragraph holds a
    newline, joining the paragraphs with newlines gives the content back,
    and there is always at least one paragraph.  There is no export when
    python-docx raises on these paragraphs (as it does for a control
    character), without python-docx, or for a content that is no
    string. *)
Theorem export_docx_lines (docx_available : bool)
    (docx_bytes : list (list Z) -> option (list Z)) (content : PyObj) :
  (forall bytes, export_docx docx_available docx_bytes content = Some bytes ->
     docx_available = true
     /\ exists s paragraphs,
          content = OStr s
          /\ docx_bytes paragraphs = Some bytes
          /\ join_codes 10 paragraphs = s
          /\ Forall (fun paragraph => 10%Z ∉ paragraph) paragraphs
          /\ paragraphs <> [])
  /\ (forall s, docx_available = true -> content = OStr s ->
        export_docx docx_available docx_bytes content
        = docx_bytes (split_codes 10 s []))
  /\ (docx_available = false \/ (forall s, content <> OStr s) ->
      export_docx docx_available docx_bytes content = None).
Proof.
  split; [| split].
  - intros bytes. unfold export_docx.
    destruct docx_available; [| discriminate].
    destruct content as [| | | |s| | | |]; try discriminate.
    intros Hbytes. split; [done |].
    exists s, (split_codes 10 s []).
    destruct (split_codes_spec 10 s []) as (Hjoin & Hall).
    split; [done |]. split; [done |]. split; [done |]. split.
    + apply Hall. by intros ?%elem_of_nil.
    + apply split_codes_nonempty.
  - by intros s -> ->.
  - intros [-> | Hno]; [done |]. unfold export_docx.
    destruct docx_available; [| done].
    destruct content as [| | | |s| | | |]; try done. by destruct (Hno s).
Qed.
(** ** Metrics: escaped dollars and words *)

Lemma match_unescaped_dollar (rest : list Item) (prev : option ascii) (s : list ascii) :
  dollars_escaped prev s ->
  match_items (NotAfter "\" :: One dollar :: rest) prev s = None.
Proof.
  intros Hs. cbn [match_items One].
  destruct (preceded_by prev "\") eqn:Hprev; [done |].
  destruct s as [|c s]; [done |].
  destruct Hs as [Hc _].
  cbn [class_match dollar].
  destruct (Ascii.eqb_spec c "$") as [-> | Hne]; [| done].
  specialize (Hc eq_refl). subst prev. discriminate.
Qed.

Lemma findall_unescaped_dollar (rest : list Item) (s : list ascii) :
  forall prev, dollars_escaped prev s ->
  findall_go (NotAfter "\" :: One dollar :: rest) prev s 0 = 0%nat.
Proof.
  induction s as [|c s IH]; intros prev Hs; cbn [findall_go];
    rewrite match_unescaped_dollar by done; [done |].
  apply IH. by destruct Hs.
Qed.

(** X21.  A text in which every dollar sign stands directly behind a
    backslash (in particular a text without dollar signs) has an estimated
    equation count of 0. *)
Theorem escaped_dollars_not_counted (text : string) :
  dollars_escaped None (to_list text) ->
  calculate_metrics (VStr text) !! "estimated_equation_count" = Some (VInt 0).
Proof.
  intros Hs. unfold calculate_metrics, findall_count, inline_eq_pattern,
    display_eq_pattern.
  rewrite !findall_unescaped_dollar by done. by simplify_map_eq.
Qed.

Lemma escaped_dollars_not_counted_witness :
  calculate_metrics (VStr "a price of \$5 and \$7") !! "estimated_equation_count"
  = Some (VInt 0).
Proof.
  apply escaped_dollars_not_counted. cbn.
  repeat (split; [(intros _; reflexivity) || discriminate |]). exact I.
Defined.

Lemma count_words_bound (l : list ascii) (in_word : bool) :
  (2 * count_words l in_word <= length l + (if in_word then 0 else 1))%nat.
Proof.
  revert in_word. induction l as [|c l IH]; intros in_word; cbn [count_words length].
  - destruct in_word; lia.
  - destruct (is_space c).
    + specialize (IH false). cbn in IH. destruct in_word; lia.
    + specialize (IH true). cbn in IH. destruct in_word; lia.
Qed.

Lemma count_words_zero (l : list ascii) :
  count_words l false = 0%nat <-> Forall (fun c => is_space c = true) l.
Proof.
  induction l as [|c l IH]; cbn [count_words]; [by split |].
  destruct (is_space c) eqn:Hc.
  - rewrite IH. split; [by constructor | by intros [_ ?]%Forall_cons].
  - split; [done | intros [Hc' _]%Forall_cons; congruence].
Qed.

(** X22.  For a string, [calculate_metrics] reports no error, a character
    count equal to the length of the text, and a word count [w] with
    [2 * w <= char_count + 1]; the word count is 0 exactly when every
    character of the text is white space.  For any other value the result
    has an error and no count. *)
Theorem metrics_word_count (text_content : PyVal) :
  (forall text, text_content = VStr text ->
     exists w : nat,
       calculate_metrics text_content !! "word_count" = Some (VInt (Z.of_nat w))
       /\ calculate_metrics text_content !! "char_count"
          = Some (VInt (Z.of_nat (String.length text)))
       /\ (2 * w <= String.length text + 1)%nat
       /\ (w = 0%nat <-> Forall (fun c => is_space c = true) (to_list text))
       /\ calculate_metrics text_content !! "error" = None)
  /\ ((forall text, text_content <> VStr text) ->
      error_set (calculate_metrics text_content) = true
      /\ calculate_metrics text_content !! "word_count" = None
      /\ calculate_metrics text_content !! "char_count" = None).
Proof.
  split.
  - intros text ->. exists (count_words (to_list text) false).
    unfold calculate_metrics.
    split; [by simplify_map_eq |]. split; [by simplify_map_eq |].
    split; [| split; [apply count_words_zero | by simplify_map_eq]].
    pose proof (count_words_bound (to_list text) false) as H.
    rewrite length_to_list in H. lia.
  - intros Hne. destruct text_content; try done. by destruct (Hne s).
Qed.

(** ** The list of PDF files *)

(** X23.  [get_pdf_files] returns, in ascending order and with their
    multiplicities, exactly the entries of the directory whose name ends in
    [.pdf] in any mix of upper and lower case; for a missing directory it
    returns the empty list. *)
Theorem get_pdf_files_sorted (listing : option (list string)) :
  Sorted String.le (get_pdf_files listing)
  /\ get_pdf_files listing
     ≡ₚ List.filter (fun filename => endswith ".pdf" (py_lower filename))
          (default [] listing)
  /\ (listing = None -> get_pdf_files listing = []).
Proof.
  split; [| split].
  - unfold get_pdf_files. apply Sorted_merge_sort. apply _.
  - unfold get_pdf_files. rewrite merge_sort_Permutation. by destruct listing.
  - intros ->. reflexivity.
Qed.


(** ** The fallback when the OCR run returns *)

(** X25.  In every world, whenever Nougat is among the selected back ends,
    its result has a non-empty error, OCR is registered and the OCR run of
    the fallback returns a result, the result set of the run holds the
    failed Nougat result under its own key and the result of that OCR run
    under the key [OCR Fallback], which is no registered name.  The OCR run
    is [parse_ocr] on the document path and the page range of the Nougat
    call with the OCR language and DPI settings, so the entry has no error
    when that run has none. *)
Theorem nougat_fallback_stored
    (w : World) (st : Settings) (names : list string)
    (nougat_result fallback : gmap string PyVal) :
  Forall registered names ->
  "Nougat" ∈ names ->
  invoke w Nougat (parser_params st "Nougat") = inr nougat_result ->
  error_set nougat_result = true ->
  registered "OCR (Tesseract)" ->
  parse_ocr w (selected_pdf_path st) (ocr_lang st) (page_range st) (ocr_dpi st)
  = inr fallback ->
  exists rs,
    parse_button (invoke w) st names = inr rs
    /\ od_get rs "Nougat" = Some nougat_result
    /\ od_get rs "OCR Fallback" = Some fallback
    /\ ~ registered "OCR Fallback"
    /\ invoke w Ocr (ocr_params st) = inr fallback
    /\ ocr_params st !! "pdf_path" = parser_params st "Nougat" !! "pdf_path"
    /\ ocr_params st !! "page_range" = parser_params st "Nougat" !! "page_range"
    /\ ocr_params st !! "lang" = Some (VStr (ocr_lang st))
    /\ ocr_params st !! "dpi" = Some (VInt (ocr_dpi st))
    /\ (error_set fallback = false ->
        forall r, od_get rs "OCR Fallback" = Some r -> error_set r = false).
Proof.
  intros Hreg Hin Hn Herr _ Hocr.
  destruct (nougat_fallback_when_ocr_returns w st names nougat_result fallback
              Hreg Hin Hn Herr Hocr) as (rs & Hrun & HN & HF).
  destruct (ocr_params_lookup st) as ((Hp1 & Hp2) & (Hr1 & Hr2) & Hlang & Hdpi).
  exists rs. split; [exact Hrun |]. split; [exact HN |]. split; [exact HF |].
  split; [intros [f Hf]; vm_compute in Hf; discriminate |].
  split; [by rewrite invoke_ocr_fallback |].
  split; [by rewrite Hp1, Hp2 |]. split; [by rewrite Hr1, Hr2 |].
  split; [exact Hlang |]. split; [exact Hdpi |].
  intros Hok r Hr. rewrite HF in Hr. by injection Hr as <-.
Qed.

Lemma nougat_fallback_stored_witness :
  exists rs,
    parse_button (invoke sample_world) sample_settings ["Nougat"; "PyMuPDF"] = inr rs
    /\ od_get rs "Nougat" = Some sample_nougat_failure
    /\ od_get rs "OCR Fallback" = Some sample_fallback
    /\ error_set sample_fallback = false
    /\ (forall r, od_get rs "OCR Fallback" = Some r -> error_set r = false).
Proof.
  destruct (nougat_fallback_stored sample_world sample_settings
              ["Nougat"; "PyMuPDF"] sample_nougat_failure sample_fallback)
    as (rs & Hrun & HN & HF & _ & _ & _ & _ & _ & _ & Hok).
  - repeat constructor; by eexists.
  - by left.
  - vm_compute. reflexivity.
  - reflexivity.
  - by eexists.
  - vm_compute. reflexivity.
  - exists rs. split; [exact Hrun |]. split; [exact HN |]. split; [exact HF |].
    split; [vm_compute; reflexivity |].
    apply Hok. vm_compute. reflexivity.
Defined.
